(** * Limit-order-book pipeline: simulator, feature extractor, forecasts, metrics

    A shallow embedding of the numeric pipeline of the repository
    ([generateLOBData], [calculateFeatures], [runTimeSeriesAnalysis],
    [gaussianRandom]) and the properties the specification states about it.

    Conventions of the embedding.
    - A JavaScript [number] is a real number ([R]); arithmetic is exact.
      Places where the program would produce [NaN] or [undefined] (an index
      out of range, a division by zero) are named where they matter, and the
      statements that depend on the value carry a hypothesis that excludes them.
    - The program computes in double precision. An equation between a value
      the program computes and a closed form for it is meant up to the
      rounding of the operations involved. Orderings, signs and ranges are
      stated where rounding keeps them: rounding is monotone, and it keeps a
      gap that is wider than the rounding error, but not a bound that exact
      arithmetic meets with equality. Properties of the level prices are
      stated for snapshots whose mid price is at most [priceCeiling], far
      below the magnitudes at which double precision no longer separates two
      prices a cent apart.
    - [Math.random()] reads the next element of an explicit source, the list of
      the values it is going to return; a computation that needs more values
      than the source holds yields [None].
    - A timestamp is the number of milliseconds elapsed since the start time
      of the simulation (the ISO formatting of the date is not modelled). *)

From Stdlib Require Import String Reals Lra Lia ZArith Bool List.
Import ListNotations.
Local Open Scope R_scope.

(** ** JavaScript primitives *)

Module JS.

Definition Math_floor (x : R) : R := IZR (Zfloor x).

(** [Math.round] rounds to the nearest integer, ties towards +infinity. *)
Definition Math_round (x : R) : R := Math_floor (x + / 2).

Definition Math_max (x y : R) : R := Rmax x y.
Definition Math_min (x y : R) : R := Rmin x y.
Definition Math_abs (x : R) : R := Rabs x.
Definition Math_sqrt (x : R) : R := sqrt x.
Definition Math_log (x : R) : R := ln x.
Definition Math_sin (x : R) : R := sin x.
Definition Math_cos (x : R) : R := cos x.
Definition Math_PI : R := PI.

(** [x > y] and [x < y] as the booleans the program branches on. *)
Definition gt (x y : R) : bool := if Rlt_dec y x then true else false.
Definition lt (x y : R) : bool := if Rlt_dec x y then true else false.

(** [arr.slice(from, to)] and [arr.slice(-k)] for in-range arguments. *)
Definition slice {A} (from to : nat) (arr : list A) : list A :=
  firstn (to - from) (skipn from arr).
Definition slice_last {A} (k : nat) (arr : list A) : list A :=
  skipn (length arr - k) arr.

(** [arr.map((x, i) => f x i)]. *)
Fixpoint mapi_from {A B} (f : A -> nat -> B) (i : nat) (arr : list A) : list B :=
  match arr with
  | [] => []
  | x :: rest => f x i :: mapi_from f (S i) rest
  end.
Definition mapi {A B} (f : A -> nat -> B) (arr : list A) : list B :=
  mapi_from f 0 arr.

(** [arr.reduce((s, x, i, arr) => f s x i arr, init)]. *)
Fixpoint reduce_from {A Acc} (f : Acc -> A -> nat -> list A -> Acc)
         (whole : list A) (i : nat) (arr : list A) (s : Acc) : Acc :=
  match arr with
  | [] => s
  | x :: rest => reduce_from f whole (S i) rest (f s x i whole)
  end.
Definition reducei {A Acc} (f : Acc -> A -> nat -> list A -> Acc)
           (init : Acc) (arr : list A) : Acc :=
  reduce_from f arr 0 arr init.

(** [arr.reduce((s, x) => f s x, init)]. *)
Definition reduce {A Acc} (f : Acc -> A -> Acc) (init : Acc)
           (arr : list A) : Acc :=
  fold_left f arr init.

End JS.
Import JS.

(** ** The source of uniform random numbers *)

Module Rand.

Definition source := list R.

(** A computation that reads from the source. *)
Definition M (A : Type) : Type := source -> option (A * source).

Definition ret {A} (a : A) : M A := fun s => Some (a, s).

Definition bind {A B} (m : M A) (k : A -> M B) : M B :=
  fun s => match m s with
           | Some (a, s') => k a s'
           | None => None
           end.

Definition Math_random : M R :=
  fun s => match s with
           | u :: s' => Some (u, s')
           | [] => None
           end.

(** [let u = 0; while (u === 0) u = Math.random()]: draw until the value
    drawn is not zero. *)
Fixpoint drawNonZero (s : source) : option (R * source) :=
  match s with
  | u :: s' => if Req_dec_T u 0 then drawNonZero s' else Some (u, s')
  | [] => None
  end.

End Rand.
Import Rand.

Notation "x <- m ;; k" := (bind m (fun x => k))
  (at level 61, m at next level, right associativity).
Notation "' ( x , y ) <- m ;; k" := (bind m (fun xy => let '(x, y) := xy in k))
  (at level 61, x name, y name, m at next level, right associativity).

(** Box-Muller: two non-zero uniform draws give one normal draw. *)
Definition gaussianRandom : M R :=
  u <- drawNonZero ;;
  v <- drawNonZero ;;
  ret (Math_sqrt (-2.0 * Math_log u) * Math_cos (2.0 * Math_PI * v)).

(** ** Types *)

Record OrderLevel := {
  price : R;
  size : R;
  orders : R
}.

Inductive Side := buy | sell.

Record Trade := {
  tradePrice : R;
  tradeSize : R;
  tradeSide : Side
}.

Module LOB.
Record LOBRecord := {
  timestamp : Z;
  symbol : string;
  midPrice : R;
  spread : R;
  bidLevels : list OrderLevel;
  askLevels : list OrderLevel;
  totalBidVolume : R;
  totalAskVolume : R;
  orderImbalance : R;
  volatility : R;
  lastTrade : Trade
}.
End LOB.

Module Feature.
Record FeatureRecord := {
  timestamp : Z;
  midPrice : R;
  spread : R;
  orderFlowImbalance : R;
  depthImbalance : R;
  priceMomentum : R;
  priceVolatility : R;
  spreadChange : R;
  vwapBid : R;
  vwapAsk : R;
  totalBidVolume : R;
  totalAskVolume : R;
  volatility : R;
  futureReturn : R;
  futureDirection : R
}.
End Feature.

Module Arima.
Record point := {
  timestamp : Z;
  actual : R;
  predicted : R;
  error : R
}.
End Arima.

Module Garch.
Record point := {
  timestamp : Z;
  actualVolatility : R;
  forecastVolatility : R;
  conditionalVariance : R
}.
End Garch.

Inductive RegimeLabel := low | normal | high.

Module Regime.
Record point := {
  timestamp : Z;
  volatility : R;
  regime : RegimeLabel
}.
End Regime.

Record Metrics := {
  mse : R;
  rmse : R;
  mae : R;
  directionAccuracy : R
}.

Record AnalysisResults := {
  arimaResults : list Arima.point;
  garchResults : list Garch.point;
  volatilityRegimes : list Regime.point;
  metrics_arima : Metrics;
  metrics_garch : Metrics
}.

(** ** Data generation *)

Definition basePrice : R := 150.0.
Definition volatility : R := 0.0002.
Definition spreadBase : R := 0.01.
Definition volatilityPersistence : R := 0.95.

(** The two variables the tick loop carries from one iteration to the next. *)
Record SimState := {
  currentPrice : R;
  currentVolatility : R
}.

Definition initialState : SimState :=
  {| currentPrice := basePrice; currentVolatility := volatility |}.

(** [for (let level = 0; level < 5; level++)], as a recursion over the levels
    still to do; each level pushes one bid and one ask. *)
Fixpoint generateLevels (levels : list nat) (currentPrice spread imbalance : R)
  : M (list OrderLevel * list OrderLevel) :=
  match levels with
  | [] => ret ([], [])
  | level :: rest =>
      let levelOffset := spread / 2 + INR level * spread * 0.5 in
      zBid <- gaussianRandom ;;
      uBid <- Math_random ;;
      zAsk <- gaussianRandom ;;
      uAsk <- Math_random ;;
      let bid :=
        {| price := Math_round ((currentPrice - levelOffset) * 100) / 100;
           size := Math_max 100 (Math_round (zBid * 200
                     + 500 * (1 - imbalance * 0.3) * (1 - INR level * 0.15)));
           orders := Math_floor (uBid * 10) + 1 |} in
      let ask :=
        {| price := Math_round ((currentPrice + levelOffset) * 100) / 100;
           size := Math_max 100 (Math_round (zAsk * 200
                     + 500 * (1 + imbalance * 0.3) * (1 - INR level * 0.15)));
           orders := Math_floor (uAsk * 10) + 1 |} in
      '(bids, asks) <- generateLevels rest currentPrice spread imbalance ;;
      ret (bid :: bids, ask :: asks)
  end.

(** [levels[0].price]; the program always has five levels here. *)
Definition bestPrice (levels : list OrderLevel) : R :=
  match levels with
  | l :: _ => price l
  | [] => 0
  end.

(** One iteration of the tick loop: the body of [for (let i = 0; ...)]. *)
Definition tick (i : nat) (st : SimState) : M (LOB.LOBRecord * SimState) :=
  let timestamp := (Z.of_nat i * 500)%Z in
  shock <- gaussianRandom ;;
  let currentVolatility' :=
    volatilityPersistence * currentVolatility st
    + (1 - volatilityPersistence) * volatility * Math_abs shock in
  zPrice <- gaussianRandom ;;
  let priceChange := zPrice * currentVolatility' * currentPrice st in
  let currentPrice' := Math_max (currentPrice st + priceChange) 1.0 in
  let spread := spreadBase * (1 + (currentVolatility' / volatility) * 2) in
  zImbalance <- gaussianRandom ;;
  let imbalance :=
    Math_max (-0.8) (Math_min 0.8
      (Math_sin (INR i / 1000) * 0.3 + zImbalance * 0.2)) in
  '(bidLevels, askLevels) <-
     generateLevels (seq 0 5) currentPrice' spread imbalance ;;
  let totalBid := reduce (fun sum l => sum + size l) 0 bidLevels in
  let totalAsk := reduce (fun sum l => sum + size l) 0 askLevels in
  uSide <- Math_random ;;
  let tradeSide := if gt uSide (0.5 - imbalance * 0.2) then buy else sell in
  uSize <- Math_random ;;
  ret ({| LOB.timestamp := timestamp;
          LOB.symbol := "AAPL";
          LOB.midPrice := Math_round (currentPrice' * 10000) / 10000;
          LOB.spread := Math_round (spread * 10000) / 10000;
          LOB.bidLevels := bidLevels;
          LOB.askLevels := askLevels;
          LOB.totalBidVolume := totalBid;
          LOB.totalAskVolume := totalAsk;
          LOB.orderImbalance := Math_round (imbalance * 10000) / 10000;
          LOB.volatility := Math_round (currentVolatility' * 1000000) / 1000000;
          LOB.lastTrade :=
            {| tradePrice := match tradeSide with
                             | buy => bestPrice askLevels
                             | sell => bestPrice bidLevels
                             end;
               tradeSize := (Math_floor (uSize * 100) + 1) * 100;
               tradeSide := tradeSide |} |},
       {| currentPrice := currentPrice';
          currentVolatility := currentVolatility' |}).

(** [count] iterations of the tick loop, starting at index [i]. *)
Fixpoint ticksFrom (count i : nat) (st : SimState) : M (list LOB.LOBRecord) :=
  match count with
  | O => ret []
  | S count' =>
      '(record, st') <- tick i st ;;
      rest <- ticksFrom count' (S i) st' ;;
      ret (record :: rest)
  end.

Definition generateLOBData (numRecords : Z) : M (list LOB.LOBRecord) :=
  ticksFrom (Z.to_nat numRecords) 0 initialState.

(** ** Feature extraction *)

(** [data[i]] is only read at indexes the loop bounds keep in range; this is
    the value the model returns elsewhere. *)
Definition noRecord : LOB.LOBRecord :=
  {| LOB.timestamp := 0%Z; LOB.symbol := ""; LOB.midPrice := 0; LOB.spread := 0;
     LOB.bidLevels := []; LOB.askLevels := [];
     LOB.totalBidVolume := 0; LOB.totalAskVolume := 0;
     LOB.orderImbalance := 0; LOB.volatility := 0;
     LOB.lastTrade := {| tradePrice := 0; tradeSize := 0; tradeSide := buy |} |}.

(** [futureReturn] before it is rounded for storage. *)
Definition rawFutureReturn (data : list LOB.LOBRecord) (i : nat) : R :=
  let record := nth i data noRecord in
  if (i <? length data - 1)%nat
  then (LOB.midPrice (nth (i + 1) data noRecord) - LOB.midPrice record)
       / LOB.midPrice record
  else 0.

(** The body of the loop of [calculateFeatures] at index [i]. *)
Definition featureAt (data : list LOB.LOBRecord) (i : nat) : Feature.FeatureRecord :=
  let record := nth i data noRecord in
  let totalBid := LOB.totalBidVolume record in
  let totalAsk := LOB.totalAskVolume record in
  let depthImbalance :=
    if gt (totalBid + totalAsk) 0
    then (totalBid - totalAsk) / (totalBid + totalAsk) else 0 in
  let lookbackPrices := map LOB.midPrice (slice (i - 10) i data) in
  let priceMomentum :=
    (LOB.midPrice record - nth 0 lookbackPrices 0) / nth 0 lookbackPrices 0 in
  let avgPrice := reduce (fun a b => a + b) 0 lookbackPrices / 10 in
  let priceVolatility :=
    reduce (fun s p => s + (p - avgPrice) ^ 2) 0 lookbackPrices / 10 in
  let spreadChange := LOB.spread record - LOB.spread (nth (i - 1) data noRecord) in
  let vwapBid :=
    if gt totalBid 0
    then reduce (fun s l => s + price l * size l) 0 (LOB.bidLevels record) / totalBid
    else 0 in
  let vwapAsk :=
    if gt totalAsk 0
    then reduce (fun s l => s + price l * size l) 0 (LOB.askLevels record) / totalAsk
    else 0 in
  let futureReturn := rawFutureReturn data i in
  {| Feature.timestamp := LOB.timestamp record;
     Feature.midPrice := LOB.midPrice record;
     Feature.spread := LOB.spread record;
     Feature.orderFlowImbalance := LOB.orderImbalance record;
     Feature.depthImbalance := Math_round (depthImbalance * 10000) / 10000;
     Feature.priceMomentum := Math_round (priceMomentum * 1000000) / 1000000;
     Feature.priceVolatility := Math_round (priceVolatility * 100000000) / 100000000;
     Feature.spreadChange := Math_round (spreadChange * 1000000) / 1000000;
     Feature.vwapBid := Math_round (vwapBid * 10000) / 10000;
     Feature.vwapAsk := Math_round (vwapAsk * 10000) / 10000;
     Feature.totalBidVolume := totalBid;
     Feature.totalAskVolume := totalAsk;
     Feature.volatility := LOB.volatility record;
     Feature.futureReturn := Math_round (futureReturn * 100000000) / 100000000;
     Feature.futureDirection :=
       if gt futureReturn 0 then 1 else if lt futureReturn 0 then -1 else 0 |}.

(** [for (let i = 10; i < data.length; i++) features.push(...)]. *)
Definition calculateFeatures (data : list LOB.LOBRecord) : list Feature.FeatureRecord :=
  map (featureAt data) (seq 10 (length data - 10)).

(** ** Time-series analysis *)

(** [features[i]] is read at indexes below [features.length] only. *)
Definition noFeature : Feature.FeatureRecord :=
  {| Feature.timestamp := 0%Z; Feature.midPrice := 0; Feature.spread := 0;
     Feature.orderFlowImbalance := 0; Feature.depthImbalance := 0;
     Feature.priceMomentum := 0; Feature.priceVolatility := 0;
     Feature.spreadChange := 0; Feature.vwapBid := 0; Feature.vwapAsk := 0;
     Feature.totalBidVolume := 0; Feature.totalAskVolume := 0;
     Feature.volatility := 0; Feature.futureReturn := 0;
     Feature.futureDirection := 0 |}.

Definition pricesOf (features : list Feature.FeatureRecord) : list R :=
  map Feature.midPrice features.

(** [prices.slice(1).map((p, i) => (p - prices[i]) / prices[i])]. *)
Definition returnsOf (prices : list R) : list R :=
  mapi (fun p i => (p - nth i prices 0) / nth i prices 0) (skipn 1 prices).

(** [Math.floor(prices.length * 0.8)]. *)
Definition trainSizeOf (prices : list R) : nat :=
  Z.to_nat (Zfloor (INR (length prices) * 0.8)).

(** The prediction made from the current [history]. When [history] is empty
    the program reads [history[-1]], which is [undefined], and the prediction
    is [NaN]; the model reads 0 there. *)
Definition predictFrom (history : list R) : R :=
  let lastPrice := nth (length history - 1) history 0 in
  let avgChange :=
    reducei (fun s p j arr =>
               if (j =? 0)%nat then s else s + (p - nth (j - 1) arr 0))
            0 (slice_last 10 history) / 9 in
  lastPrice + avgChange * 0.7.

(** [for (let i = trainSize; i < prices.length; i++)], carrying [history]. *)
Fixpoint arimaLoop (features : list Feature.FeatureRecord) (prices : list R)
         (indexes : list nat) (history : list R) : list Arima.point :=
  match indexes with
  | [] => []
  | i :: rest =>
      let predicted := predictFrom history in
      let actual := nth i prices 0 in
      {| Arima.timestamp := Feature.timestamp (nth i features noFeature);
         Arima.actual := actual;
         Arima.predicted := predicted;
         Arima.error := actual - predicted |}
      :: arimaLoop features prices rest (history ++ [actual])
  end.

Definition omega : R := 0.00001.
Definition alpha : R := 0.1.
Definition beta : R := 0.85.

(** One update of the conditional variance with the return [r]. *)
Definition garchUpdate (condVar r : R) : R :=
  omega + alpha * r * r + beta * condVar.

(** [trainReturns.forEach((r) => { condVar = ... })], from [condVar]. *)
Definition garchWarmup (trainReturns : list R) (condVar : R) : R :=
  fold_left garchUpdate trainReturns condVar.

(** [for (let i = trainSize; i < returns.length; i++)], carrying [condVar]. *)
Fixpoint garchLoop (features : list Feature.FeatureRecord) (returns : list R)
         (indexes : list nat) (condVar : R) : list Garch.point :=
  match indexes with
  | [] => []
  | i :: rest =>
      let forecastVol := Math_sqrt condVar in
      let actualVol := Math_abs (nth i returns 0) in
      {| Garch.timestamp :=
           match nth_error features (i + 1) with
           | Some f => Feature.timestamp f
           | None => Feature.timestamp (nth i features noFeature)
           end;
         Garch.actualVolatility := actualVol;
         Garch.forecastVolatility := forecastVol;
         Garch.conditionalVariance := condVar |}
      :: garchLoop features returns rest (garchUpdate condVar (nth i returns 0))
  end.

(** The loop of [calcMetrics] that counts the steps whose direction agrees. *)
Fixpoint countCorrectDir (actual predicted : list R) (indexes : list nat)
         (correctDir : R) : R :=
  match indexes with
  | [] => correctDir
  | i :: rest =>
      let actualDir := gt (nth i actual 0) (nth (i - 1) actual 0) in
      let predDir := gt (nth i predicted 0) (nth (i - 1) predicted 0) in
      countCorrectDir actual predicted rest
        (if Bool.eqb actualDir predDir then correctDir + 1 else correctDir)
  end.

Definition calcMetrics (actual predicted : list R) : Metrics :=
  let n := length actual in
  let mse :=
    reducei (fun s a i _ => s + (a - nth i predicted 0) ^ 2) 0 actual / INR n in
  let rmse := Math_sqrt mse in
  let mae :=
    reducei (fun s a i _ => s + Math_abs (a - nth i predicted 0)) 0 actual / INR n in
  let correctDir := countCorrectDir actual predicted (seq 1 (n - 1)) 0 in
  let directionAccuracy := (correctDir / (INR n - 1)) * 100 in
  {| mse := mse; rmse := rmse; mae := mae; directionAccuracy := directionAccuracy |}.

Definition initialCondVar : R := 0.0001.

Definition runTimeSeriesAnalysis (features : list Feature.FeatureRecord)
  : AnalysisResults :=
  let prices := pricesOf features in
  let returns := returnsOf prices in
  let trainSize := trainSizeOf prices in
  let history := slice 0 trainSize prices in
  let arimaResults :=
    arimaLoop features prices (seq trainSize (length prices - trainSize)) history in
  let trainReturns := slice 0 trainSize returns in
  let condVar := garchWarmup trainReturns initialCondVar in
  let garchResults :=
    garchLoop features returns (seq trainSize (length returns - trainSize)) condVar in
  let avgVol :=
    reduce (fun s f => s + Feature.volatility f) 0 features / INR (length features) in
  let volatilityRegimes :=
    map (fun f =>
           {| Regime.timestamp := Feature.timestamp f;
              Regime.volatility := Feature.volatility f;
              Regime.regime :=
                if gt (Feature.volatility f) (avgVol * 1.5) then high
                else if lt (Feature.volatility f) (avgVol * 0.5) then low
                else normal |})
        (slice_last 500 features) in
  {| arimaResults := arimaResults;
     garchResults := garchResults;
     volatilityRegimes := volatilityRegimes;
     metrics_arima :=
       calcMetrics (map Arima.actual arimaResults) (map Arima.predicted arimaResults);
     metrics_garch :=
       calcMetrics (map Garch.actualVolatility garchResults)
                   (map Garch.forecastVolatility garchResults) |}.

(** ** Inputs of the examples *)

(** A feature record with the given timestamp and mid price. *)
Definition featureWithPrice (t : Z) (p : R) : Feature.FeatureRecord :=
  {| Feature.timestamp := t; Feature.midPrice := p; Feature.spread := 0;
     Feature.orderFlowImbalance := 0; Feature.depthImbalance := 0;
     Feature.priceMomentum := 0; Feature.priceVolatility := 0;
     Feature.spreadChange := 0; Feature.vwapBid := 0; Feature.vwapAsk := 0;
     Feature.totalBidVolume := 0; Feature.totalAskVolume := 0;
     Feature.volatility := 0; Feature.futureReturn := 0;
     Feature.futureDirection := 0 |}.

(** Five features: the training region holds four mid prices. *)
Definition shortFeatures : list Feature.FeatureRecord :=
  [featureWithPrice 0 150; featureWithPrice 500 151; featureWithPrice 1000 152;
   featureWithPrice 1500 153; featureWithPrice 2000 154].

(** ** The quantities of one tick, named *)

(** These are the expressions of the body of the tick loop, as functions of
    the values they are computed from. *)

Definition nextVolatility (currentVolatility shock : R) : R :=
  volatilityPersistence * currentVolatility
  + (1 - volatilityPersistence) * volatility * Math_abs shock.

Definition nextPrice (currentPrice currentVolatility' z : R) : R :=
  Math_max (currentPrice + z * currentVolatility' * currentPrice) 1.0.

Definition spreadOf (currentVolatility' : R) : R :=
  spreadBase * (1 + (currentVolatility' / volatility) * 2).

Definition imbalanceOf (i : nat) (z : R) : R :=
  Math_max (-0.8) (Math_min 0.8 (Math_sin (INR i / 1000) * 0.3 + z * 0.2)).

Definition levelOffsetOf (spread : R) (level : nat) : R :=
  spread / 2 + INR level * spread * 0.5.

Definition bidPriceOf (currentPrice spread : R) (level : nat) : R :=
  Math_round ((currentPrice - levelOffsetOf spread level) * 100) / 100.

Definition askPriceOf (currentPrice spread : R) (level : nat) : R :=
  Math_round ((currentPrice + levelOffsetOf spread level) * 100) / 100.

(** ** Reading from a source that never returns zero *)

(** [reads k m]: on every source whose values are all non-zero and that holds
    at least [k] values, [m] returns a result and leaves the source without
    its first [k] values. *)
Definition reads {A} (k : nat) (m : M A) : Prop :=
  forall src : source,
    Forall (fun u => u <> 0) src -> (k <= length src)%nat ->
    exists a, m src = Some (a, skipn k src).

(** A source for one tick: the first normal draw (the shock) is 0, the second
    one (the draw of the price change) is not. *)
Definition priceDrawSource : source :=
  [1/4; 1/4; 1/4; 1/2] ++ repeat (1/4) 34.

(** ** The invariants of a snapshot *)

Definition strictlyDecreasing (l : list R) : Prop :=
  forall j k, (j < k < length l)%nat -> nth k l 0 < nth j l 0.

Definition strictlyIncreasing (l : list R) : Prop :=
  forall j k, (j < k < length l)%nat -> nth j l 0 < nth k l 0.

Definition nonIncreasing (l : list R) : Prop :=
  forall j k, (j < k < length l)%nat -> nth k l 0 <= nth j l 0.

Definition nonDecreasing (l : list R) : Prop :=
  forall j k, (j < k < length l)%nat -> nth j l 0 <= nth k l 0.

(** The invariants as the specification lists them. *)
Definition specifiedInvariants (r : LOB.LOBRecord) : Prop :=
  1.0 <= LOB.midPrice r
  /\ length (LOB.bidLevels r) = 5%nat
  /\ length (LOB.askLevels r) = 5%nat
  /\ Forall (fun l => 100 <= size l) (LOB.bidLevels r)
  /\ Forall (fun l => 100 <= size l) (LOB.askLevels r)
  /\ strictlyDecreasing (map price (LOB.bidLevels r))
  /\ strictlyIncreasing (map price (LOB.askLevels r))
  /\ 0 < LOB.spread r
  /\ -0.8 <= LOB.orderImbalance r <= 0.8.

(** The invariants the generator keeps: the level prices are monotone, and
    strictly so when the stored spread is above 0.02. *)
Definition keptInvariants (r : LOB.LOBRecord) : Prop :=
  1.0 <= LOB.midPrice r
  /\ length (LOB.bidLevels r) = 5%nat
  /\ length (LOB.askLevels r) = 5%nat
  /\ Forall (fun l => 100 <= size l) (LOB.bidLevels r)
  /\ Forall (fun l => 100 <= size l) (LOB.askLevels r)
  /\ nonIncreasing (map price (LOB.bidLevels r))
  /\ nonDecreasing (map price (LOB.askLevels r))
  /\ (0.02 < LOB.spread r ->
      strictlyDecreasing (map price (LOB.bidLevels r))
      /\ strictlyIncreasing (map price (LOB.askLevels r)))
  /\ 0 < LOB.spread r
  /\ -0.8 <= LOB.orderImbalance r <= 0.8.

(** The properties of the level prices are stated for the snapshots whose
    mid price does not exceed this bound. *)
Definition priceCeiling : R := 1000000.

Definition withinCeiling (r : LOB.LOBRecord) : Prop :=
  LOB.midPrice r <= priceCeiling.

(** A source that returns 1/4 every time: every normal draw is
    [sqrt (-2 ln (1/4)) * cos (PI / 2) = 0]. *)
Definition quarterSource (n : nat) : source := repeat (1/4) n.

(** The state after a tick whose shock and price draw are both 0. *)
Definition quietStep (st : SimState) : SimState :=
  {| currentPrice :=
       nextPrice (currentPrice st) (nextVolatility (currentVolatility st) 0) 0;
     currentVolatility := nextVolatility (currentVolatility st) 0 |}.

(** ** Direction accuracy, stated over the index range *)

(** The three-valued sign. *)
Definition sign (x : R) : R :=
  if gt x 0 then 1 else if lt x 0 then -1 else 0.

Definition stepAt (l : list R) (i : nat) : R := nth i l 0 - nth (i - 1) l 0.

(** Whether the series goes strictly up at step [i]. *)
Definition risesAt (l : list R) (i : nat) : bool :=
  gt (nth i l 0) (nth (i - 1) l 0).

Definition countWhere (p : nat -> bool) (indexes : list nat) : R :=
  INR (length (filter p indexes)).

(** The direction accuracy as the specification defines it: a step counts
    when the signs of the actual and of the predicted change are equal. *)
Definition directionAccuracyBySign (actual predicted : list R) : R :=
  let n := length actual in
  100 * countWhere
          (fun i => if Req_dec_T (sign (stepAt actual i)) (sign (stepAt predicted i))
                    then true else false)
          (seq 1 (n - 1))
  / (INR n - 1).

(** The direction accuracy with two-valued directions: a step counts when
    both series go strictly up, or neither does. *)
Definition directionAccuracyByRise (actual predicted : list R) : R :=
  let n := length actual in
  100 * countWhere
          (fun i => Bool.eqb (risesAt actual i) (risesAt predicted i))
          (seq 1 (n - 1))
  / (INR n - 1).

(** ** Inputs for the feature extractor *)

(** A snapshot with the given mid price. *)
Definition recordWithPrice (p : R) : LOB.LOBRecord :=
  {| LOB.timestamp := 0%Z; LOB.symbol := "AAPL"; LOB.midPrice := p;
     LOB.spread := 0.03; LOB.bidLevels := []; LOB.askLevels := [];
     LOB.totalBidVolume := 0; LOB.totalAskVolume := 0;
     LOB.orderImbalance := 0; LOB.volatility := 0.0002;
     LOB.lastTrade := {| tradePrice := p; tradeSize := 100; tradeSide := buy |} |}.

(** Twelve snapshots; between the last two the mid price moves by one
    ten-thousandth, a relative change of a third of 1e-8. *)
Definition tinyMoveData : list LOB.LOBRecord :=
  repeat (recordWithPrice 30000) 11 ++ [recordWithPrice 30000.0001].

(** ** The GARCH recursion with zero returns *)

(** The conditional variance after [k] updates with return 0, from [condVar]. *)
Definition condVarAfter (condVar : R) (k : nat) : R :=
  omega * (1 - beta ^ k) / (1 - beta) + beta ^ k * condVar.

(** The value the specification gives for it. *)
Definition condVarAsSpecified (k : nat) : R :=
  omega * (1 - beta ^ k) / (1 - beta).

(** Eleven features with the same mid price: every return is 0. *)
Definition flatFeatures : list Feature.FeatureRecord :=
  map (fun i => featureWithPrice (Z.of_nat i * 500) 150) (seq 0 11).

(** ** The price prediction, stated over the history *)

(** The first differences [l[1] - l[0], l[2] - l[1], ...]. *)
Fixpoint firstDifferences (l : list R) : list R :=
  match l with
  | x :: (y :: _) as rest => (y - x) :: firstDifferences rest
  | _ => []
  end.

Definition sumOf (l : list R) : R := fold_right Rplus 0 l.

Definition meanOf (l : list R) : R := sumOf l / INR (length l).

(** The prediction as the specification defines it. *)
Definition predictionAsSpecified (history : list R) : R :=
  let lastPrice := last history 0 in
  let avgChange := meanOf (firstDifferences (slice_last 10 history)) in
  lastPrice + 0.7 * avgChange.

(** Thirteen features: the training region holds ten mid prices. *)
Definition risingFeatures : list Feature.FeatureRecord :=
  map (fun i => featureWithPrice (Z.of_nat i * 500) (150 + INR i)) (seq 0 13).


(** ** Further vocabulary for the properties *)

(** [x] is an integer between [lo] and [hi]. *)
Definition integerBetween (lo hi : Z) (x : R) : Prop :=
  exists k : Z, x = IZR k /\ (lo <= k <= hi)%Z.

(** [x] is an integer, at least [lo]. *)
Definition integerFrom (lo : Z) (x : R) : Prop :=
  exists k : Z, x = IZR k /\ (lo <= k)%Z.

(** The values [Math.random()] returns lie in [[0, 1)]. *)
Definition unitInterval (u : R) : Prop := 0 <= u < 1.

(** The total size of a list of levels. *)
Definition sumOfSizes (levels : list OrderLevel) : R := sumOf (map size levels).

(** A level whose size is an integer of at least 100 and whose number of
    orders is an integer from 1 to 10. *)
Definition wellFormedLevel (l : OrderLevel) : Prop :=
  integerFrom 100 (size l) /\ integerBetween 1 10 (orders l).

(** The last trade of a snapshot is at the best price of the side it takes
    liquidity from, for a round lot of 100 to 10000. *)
Definition wellFormedTrade (r : LOB.LOBRecord) : Prop :=
  let t := LOB.lastTrade r in
  tradePrice t = match tradeSide t with
                 | buy => bestPrice (LOB.askLevels r)
                 | sell => bestPrice (LOB.bidLevels r)
                 end
  /\ exists k : Z, tradeSize t = IZR (100 * k) /\ (1 <= k <= 100)%Z.

(** The totals of a snapshot are the sums of its level sizes. *)
Definition totalsAreSums (r : LOB.LOBRecord) : Prop :=
  LOB.totalBidVolume r = sumOfSizes (LOB.bidLevels r)
  /\ LOB.totalAskVolume r = sumOfSizes (LOB.askLevels r)
  /\ 500 <= LOB.totalBidVolume r
  /\ 500 <= LOB.totalAskVolume r.

(** No bid is above an ask, and every bid is strictly below every ask when
    the stored spread is above one cent. *)
Definition notCrossed (r : LOB.LOBRecord) : Prop :=
  forall b a,
    In b (LOB.bidLevels r) -> In a (LOB.askLevels r) ->
    price b <= price a /\ (0.01 < LOB.spread r -> price b < price a).

(** The stored spread follows the stored volatility. *)
Definition spreadTracksVolatility (r : LOB.LOBRecord) : Prop :=
  0.01 <= LOB.spread r
  /\ 0 <= LOB.volatility r
  /\ Rabs (LOB.spread r - (0.01 + 100 * LOB.volatility r)) <= 0.0001.

(** Both totals of a snapshot are non-negative. *)
Definition nonNegativeTotals (r : LOB.LOBRecord) : Prop :=
  0 <= LOB.totalBidVolume r /\ 0 <= LOB.totalAskVolume r.


(** The errors [actual[i] - predicted[i]]. *)
Definition errorsOf (actual predicted : list R) : list R :=
  mapi (fun a i => a - nth i predicted 0) actual.

(** A volatility forecast point: the conditional variance is at least
    [omega], the forecast is [Math.sqrt] of it and is positive, and the
    realised volatility is not negative. *)
Definition wellFormedVolForecast (pt : Garch.point) : Prop :=
  omega <= Garch.conditionalVariance pt
  /\ Garch.forecastVolatility pt = Math_sqrt (Garch.conditionalVariance pt)
  /\ 0 < Garch.forecastVolatility pt
  /\ 0 <= Garch.actualVolatility pt.

(** ** The dashboard: loading the data *)

(** [Math.min(...arr)] and [Math.max(...arr)] of a non-empty array. For the
    empty array the program gets [Infinity] and [-Infinity]; the model has no
    value for them and returns 0. *)
Definition Math_min_of (arr : list R) : R :=
  match arr with
  | x :: rest => fold_left Rmin rest x
  | [] => 0
  end.

Definition Math_max_of (arr : list R) : R :=
  match arr with
  | x :: rest => fold_left Rmax rest x
  | [] => 0
  end.

Module Dashboard.
Record PriceRange := {
  min : R;
  max : R
}.

Record DataStats := {
  totalRecords : nat;
  avgSpread : R;
  avgVolatility : R;
  priceRange : PriceRange
}.

(** What [initializeData] computes and stores in the state of the dashboard. *)
Record DashboardState := {
  lobData : list LOB.LOBRecord;
  features : list Feature.FeatureRecord;
  analysisResults : AnalysisResults;
  dataStats : DataStats
}.
End Dashboard.

(** The body of [initializeData], for a given number of records. *)
Definition loadData (numRecords : Z) : M Dashboard.DashboardState :=
  data <- generateLOBData numRecords ;;
  let featureData := calculateFeatures data in
  let results := runTimeSeriesAnalysis featureData in
  let prices := map LOB.midPrice data in
  let spreads := map LOB.spread data in
  let vols := map LOB.volatility data in
  ret {| Dashboard.lobData := data;
         Dashboard.features := featureData;
         Dashboard.analysisResults := results;
         Dashboard.dataStats :=
           {| Dashboard.totalRecords := length data;
              Dashboard.avgSpread :=
                reduce (fun a b => a + b) 0 spreads / INR (length spreads);
              Dashboard.avgVolatility :=
                reduce (fun a b => a + b) 0 vols / INR (length vols);
              Dashboard.priceRange :=
                {| Dashboard.min := Math_min_of prices;
                   Dashboard.max := Math_max_of prices |} |} |}.

(** The dashboard generates 5000 records. *)
Definition initializeData : M Dashboard.DashboardState := loadData 5000.

(** What holds of a feature vector extracted from a generated snapshot. *)
Definition soundFeature (f : Feature.FeatureRecord) : Prop :=
  1 <= Feature.midPrice f
  /\ 0.01 <= Feature.spread f
  /\ -0.8 <= Feature.orderFlowImbalance f <= 0.8
  /\ 500 <= Feature.totalBidVolume f
  /\ 500 <= Feature.totalAskVolume f
  /\ -1 <= Feature.depthImbalance f <= 1
  /\ 0 <= Feature.volatility f.

(** ** The prediction chart *)

Module ArimaDatum.
Record t := {
  index : nat;
  actual : R;
  predicted : R;
  error : R
}.
End ArimaDatum.

Module DirectionPoint.
Record t := {
  index : nat;
  correct : bool;
  magnitude : R
}.
End DirectionPoint.

Module DirectionAnalysis.
Record t := {
  correct : nat;
  incorrect : nat;
  data : list DirectionPoint.t
}.
End DirectionAnalysis.

(** [arimaData]: the price forecast points with their positions; empty when
    there are no analysis results. *)
Definition arimaData (analysisResults : option AnalysisResults)
  : list ArimaDatum.t :=
  match analysisResults with
  | None => []
  | Some results =>
      mapi (fun r i => {| ArimaDatum.index := i;
                          ArimaDatum.actual := Arima.actual r;
                          ArimaDatum.predicted := Arima.predicted r;
                          ArimaDatum.error := Arima.error r |})
           (arimaResults results)
  end.

(** [arimaData[i]], read inside the bounds of the loop only. *)
Definition noDatum : ArimaDatum.t :=
  {| ArimaDatum.index := 0; ArimaDatum.actual := 0;
     ArimaDatum.predicted := 0; ArimaDatum.error := 0 |}.

(** The loop of [directionAnalysis], carrying the two counters and the
    points pushed so far. *)
Fixpoint directionLoop (arimaData : list ArimaDatum.t) (indexes : list nat)
         (acc : DirectionAnalysis.t) : DirectionAnalysis.t :=
  match indexes with
  | [] => acc
  | i :: rest =>
      let actualDir :=
        gt (ArimaDatum.actual (nth i arimaData noDatum))
           (ArimaDatum.actual (nth (i - 1) arimaData noDatum)) in
      let predDir :=
        gt (ArimaDatum.predicted (nth i arimaData noDatum))
           (ArimaDatum.predicted (nth (i - 1) arimaData noDatum)) in
      let isCorrect := Bool.eqb actualDir predDir in
      let point :=
        {| DirectionPoint.index := i;
           DirectionPoint.correct := isCorrect;
           DirectionPoint.magnitude :=
             Math_abs (ArimaDatum.actual (nth i arimaData noDatum)
                       - ArimaDatum.actual (nth (i - 1) arimaData noDatum)) |} in
      directionLoop arimaData rest
        {| DirectionAnalysis.correct :=
             if isCorrect then S (DirectionAnalysis.correct acc)
             else DirectionAnalysis.correct acc;
           DirectionAnalysis.incorrect :=
             if isCorrect then DirectionAnalysis.incorrect acc
             else S (DirectionAnalysis.incorrect acc);
           DirectionAnalysis.data := DirectionAnalysis.data acc ++ [point] |}
  end.

Definition directionAnalysis (arimaData : list ArimaDatum.t)
  : DirectionAnalysis.t :=
  let empty := {| DirectionAnalysis.correct := 0%nat;
                  DirectionAnalysis.incorrect := 0%nat;
                  DirectionAnalysis.data := [] |} in
  match arimaData with
  | [] => empty
  | _ => directionLoop arimaData (seq 1 (length arimaData - 1)) empty
  end.

(** ** Histograms *)

(** [bins[binIndex]++] for an index inside the array. *)
Fixpoint incrementAt (binIndex : nat) (bins : list nat) : list nat :=
  match bins, binIndex with
  | [], _ => []
  | count :: rest, O => S count :: rest
  | count :: rest, S i => count :: incrementAt i rest
  end.

(** [Math.min(Math.floor((v - min) / binSize), binCount - 1)]. *)
Definition binIndexOf (min binSize : R) (binCount : nat) (v : R) : Z :=
  Z.min (Zfloor ((v - min) / binSize)) (Z.of_nat binCount - 1).

(** [values.forEach((v) => { ...; bins[binIndex]++ })] on
    [new Array(binCount).fill(0)]. A negative index does not name an element
    of the array, and the array is left as it is. *)
Definition fillBins (min binSize : R) (binCount : nat) (values : list R)
  : list nat :=
  fold_left (fun bins v =>
               let binIndex := binIndexOf min binSize binCount v in
               if (0 <=? binIndex)%Z then incrementAt (Z.to_nat binIndex) bins
               else bins)
            values (repeat 0%nat binCount).

Module ErrorBin.
Record t := {
  range : R;
  count : nat
}.
End ErrorBin.


Module VolBin.
Record t := {
  range : R;
  count : nat;
  percentage : R
}.
End VolBin.

(** [volDistribution] of the volatility view, 20 bins over the volatilities
    in basis points; [range] is the lower edge of the bin before it is
    formatted with [toFixed(1)]. *)
Definition volDistribution (data : list LOB.LOBRecord) : list VolBin.t :=
  let vols := map (fun d => LOB.volatility d * 10000) data in
  let min := Math_min_of vols in
  let max := Math_max_of vols in
  let binCount := 20%nat in
  let binSize := (max - min) / INR binCount in
  let bins := fillBins min binSize binCount vols in
  mapi (fun count i => {| VolBin.range := min + INR i * binSize;
                          VolBin.count := count;
                          VolBin.percentage :=
                            (INR count / INR (length vols)) * 100 |})
       bins.

(** ** Feature importance *)

(** The loop of [correlate], carrying [num], [denX] and [denY]. *)
Fixpoint correlateLoop (x y : list R) (meanX meanY : R) (indexes : list nat)
         (acc : R * R * R) : R * R * R :=
  match indexes with
  | [] => acc
  | i :: rest =>
      let '(num, denX, denY) := acc in
      let dx := nth i x 0 - meanX in
      let dy := nth i y 0 - meanY in
      correlateLoop x y meanX meanY rest
        (num + dx * dy, denX + dx * dx, denY + dy * dy)
  end.

(** [correlate]: the sample correlation of two series over their common
    length, 0 when one of the two sums of squares is 0. *)
Definition correlate (x y : list R) : R :=
  let n := Nat.min (length x) (length y) in
  let meanX := reduce (fun a b => a + b) 0 (slice 0 n x) / INR n in
  let meanY := reduce (fun a b => a + b) 0 (slice 0 n y) / INR n in
  let '(num, denX, denY) :=
    correlateLoop x y meanX meanY (seq 0 n) (0, 0, 0) in
  if Req_dec_T denX 0 then 0
  else if Req_dec_T denY 0 then 0
  else num / Math_sqrt (denX * denY).

(** ** The depth chart *)

Module DepthPoint.
Record t := {
  price : R;
  bidVolume : R;
  cumulativeBid : R;
  askVolume : R;
  cumulativeAsk : R
}.
End DepthPoint.

(** [depthChartData] of the order book view: the bid levels from the
    furthest to the best, then the ask levels from the best to the furthest. *)
Definition depthChartData (currentSnapshot : option LOB.LOBRecord)
  : list DepthPoint.t :=
  match currentSnapshot with
  | None => []
  | Some snapshot =>
      let bidData :=
        mapi (fun level i =>
                {| DepthPoint.price := price level;
                   DepthPoint.bidVolume := size level;
                   DepthPoint.cumulativeBid :=
                     reduce (fun sum l => sum + size l) 0
                            (slice 0 (i + 1) (LOB.bidLevels snapshot));
                   DepthPoint.askVolume := 0;
                   DepthPoint.cumulativeAsk := 0 |})
             (LOB.bidLevels snapshot) in
      let askData :=
        mapi (fun level i =>
                {| DepthPoint.price := price level;
                   DepthPoint.bidVolume := 0;
                   DepthPoint.cumulativeBid := 0;
                   DepthPoint.askVolume := size level;
                   DepthPoint.cumulativeAsk :=
                     reduce (fun sum l => sum + size l) 0
                            (slice 0 (i + 1) (LOB.askLevels snapshot)) |})
             (LOB.askLevels snapshot) in
      rev bidData ++ askData
  end.

(** Whether the actual and the predicted series of the chart move the same
    way at step [i]: both strictly up, or neither. *)
Definition chartAgrees (arimaData : list ArimaDatum.t) (i : nat) : bool :=
  Bool.eqb (risesAt (map ArimaDatum.actual arimaData) i)
           (risesAt (map ArimaDatum.predicted arimaData) i).


(** Two snapshots, with volatilities 0 and 0.0002. *)
Definition twoVolatilities : list LOB.LOBRecord :=
  [noRecord; recordWithPrice 150].

(** What the depth chart of a snapshot shows: ten points, prices in
    ascending order from the furthest bid to the furthest ask, the cumulative
    bid volume reaching the total at the furthest bid and the cumulative ask
    volume at the furthest ask. *)
Definition depthChartSound (r : LOB.LOBRecord) : Prop :=
  let chart := depthChartData (Some r) in
  length chart = 10%nat
  /\ nonDecreasing (map DepthPoint.price chart)
  /\ nth 0 (map DepthPoint.cumulativeBid chart) 0 = LOB.totalBidVolume r
  /\ nth 9 (map DepthPoint.cumulativeAsk chart) 0 = LOB.totalAskVolume r.

(** ** The liquidity heat map *)






Module Heatmap.
Record t := {
  buckets : list (list R);
  maxVol : R;
  minPrice : R;
  maxPrice : R;
  priceStep : R;
  timestamps : list Z
}.
End Heatmap.





(** ** The statistics of a feature *)

Module FeatureStat.
Record t := {
  mean : R;
  std : R;
  min : R;
  max : R
}.
End FeatureStat.

(** [calc] of [featureStats]. *)
Definition calc (arr : list R) : FeatureStat.t :=
  let mean := reduce (fun a b => a + b) 0 arr / INR (length arr) in
  let std :=
    Math_sqrt (reduce (fun s v => s + (v - mean) ^ 2) 0 arr / INR (length arr)) in
  {| FeatureStat.mean := mean;
     FeatureStat.std := std;
     FeatureStat.min := Math_min_of arr;
     FeatureStat.max := Math_max_of arr |}.

(** * Properties *)

(** ** Lists *)

Section ListFacts.
Context {A B : Type}.

Lemma mapi_from_length (f : A -> nat -> B) (l : list A) :
  forall i, length (mapi_from f i l) = length l.
Proof.
  induction l as [|x l IH]; intros i; simpl; [reflexivity | now rewrite IH].
Qed.


(** Reading a list at the indexes [t, t+1, ...] up to its end gives the
    list without its first [t] elements. *)
Lemma map_nth_seq_skipn (l : list A) (d : A) :
  forall t, map (fun i => nth i l d) (seq t (length l - t)) = skipn t l.
Proof.
  induction l as [|x l IH]; intros t.
  - simpl. now destruct t.
  - destruct t as [|t].
    + simpl length. rewrite Nat.sub_0_r. simpl seq. simpl map.
      rewrite <- seq_shift, map_map. simpl skipn. f_equal.
      specialize (IH 0%nat). rewrite Nat.sub_0_r in IH. exact IH.
    + simpl length. simpl Nat.sub. rewrite <- seq_shift, map_map. simpl skipn.
      apply IH.
Qed.
End ListFacts.

(** ** The train/test split *)

(** [Math.floor(m * 0.8)] is the integer quotient of [4 m] by 5. *)
Lemma trainSizeOf_div (prices : list R) :
  trainSizeOf prices = (4 * length prices / 5)%nat.
Proof.
  unfold trainSizeOf.
  set (m := length prices).
  assert (H := Nat.div_mod_eq (4 * m) 5).
  assert (Hr := Nat.mod_upper_bound (4 * m) 5 ltac:(lia)).
  set (q := (4 * m / 5)%nat) in *.
  set (r := ((4 * m) mod 5)%nat) in *.
  rewrite (Zfloor_eq (Z.of_nat q)); [apply Nat2Z.id|].
  rewrite <- INR_IZR_INZ.
  assert (E : 4 * INR m = 5 * INR q + INR r).
  { replace 4 with (INR 4) by (simpl; lra). replace 5 with (INR 5) by (simpl; lra).
    rewrite <- !mult_INR, <- plus_INR. f_equal. lia. }
  assert (0 <= INR r) by apply pos_INR.
  assert (INR r < 5).
  { replace 5 with (INR 5) by (simpl; lra). apply lt_INR. lia. }
  lra.
Qed.

Lemma trainSizeOf_lt (prices : list R) :
  prices <> [] -> (trainSizeOf prices < length prices)%nat.
Proof.
  intros Hne. rewrite trainSizeOf_div.
  destruct prices as [|p ps]; [congruence|].
  apply Nat.Div0.div_lt_upper_bound. simpl length. lia.
Qed.

Lemma trainSizeOf_le (prices : list R) :
  (trainSizeOf prices <= length prices)%nat.
Proof.
  rewrite trainSizeOf_div.
  apply Nat.Div0.div_le_upper_bound. lia.
Qed.

Lemma returnsOf_length (prices : list R) :
  length (returnsOf prices) = (length prices - 1)%nat.
Proof.
  unfold returnsOf, mapi. rewrite mapi_from_length, length_skipn. reflexivity.
Qed.

(** ** The two forecast loops emit one point per index *)

Lemma arimaLoop_length features prices indexes :
  forall history,
    length (arimaLoop features prices indexes history) = length indexes.
Proof.
  induction indexes as [|i rest IH]; intros history; simpl; [reflexivity|].
  now rewrite IH.
Qed.

Lemma garchLoop_length features returns indexes :
  forall condVar,
    length (garchLoop features returns indexes condVar) = length indexes.
Proof.
  induction indexes as [|i rest IH]; intros condVar; simpl; [reflexivity|].
  now rewrite IH.
Qed.

Lemma arimaLoop_actual features prices indexes :
  forall history,
    map Arima.actual (arimaLoop features prices indexes history)
    = map (fun i => nth i prices 0) indexes.
Proof.
  induction indexes as [|i rest IH]; intros history; simpl; [reflexivity|].
  now rewrite IH.
Qed.

Lemma garchLoop_actual features returns indexes :
  forall condVar,
    map Garch.actualVolatility (garchLoop features returns indexes condVar)
    = map (fun i => Math_abs (nth i returns 0)) indexes.
Proof.
  induction indexes as [|i rest IH]; intros condVar; simpl; [reflexivity|].
  now rewrite IH.
Qed.

(** ** Feature extraction: number of feature vectors *)

(** C9. With the lookback fixed at 10, [calculateFeatures] returns exactly
    [length data - 10] feature vectors when [10 < length data]; when
    [length data <= 10] it returns the empty sequence, as an ordinary value. *)
Theorem calculateFeatures_length (data : list LOB.LOBRecord) :
  length (calculateFeatures data)
  = (if (10 <? length data)%nat then length data - 10 else 0)%nat
  /\ ((length data <= 10)%nat -> calculateFeatures data = []).
Proof.
  unfold calculateFeatures. split.
  - rewrite length_map, length_seq.
    destruct (Nat.ltb_spec 10 (length data)); lia.
  - intros Hle. replace (length data - 10)%nat with 0%nat by lia. reflexivity.
Qed.

Lemma calculateFeatures_length_witness :
  length (calculateFeatures [noRecord; noRecord]) = 0%nat
  /\ calculateFeatures [noRecord; noRecord] = [].
Proof.
  split.
  - exact (proj1 (calculateFeatures_length [noRecord; noRecord])).
  - apply (proj2 (calculateFeatures_length [noRecord; noRecord])). simpl. lia.
Defined.

(** ** Analysis: what is returned, and how much of it *)

(** C10. For a non-empty feature sequence of length [m], with
    [trainSize = floor(0.8 m)], the analysis returns [m - trainSize] price
    forecast points and [m - 1 - trainSize] volatility forecast points, one
    fewer; the two metric records are computed over streams of different
    lengths. *)
Theorem analysis_stream_lengths (features : list Feature.FeatureRecord) :
  features <> [] ->
  let r := runTimeSeriesAnalysis features in
  let m := length features in
  let trainSize := trainSizeOf (pricesOf features) in
  trainSize = (4 * m / 5)%nat /\
  (trainSize < m)%nat /\
  length (arimaResults r) = (m - trainSize)%nat /\
  length (garchResults r) = (m - 1 - trainSize)%nat /\
  length (arimaResults r) = S (length (garchResults r)) /\
  metrics_arima r
  = calcMetrics (map Arima.actual (arimaResults r))
                (map Arima.predicted (arimaResults r)) /\
  metrics_garch r
  = calcMetrics (map Garch.actualVolatility (garchResults r))
                (map Garch.forecastVolatility (garchResults r)) /\
  length (map Arima.actual (arimaResults r))
  <> length (map Garch.actualVolatility (garchResults r)).
Proof.
  intros Hne r m trainSize.
  assert (Hm : length (pricesOf features) = m) by apply length_map.
  assert (Hlt : (trainSize < m)%nat).
  { subst trainSize. rewrite <- Hm. apply trainSizeOf_lt.
    unfold pricesOf. destruct features; [congruence | discriminate]. }
  assert (Ha : length (arimaResults r) = (m - trainSize)%nat).
  { subst r. unfold runTimeSeriesAnalysis. simpl arimaResults.
    rewrite arimaLoop_length, length_seq, Hm. reflexivity. }
  assert (Hg : length (garchResults r) = (m - 1 - trainSize)%nat).
  { subst r. unfold runTimeSeriesAnalysis. simpl garchResults.
    rewrite garchLoop_length, length_seq, returnsOf_length, Hm. reflexivity. }
  repeat split; try assumption.
  - subst trainSize. rewrite trainSizeOf_div, Hm. reflexivity.
  - lia.
  - rewrite !length_map. lia.
Qed.

Lemma analysis_stream_lengths_witness :
  length (arimaResults (runTimeSeriesAnalysis shortFeatures)) = 1%nat
  /\ length (garchResults (runTimeSeriesAnalysis shortFeatures)) = 0%nat.
Proof.
  assert (Hne : shortFeatures <> []) by discriminate.
  destruct (analysis_stream_lengths shortFeatures Hne)
    as (Ht & _ & Ha & Hg & _).
  rewrite Ha, Hg, Ht. split; reflexivity.
Defined.

(** C7, as the specification states it, fails: with five features the
    training region holds four mid prices, fewer than the ten the
    specification asks for, and the analysis still returns a price forecast
    stream, with one point. *)
Lemma short_training_still_forecasts :
  (trainSizeOf (pricesOf shortFeatures) < 10)%nat
  /\ map Arima.actual (arimaResults (runTimeSeriesAnalysis shortFeatures)) = [154]
  /\ map Arima.predicted (arimaResults (runTimeSeriesAnalysis shortFeatures))
     = [153 + 3 / 9 * 0.7].
Proof.
  assert (Ht : trainSizeOf (pricesOf shortFeatures) = 4%nat).
  { rewrite trainSizeOf_div. reflexivity. }
  unfold runTimeSeriesAnalysis. cbn [arimaResults]. rewrite Ht.
  split; [lia|].
  unfold slice. simpl. split; [reflexivity|].
  unfold predictFrom, slice_last, reducei. simpl. f_equal. lra.
Qed.

(** C7, amended. The analysis has no error outcome: for every feature
    sequence, whatever the sizes of the training and test regions (the empty
    sequence and training regions of fewer than ten prices included), it
    returns both forecast streams; the price stream carries the mid prices of
    the test region as its actual values, and the volatility stream the
    absolute values of the returns of the test region. *)
Theorem analysis_always_returns_streams (features : list Feature.FeatureRecord) :
  let r := runTimeSeriesAnalysis features in
  let prices := pricesOf features in
  map Arima.actual (arimaResults r) = skipn (trainSizeOf prices) prices
  /\ map Garch.actualVolatility (garchResults r)
     = map Math_abs (skipn (trainSizeOf prices) (returnsOf prices)).
Proof.
  intros r prices. subst r. unfold runTimeSeriesAnalysis.
  cbn [arimaResults garchResults]. fold prices. split.
  - rewrite arimaLoop_actual. apply map_nth_seq_skipn.
  - rewrite garchLoop_actual.
    rewrite <- (map_nth_seq_skipn (returnsOf prices) 0), map_map. reflexivity.
Qed.

(** ** Computations that read the random source *)

Lemma Forall_skipn' {A} (P : A -> Prop) (n : nat) :
  forall l, Forall P l -> Forall P (skipn n l).
Proof.
  induction n as [|n IH]; intros l Hl; [exact Hl|].
  destruct l as [|x l]; [constructor|]. simpl. apply IH. now inversion Hl.
Qed.

Lemma bind_Some_inv {A B} (m : M A) (k : A -> M B) (s : source) (r : B * source) :
  bind m k s = Some r ->
  exists a s', m s = Some (a, s') /\ k a s' = Some r.
Proof.
  unfold bind. destruct (m s) as [[a s']|]; [|discriminate].
  intros H. now exists a, s'.
Qed.

Lemma bind_Some {A B} (m : M A) (k : A -> M B) (s s' : source) (a : A) :
  m s = Some (a, s') -> bind m k s = k a s'.
Proof. unfold bind. now intros ->. Qed.

Lemma reads_ret {A} (a : A) : reads 0 (ret a).
Proof. intros src _ _. now exists a. Qed.

Lemma reads_bind {A B} (j k : nat) (m : M A) (f : A -> M B) :
  reads j m -> (forall a, reads k (f a)) -> reads (j + k) (bind m f).
Proof.
  intros Hm Hf src Hnz Hlen.
  destruct (Hm src Hnz ltac:(lia)) as [a Ha].
  destruct (Hf a (skipn j src)) as [b Hb].
  - now apply Forall_skipn'.
  - rewrite length_skipn. lia.
  - exists b. rewrite (bind_Some _ _ _ _ _ Ha), Hb, skipn_skipn.
    now rewrite Nat.add_comm.
Qed.

Lemma reads_Math_random : reads 1 Math_random.
Proof.
  intros [|u s] _ Hlen; simpl in *; [lia|]. now exists u.
Qed.

Lemma reads_drawNonZero : reads 1 drawNonZero.
Proof.
  intros [|u s] Hnz Hlen; simpl in *; [lia|].
  inversion Hnz; subst. destruct (Req_dec_T u 0); [contradiction|]. now exists u.
Qed.

Lemma reads_gaussianRandom : reads 2 gaussianRandom.
Proof.
  unfold gaussianRandom.
  apply (reads_bind 1 1); [apply reads_drawNonZero|]. intros u.
  apply (reads_bind 1 0); [apply reads_drawNonZero|]. intros v.
  apply reads_ret.
Qed.

Ltac reads_step :=
  lazymatch goal with
  | |- reads _ (bind gaussianRandom _) =>
      apply (reads_bind 2); [apply reads_gaussianRandom | intros ?]
  | |- reads _ (bind Math_random _) =>
      apply (reads_bind 1); [apply reads_Math_random | intros ?]
  | |- reads _ (ret _) => apply reads_ret
  | |- reads _ (let '(_, _) := ?p in _) => destruct p
  end.

Lemma reads_generateLevels levels currentPrice spread imbalance :
  reads (6 * length levels) (generateLevels levels currentPrice spread imbalance).
Proof.
  induction levels as [|level rest IH]; simpl generateLevels.
  - apply reads_ret.
  - replace (6 * length (level :: rest))%nat
      with (2 + (1 + (2 + (1 + (6 * length rest + 0)))))%nat by (simpl; lia).
    do 4 reads_step.
    apply reads_bind; [exact IH|]. intros [bids asks]. apply reads_ret.
Qed.

Lemma reads_tick i st : reads 38 (tick i st).
Proof.
  unfold tick.
  change 38%nat with (2 + (2 + (2 + (6 * length (seq 0 5) + (1 + (1 + 0))))))%nat.
  do 3 reads_step.
  apply reads_bind; [apply reads_generateLevels|]. intros [bids asks].
  do 3 reads_step.
Qed.

Lemma reads_ticksFrom count : forall i st, reads (38 * count) (ticksFrom count i st).
Proof.
  induction count as [|count IH]; intros i st; simpl ticksFrom.
  - rewrite Nat.mul_0_r. apply reads_ret.
  - replace (38 * S count)%nat with (38 + (38 * count + 0))%nat by lia.
    apply reads_bind; [apply reads_tick|]. intros [record st'].
    apply reads_bind; [apply IH|]. intros rest. apply reads_ret.
Qed.

(** ** What one tick computes *)

Ltac invert_bind H :=
  let a := fresh "a" in
  let s := fresh "src" in
  let Ha := fresh "Hread" in
  apply bind_Some_inv in H; destruct H as (a & s & Ha & H).

Lemma ret_Some_inv {A} (a b : A) (s s' : source) :
  ret a s = Some (b, s') -> a = b /\ s = s'.
Proof. unfold ret. intros H. now inversion H. Qed.

Lemma generateLevels_inv levels p s imb :
  forall src bids asks rest,
    generateLevels levels p s imb src = Some ((bids, asks), rest) ->
    map price bids = map (bidPriceOf p s) levels
    /\ map price asks = map (askPriceOf p s) levels
    /\ Forall (fun l => 100 <= size l) bids
    /\ Forall (fun l => 100 <= size l) asks.
Proof.
  induction levels as [|level levels IH]; intros src bids asks rest H;
    simpl generateLevels in H.
  - apply ret_Some_inv in H. destruct H as [H _]. inversion H; subst.
    repeat split; constructor.
  - do 5 invert_bind H. destruct a3 as [bids' asks'].
    apply ret_Some_inv in H. destruct H as [H _]. inversion H; subst.
    destruct (IH _ _ _ _ Hread3) as (Hb & Ha & Sb & Sa).
    simpl map. rewrite Hb, Ha.
    repeat split; try reflexivity; constructor; try assumption;
      simpl; apply Rmax_l.
Qed.

Lemma tick_inv i st src record st' rest :
  tick i st src = Some ((record, st'), rest) ->
  exists shock zPrice zImbalance src1 src2 src3 src4,
    gaussianRandom src = Some (shock, src1)
    /\ gaussianRandom src1 = Some (zPrice, src2)
    /\ gaussianRandom src2 = Some (zImbalance, src3)
    /\ let vol' := nextVolatility (currentVolatility st) shock in
       let price' := nextPrice (currentPrice st) vol' zPrice in
       generateLevels (seq 0 5) price' (spreadOf vol') (imbalanceOf i zImbalance) src3
       = Some ((LOB.bidLevels record, LOB.askLevels record), src4)
       /\ st' = {| currentPrice := price'; currentVolatility := vol' |}
       /\ LOB.midPrice record = Math_round (price' * 10000) / 10000
       /\ LOB.spread record = Math_round (spreadOf vol' * 10000) / 10000
       /\ LOB.orderImbalance record
          = Math_round (imbalanceOf i zImbalance * 10000) / 10000
       /\ LOB.volatility record = Math_round (vol' * 1000000) / 1000000.
Proof.
  intros H. unfold tick in H.
  do 4 invert_bind H. destruct a2 as [bids asks]. do 2 invert_bind H.
  apply ret_Some_inv in H. destruct H as [H _]. inversion H; subst; clear H.
  exists a, a0, a1, src0, src1, src2, src3. cbn [LOB.bidLevels LOB.askLevels
    LOB.midPrice LOB.spread LOB.orderImbalance LOB.volatility].
  repeat split; assumption.
Qed.

(** ** Box-Muller on given uniform values *)

Lemma drawNonZero_cons (u : R) (s : source) :
  u <> 0 -> drawNonZero (u :: s) = Some (u, s).
Proof. intros Hu. simpl. destruct (Req_dec_T u 0); [contradiction | reflexivity]. Qed.

Lemma gaussianRandom_cons (u v : R) (s : source) :
  u <> 0 -> v <> 0 ->
  gaussianRandom (u :: v :: s)
  = Some (Math_sqrt (-2.0 * Math_log u) * Math_cos (2.0 * Math_PI * v), s).
Proof.
  intros Hu Hv. unfold gaussianRandom.
  rewrite (bind_Some _ _ _ _ _ (drawNonZero_cons u _ Hu)).
  rewrite (bind_Some _ _ _ _ _ (drawNonZero_cons v _ Hv)).
  reflexivity.
Qed.

(** With [v = 1/4] the cosine factor is [cos (PI / 2) = 0]. *)
Lemma gaussianRandom_quarter (u : R) (s : source) :
  u <> 0 -> gaussianRandom (u :: 1/4 :: s) = Some (0, s).
Proof.
  intros Hu. rewrite gaussianRandom_cons by lra.
  unfold Math_cos, Math_PI.
  replace (2.0 * PI * (1 / 4)) with (PI / 2) by lra.
  rewrite cos_PI2, Rmult_0_r. reflexivity.
Qed.

Lemma boxMuller_quarter_half_neg :
  Math_sqrt (-2.0 * Math_log (1/4)) * Math_cos (2.0 * Math_PI * (1/2)) < 0.
Proof.
  unfold Math_sqrt, Math_log, Math_cos, Math_PI.
  replace (2.0 * PI * (1 / 2)) with PI by lra. rewrite cos_PI.
  assert (Hln : ln (1/4) < 0).
  { rewrite <- ln_1. apply ln_increasing; lra. }
  assert (0 < sqrt (-2.0 * ln (1/4))) by (apply sqrt_lt_R0; lra).
  lra.
Qed.

Lemma Forall_nonzero_priceDrawSource : Forall (fun u => u <> 0) priceDrawSource.
Proof.
  unfold priceDrawSource. apply Forall_app. split.
  - repeat constructor; lra.
  - apply Forall_forall. intros x Hx. apply repeat_spec in Hx. lra.
Qed.

(** ** The draw behind the price change *)

(** C1, amended. In every tick the volatility is updated from the first
    normal draw of the tick (the shock), and the price change is computed
    from a second normal draw, consumed after the volatility update: the new
    price is [max(price + z * volatility * price, 1.0)], where [z] is the
    draw that follows the shock and [volatility] is the updated one. *)
Theorem tick_price_uses_second_draw i st src record st' rest :
  tick i st src = Some ((record, st'), rest) ->
  exists shock zPrice src1 src2,
    gaussianRandom src = Some (shock, src1)
    /\ gaussianRandom src1 = Some (zPrice, src2)
    /\ currentVolatility st'
       = volatilityPersistence * currentVolatility st
         + (1 - volatilityPersistence) * volatility * Math_abs shock
    /\ currentPrice st'
       = Math_max (currentPrice st
                   + zPrice * currentVolatility st' * currentPrice st) 1.0.
Proof.
  intros H. apply tick_inv in H.
  destruct H as (shock & zPrice & zImb & src1 & src2 & src3 & src4
                 & H1 & H2 & _ & _ & Hst & _).
  exists shock, zPrice, src1, src2. subst st'. cbn [currentVolatility currentPrice].
  repeat split; assumption.
Qed.

Lemma tick_price_uses_second_draw_witness :
  exists record st' rest,
    tick 0 initialState priceDrawSource = Some ((record, st'), rest)
    /\ exists shock zPrice src1 src2,
        gaussianRandom priceDrawSource = Some (shock, src1)
        /\ gaussianRandom src1 = Some (zPrice, src2)
        /\ currentVolatility st'
           = volatilityPersistence * currentVolatility initialState
             + (1 - volatilityPersistence) * volatility * Math_abs shock
        /\ currentPrice st'
           = Math_max (currentPrice initialState
                       + zPrice * currentVolatility st'
                         * currentPrice initialState) 1.0.
Proof.
  destruct (reads_tick 0 initialState priceDrawSource
              Forall_nonzero_priceDrawSource) as [[record st'] Htick].
  { simpl. lia. }
  exists record, st', (skipn 38 priceDrawSource).
  split; [exact Htick|].
  exact (tick_price_uses_second_draw 0 initialState priceDrawSource
           record st' (skipn 38 priceDrawSource) Htick).
Defined.

(** C1, as the specification states it, fails. On [priceDrawSource] the
    shock of the first tick is 0, so the price the specification computes
    from the shock is the old price, 150; the program draws again, gets a
    negative value, and the price goes down. *)
Lemma tick_price_not_from_shock :
  exists record st' rest,
    gaussianRandom priceDrawSource = Some (0, skipn 2 priceDrawSource)
    /\ tick 0 initialState priceDrawSource = Some ((record, st'), rest)
    /\ currentPrice st'
       <> Math_max (currentPrice initialState
                    + 0 * currentVolatility st' * currentPrice initialState) 1.0.
Proof.
  destruct (reads_tick 0 initialState priceDrawSource
              Forall_nonzero_priceDrawSource) as [[record st'] Htick].
  { simpl. lia. }
  exists record, st', (skipn 38 priceDrawSource).
  split; [apply gaussianRandom_quarter; lra|]. split; [exact Htick|].
  apply tick_inv in Htick.
  destruct Htick as (shock & zPrice & zImb & src1 & src2 & src3 & src4
                     & H1 & H2 & _ & _ & Hst & _).
  unfold priceDrawSource in H1. simpl app in H1.
  rewrite gaussianRandom_quarter in H1 by lra. inversion H1; subst shock src1.
  rewrite gaussianRandom_cons in H2 by lra. inversion H2; subst zPrice src2.
  subst st'. cbn [currentPrice currentVolatility initialState].
  assert (Hz := boxMuller_quarter_half_neg).
  set (z := Math_sqrt (-2.0 * Math_log (1/4)) * Math_cos (2.0 * Math_PI * (1/2))) in *.
  unfold nextPrice, nextVolatility, Math_max, Math_abs, basePrice, volatility,
    volatilityPersistence.
  rewrite Rabs_R0.
  rewrite (Rmax_left (150.0 + 0 * _ * 150.0)) by lra.
  assert (z * (0.95 * 0.0002 + (1 - 0.95) * 0.0002 * 0) * 150.0 < 0) by nra.
  unfold Rmax. destruct (Rle_dec _ _); lra.
Qed.

(** The tick loop returns one snapshot per iteration. *)
Lemma ticksFrom_length count :
  forall i st src records rest,
    ticksFrom count i st src = Some (records, rest) -> length records = count.
Proof.
  induction count as [|count IH]; intros i st src records rest H;
    simpl ticksFrom in H.
  - apply ret_Some_inv in H. destruct H as [<- _]. reflexivity.
  - invert_bind H. destruct a as [record st']. invert_bind H.
    apply ret_Some_inv in H. destruct H as [<- _]. simpl.
    f_equal. eapply IH. exact Hread0.
Qed.

(** ** The generator has no error outcome *)

(** C6, as the specification states it, fails: called with 0 (or a negative
    number of records) the generator returns the empty snapshot sequence. *)
Lemma generateLOBData_zero_records_returns_empty :
  generateLOBData 0 [] = Some ([], [])
  /\ generateLOBData (-3) priceDrawSource = Some ([], priceDrawSource).
Proof. split; reflexivity. Qed.

(** C6, amended. The generator has no [InvalidConfig] outcome (its base
    volatility and base spread are constants, not arguments). Called with
    [numRecords < 1] it returns the empty snapshot sequence and reads nothing
    from the random source. Called with [numRecords >= 1] and a source that
    never returns 0, it returns [numRecords] snapshots after reading 38
    uniform values per snapshot. *)
Theorem generateLOBData_no_InvalidConfig (numRecords : Z) (src : source) :
  ((numRecords < 1)%Z -> generateLOBData numRecords src = Some ([], src))
  /\ ((1 <= numRecords)%Z ->
      Forall (fun u => u <> 0) src ->
      (38 * Z.to_nat numRecords <= length src)%nat ->
      exists records,
        generateLOBData numRecords src
        = Some (records, skipn (38 * Z.to_nat numRecords) src)
        /\ length records = Z.to_nat numRecords).
Proof.
  unfold generateLOBData. split.
  - intros Hn. replace (Z.to_nat numRecords) with 0%nat by lia. reflexivity.
  - intros _ Hnz Hlen.
    destruct (reads_ticksFrom (Z.to_nat numRecords) 0 initialState src Hnz Hlen)
      as [records Hrun].
    exists records. split; [exact Hrun|].
    eapply ticksFrom_length. exact Hrun.
Qed.

Lemma generateLOBData_no_InvalidConfig_witness :
  generateLOBData 0 priceDrawSource = Some ([], priceDrawSource)
  /\ exists records,
      generateLOBData 1 priceDrawSource
      = Some (records, skipn (38 * Z.to_nat 1) priceDrawSource)
      /\ length records = Z.to_nat 1.
Proof.
  split.
  - apply (proj1 (generateLOBData_no_InvalidConfig 0 priceDrawSource)). lia.
  - apply (proj2 (generateLOBData_no_InvalidConfig 1 priceDrawSource)).
    + lia.
    + exact Forall_nonzero_priceDrawSource.
    + simpl. lia.
Defined.

(** ** Rounding *)

Lemma Math_round_le (x y : R) : x <= y -> Math_round x <= Math_round y.
Proof.
  intros H. unfold Math_round, Math_floor. apply IZR_le, Zfloor_le. lra.
Qed.

Lemma Math_round_IZR (k : Z) : Math_round (IZR k) = IZR k.
Proof.
  unfold Math_round, Math_floor. f_equal. apply Zfloor_eq. lra.
Qed.

Lemma Math_round_eq (k : Z) (x : R) :
  IZR k - / 2 <= x < IZR k + / 2 -> Math_round x = IZR k.
Proof.
  intros H. unfold Math_round, Math_floor. f_equal. apply Zfloor_eq. lra.
Qed.

(** Two values at least 1 apart round to different integers. *)
Lemma Math_round_gap (x y : R) : x + 1 <= y -> Math_round x + 1 <= Math_round y.
Proof.
  intros H. unfold Math_round, Math_floor.
  rewrite <- plus_IZR. apply IZR_le, Zfloor_lub. rewrite plus_IZR.
  assert (B := Zfloor_bound (x + / 2)). lra.
Qed.

(** What is within half a unit of the rounded value. *)
Lemma Math_round_bound (x : R) : x - / 2 < Math_round x <= x + / 2.
Proof.
  unfold Math_round, Math_floor. assert (B := Zfloor_bound (x + / 2)). lra.
Qed.

(** ** Level prices *)

Lemma levelOffsetOf_diff (spread : R) (j k : nat) :
  levelOffsetOf spread k - levelOffsetOf spread j
  = (INR k - INR j) * spread * 0.5.
Proof. unfold levelOffsetOf. lra. Qed.

Lemma INR_gap (j k : nat) : (j < k)%nat -> INR j + 1 <= INR k.
Proof.
  intros H. rewrite <- S_INR. apply le_INR. lia.
Qed.

Lemma bidPriceOf_le p spread j k :
  0 <= spread -> (j < k)%nat -> bidPriceOf p spread k <= bidPriceOf p spread j.
Proof.
  intros Hs Hjk. unfold bidPriceOf.
  assert (D := levelOffsetOf_diff spread j k). assert (G := INR_gap j k Hjk).
  assert (Math_round ((p - levelOffsetOf spread k) * 100)
          <= Math_round ((p - levelOffsetOf spread j) * 100)).
  { apply Math_round_le. nra. }
  lra.
Qed.

Lemma askPriceOf_le p spread j k :
  0 <= spread -> (j < k)%nat -> askPriceOf p spread j <= askPriceOf p spread k.
Proof.
  intros Hs Hjk. unfold askPriceOf.
  assert (D := levelOffsetOf_diff spread j k). assert (G := INR_gap j k Hjk).
  assert (Math_round ((p + levelOffsetOf spread j) * 100)
          <= Math_round ((p + levelOffsetOf spread k) * 100)).
  { apply Math_round_le. nra. }
  lra.
Qed.

Lemma bidPriceOf_lt p spread j k :
  0.02 <= spread -> (j < k)%nat -> bidPriceOf p spread k < bidPriceOf p spread j.
Proof.
  intros Hs Hjk. unfold bidPriceOf.
  assert (D := levelOffsetOf_diff spread j k). assert (G := INR_gap j k Hjk).
  assert (Math_round ((p - levelOffsetOf spread k) * 100) + 1
          <= Math_round ((p - levelOffsetOf spread j) * 100)).
  { apply Math_round_gap. nra. }
  lra.
Qed.

Lemma askPriceOf_lt p spread j k :
  0.02 <= spread -> (j < k)%nat -> askPriceOf p spread j < askPriceOf p spread k.
Proof.
  intros Hs Hjk. unfold askPriceOf.
  assert (D := levelOffsetOf_diff spread j k). assert (G := INR_gap j k Hjk).
  assert (Math_round ((p + levelOffsetOf spread j) * 100) + 1
          <= Math_round ((p + levelOffsetOf spread k) * 100)).
  { apply Math_round_gap. nra. }
  lra.
Qed.

(** Reading the prices of levels built over [seq 0 n]. *)
Lemma nth_level_price (f : nat -> R) (levels : list OrderLevel) (n k : nat) :
  map price levels = map f (seq 0 n) -> (k < n)%nat ->
  nth k (map price levels) 0 = f k.
Proof.
  intros -> Hk.
  rewrite (nth_indep _ 0 (f 0%nat)) by (rewrite length_map, length_seq; exact Hk).
  rewrite map_nth, seq_nth by exact Hk. reflexivity.
Qed.

(** ** The invariants of the generated snapshots *)

(** A rounded value above an integer is above it by at least 1. *)
Lemma Math_round_above (k : Z) (x : R) :
  IZR k < Math_round x -> IZR k + 1 <= Math_round x.
Proof.
  unfold Math_round, Math_floor. intros H. apply lt_IZR in H.
  rewrite <- plus_IZR. apply IZR_le. lia.
Qed.

Lemma nextVolatility_nonneg (v shock : R) : 0 <= v -> 0 <= nextVolatility v shock.
Proof.
  intros Hv. unfold nextVolatility, volatilityPersistence, volatility, Math_abs.
  assert (H := Rabs_pos shock). nra.
Qed.

Lemma spreadOf_lower (v : R) : 0 <= v -> 0.01 <= spreadOf v.
Proof.
  intros Hv. unfold spreadOf, spreadBase, volatility.
  replace (v / 0.0002) with (v * 5000) by lra. nra.
Qed.

Lemma nextPrice_lower (p v z : R) : 1 <= nextPrice p v z.
Proof. unfold nextPrice, Math_max. replace 1 with 1.0 at 1 by lra. apply Rmax_r. Qed.

Lemma imbalanceOf_range (i : nat) (z : R) : -0.8 <= imbalanceOf i z <= 0.8.
Proof.
  unfold imbalanceOf, Math_max, Math_min. split.
  - apply Rmax_l.
  - apply Rmax_lub; [lra | apply Rmin_l].
Qed.

Lemma tick_keptInvariants i st src record st' rest :
  0 <= currentVolatility st ->
  tick i st src = Some ((record, st'), rest) ->
  keptInvariants record /\ 0 <= currentVolatility st'.
Proof.
  intros Hv H. apply tick_inv in H.
  destruct H as (shock & zPrice & zImb & src1 & src2 & src3 & src4
                 & _ & _ & _ & Hlev & Hst & Hmid & Hspread & Himb & _).
  set (vol' := nextVolatility (currentVolatility st) shock) in *.
  set (price' := nextPrice (currentPrice st) vol' zPrice) in *.
  assert (Hvol' : 0 <= vol') by (apply nextVolatility_nonneg; exact Hv).
  assert (Hs : 0.01 <= spreadOf vol') by (apply spreadOf_lower; exact Hvol').
  apply generateLevels_inv in Hlev. destruct Hlev as (Hb & Ha & Sb & Sa).
  assert (Lb : length (LOB.bidLevels record) = 5%nat).
  { rewrite <- (length_map price), Hb, length_map. reflexivity. }
  assert (La : length (LOB.askLevels record) = 5%nat).
  { rewrite <- (length_map price), Ha, length_map. reflexivity. }
  split; [|subst st'; exact Hvol'].
  unfold keptInvariants. repeat match goal with |- _ /\ _ => split end;
    try assumption.
  - rewrite Hmid. assert (P := nextPrice_lower (currentPrice st) vol' zPrice).
    fold price' in P.
    assert (Math_round (IZR 10000) <= Math_round (price' * 10000))
      by (apply Math_round_le; lra).
    rewrite Math_round_IZR in *. lra.
  - intros j k Hjk. rewrite length_map, Lb in Hjk.
    rewrite !(nth_level_price _ _ 5 _ Hb) by lia.
    apply bidPriceOf_le; [lra | lia].
  - intros j k Hjk. rewrite length_map, La in Hjk.
    rewrite !(nth_level_price _ _ 5 _ Ha) by lia.
    apply askPriceOf_le; [lra | lia].
  - intros Hwide. rewrite Hspread in Hwide.
    assert (Hr : IZR 200 < Math_round (spreadOf vol' * 10000)) by lra.
    apply Math_round_above in Hr.
    assert (B := Math_round_bound (spreadOf vol' * 10000)).
    assert (Hs2 : 0.02 <= spreadOf vol') by lra.
    split.
    + intros j k Hjk. rewrite length_map, Lb in Hjk.
      rewrite !(nth_level_price _ _ 5 _ Hb) by lia.
      apply bidPriceOf_lt; [exact Hs2 | lia].
    + intros j k Hjk. rewrite length_map, La in Hjk.
      rewrite !(nth_level_price _ _ 5 _ Ha) by lia.
      apply askPriceOf_lt; [exact Hs2 | lia].
  - rewrite Hspread.
    assert (Math_round (IZR 100) <= Math_round (spreadOf vol' * 10000))
      by (apply Math_round_le; lra).
    rewrite Math_round_IZR in *. lra.
  - rewrite Himb. assert (R := imbalanceOf_range i zImb).
    assert (Math_round (IZR (-8000)) <= Math_round (imbalanceOf i zImb * 10000))
      by (apply Math_round_le; lra).
    rewrite Math_round_IZR in *. lra.
  - rewrite Himb. assert (R := imbalanceOf_range i zImb).
    assert (Math_round (imbalanceOf i zImb * 10000) <= Math_round (IZR 8000))
      by (apply Math_round_le; lra).
    rewrite Math_round_IZR in *. lra.
Qed.

Lemma ticksFrom_keptInvariants count :
  forall i st src records rest,
    0 <= currentVolatility st ->
    ticksFrom count i st src = Some (records, rest) ->
    Forall keptInvariants records.
Proof.
  induction count as [|count IH]; intros i st src records rest Hv H;
    simpl ticksFrom in H.
  - apply ret_Some_inv in H. destruct H as [<- _]. constructor.
  - invert_bind H. destruct a as [record st']. invert_bind H.
    apply ret_Some_inv in H. destruct H as [<- _].
    destruct (tick_keptInvariants _ _ _ _ _ _ Hv Hread) as [Hk Hv'].
    constructor; [exact Hk|]. eapply IH; eassumption.
Qed.

(** ** A quiet market: the source that always returns 1/4 *)

Lemma skipn_repeat' {A} (x : A) (k : nat) :
  forall n, skipn k (repeat x n) = repeat x (n - k).
Proof.
  induction k as [|k IH]; intros n.
  - now rewrite Nat.sub_0_r.
  - destruct n as [|n]; [reflexivity|]. simpl. apply IH.
Qed.

Lemma Forall_nonzero_quarterSource (n : nat) :
  Forall (fun u => u <> 0) (quarterSource n).
Proof.
  apply Forall_forall. intros x Hx. apply repeat_spec in Hx. lra.
Qed.

Lemma gaussianRandom_quarterSource (n : nat) (z : R) (rest : source) :
  gaussianRandom (quarterSource n) = Some (z, rest) ->
  z = 0 /\ rest = quarterSource (n - 2).
Proof.
  destruct n as [|[|n]]; unfold quarterSource; simpl repeat.
  - discriminate.
  - unfold gaussianRandom.
    assert (Hq : 1 / 4 <> 0) by lra.
    rewrite (bind_Some _ _ _ _ _ (drawNonZero_cons (1 / 4) [] Hq)).
    discriminate.
  - rewrite gaussianRandom_quarter by lra. intros H. inversion H.
    split; [reflexivity|]. simpl. now rewrite Nat.sub_0_r.
Qed.

(** On the constant source a tick is a quiet step of the state, and the bid
    prices of its snapshot are those of the new state. *)
Lemma tick_quarterSource i st n record st' rest :
  (38 <= n)%nat ->
  tick i st (quarterSource n) = Some ((record, st'), rest) ->
  st' = quietStep st
  /\ rest = quarterSource (n - 38)
  /\ map price (LOB.bidLevels record)
     = map (bidPriceOf (currentPrice st') (spreadOf (currentVolatility st')))
           (seq 0 5).
Proof.
  intros Hn H.
  assert (Hrest : rest = quarterSource (n - 38)).
  { destruct (reads_tick i st (quarterSource n) (Forall_nonzero_quarterSource n))
      as [a Ha].
    - unfold quarterSource. rewrite repeat_length. exact Hn.
    - rewrite H in Ha.
      assert (E : skipn 38 (quarterSource n) = quarterSource (n - 38))
        by apply skipn_repeat'.
      rewrite E in Ha. now inversion Ha. }
  apply tick_inv in H.
  destruct H as (shock & zPrice & zImb & src1 & src2 & src3 & src4
                 & H1 & H2 & _ & Hlev & Hst & _).
  apply gaussianRandom_quarterSource in H1. destruct H1 as [-> ->].
  apply gaussianRandom_quarterSource in H2. destruct H2 as [-> ->].
  apply generateLevels_inv in Hlev. destruct Hlev as (Hb & _).
  subst st'. repeat split; assumption.
Qed.

Lemma ticksFrom_quarterSource count :
  forall i st n records rest,
    (38 * count <= n)%nat ->
    ticksFrom count i st (quarterSource n) = Some (records, rest) ->
    forall j, (j < count)%nat ->
      let st_j := Nat.iter (S j) quietStep st in
      map price (LOB.bidLevels (nth j records noRecord))
      = map (bidPriceOf (currentPrice st_j) (spreadOf (currentVolatility st_j)))
            (seq 0 5).
Proof.
  induction count as [|count IH]; intros i st n records rest Hn H j Hj; [lia|].
  simpl ticksFrom in H.
  invert_bind H. destruct a as [record st']. invert_bind H.
  apply ret_Some_inv in H. destruct H as [<- _].
  apply tick_quarterSource in Hread; [|lia].
  destruct Hread as (-> & -> & Hb).
  destruct j as [|j].
  - exact Hb.
  - cbn [nth]. cbn zeta.
    assert (Hn' : (38 * count <= n - 38)%nat) by lia.
    assert (Hj' : (j < count)%nat) by lia.
    rewrite (IH _ _ _ _ _ Hn' Hread0 j Hj'). cbn zeta.
    rewrite <- Nat.iter_succ_r. reflexivity.
Qed.

Lemma quietStep_iter (k : nat) :
  Nat.iter k quietStep initialState
  = {| currentPrice := 150; currentVolatility := 0.0002 * 0.95 ^ k |}.
Proof.
  induction k as [|k IH].
  - simpl. unfold initialState, basePrice, volatility. f_equal; lra.
  - rewrite Nat.iter_succ, IH. unfold quietStep. cbn [currentPrice currentVolatility].
    unfold nextPrice, nextVolatility, Math_max, Math_abs, volatilityPersistence,
      volatility.
    rewrite Rabs_R0. f_equal; try (simpl pow; lra).
    rewrite Rmax_left by lra. lra.
Qed.

Lemma quiet_bid_prices_tick_17 :
  map (bidPriceOf 150 (spreadOf (0.0002 * 0.95 ^ 18))) (seq 0 5)
  = [149.99; 149.98; 149.97; 149.96; 149.96].
Proof.
  assert (Hs : spreadOf (0.0002 * 0.95 ^ 18) = 0.01 * (1 + 2 * 0.95 ^ 18)).
  { unfold spreadOf, spreadBase, volatility. lra. }
  assert (Hp : 0.397 < 0.95 ^ 18 < 0.398) by lra.
  set (s := spreadOf (0.0002 * 0.95 ^ 18)) in *.
  simpl map. unfold bidPriceOf, levelOffsetOf. simpl INR.
  rewrite (Math_round_eq 14999), (Math_round_eq 14998), (Math_round_eq 14997),
    (Math_round_eq 14996), (Math_round_eq 14996) by lra.
  repeat f_equal; lra.
Qed.

(** C5, as the specification states it, fails. With the source that always
    returns 1/4 every normal draw is 0: the price stays at 150 and the
    volatility decays by the factor 0.95 per tick. At the 18th tick the
    spread is below 0.02, the level offsets are less than a cent apart, and
    after rounding to two decimals the last two bid levels carry the same
    price. *)
Lemma quiet_market_ties_bid_prices :
  exists records,
    generateLOBData 18 (quarterSource 684) = Some (records, [])
    /\ map price (LOB.bidLevels (nth 17 records noRecord))
       = [149.99; 149.98; 149.97; 149.96; 149.96]
    /\ ~ Forall specifiedInvariants records.
Proof.
  destruct (reads_ticksFrom 18 0 initialState (quarterSource 684)
              (Forall_nonzero_quarterSource 684)) as [records Hrun].
  { unfold quarterSource. rewrite repeat_length. lia. }
  assert (E : skipn (38 * 18) (quarterSource 684) = []).
  { unfold quarterSource. rewrite skipn_repeat'. reflexivity. }
  rewrite E in Hrun.
  assert (Hbids : map price (LOB.bidLevels (nth 17 records noRecord))
                  = [149.99; 149.98; 149.97; 149.96; 149.96]).
  { assert (Hn : (38 * 18 <= 684)%nat) by lia.
    assert (Hj : (17 < 18)%nat) by lia.
    rewrite (ticksFrom_quarterSource 18 0 initialState 684 records [] Hn Hrun 17 Hj).
    cbn zeta. rewrite quietStep_iter. cbn [currentPrice currentVolatility].
    exact quiet_bid_prices_tick_17. }
  exists records. split; [exact Hrun|]. split; [exact Hbids|].
  intros Hall.
  assert (Hlen : length records = 18%nat) by (eapply ticksFrom_length; exact Hrun).
  assert (Hin : In (nth 17 records noRecord) records) by (apply nth_In; lia).
  rewrite Forall_forall in Hall. specialize (Hall _ Hin).
  destruct Hall as (_ & _ & _ & _ & _ & Hdec & _).
  rewrite Hbids in Hdec. specialize (Hdec 3%nat 4%nat). simpl in Hdec.
  assert (149.96 < 149.96) by (apply Hdec; lia). lra.
Qed.

(** On the constant source the price does not move: every snapshot has the
    mid price 150. *)
Lemma tick_quarterSource_midPrice i st n record st' rest :
  (38 <= n)%nat ->
  currentPrice st = 150 ->
  tick i st (quarterSource n) = Some ((record, st'), rest) ->
  LOB.midPrice record = 150
  /\ currentPrice st' = 150
  /\ rest = quarterSource (n - 38).
Proof.
  intros Hn Hp H.
  destruct (tick_quarterSource _ _ _ _ _ _ Hn H) as (Hst & Hrest & _).
  apply tick_inv in H.
  destruct H as (shock & zPrice & zImb & src1 & src2 & src3 & src4
                 & H1 & H2 & _ & _ & _ & Hmid & _).
  apply gaussianRandom_quarterSource in H1. destruct H1 as [-> ->].
  apply gaussianRandom_quarterSource in H2. destruct H2 as [-> ->].
  assert (Hnext : forall v, nextPrice (currentPrice st) v 0 = 150).
  { intros v. unfold nextPrice, Math_max. rewrite Hp.
    rewrite Rmax_left by lra. lra. }
  split; [|split; [|exact Hrest]].
  - rewrite Hmid, Hnext.
    replace (150 * 10000) with (IZR 1500000) by lra.
    rewrite Math_round_IZR. lra.
  - rewrite Hst. unfold quietStep. cbn [currentPrice]. apply Hnext.
Qed.

Lemma ticksFrom_quarterSource_midPrice count :
  forall i st n records rest,
    (38 * count <= n)%nat ->
    currentPrice st = 150 ->
    ticksFrom count i st (quarterSource n) = Some (records, rest) ->
    Forall (fun r => LOB.midPrice r = 150) records.
Proof.
  induction count as [|count IH]; intros i st n records rest Hn Hp H;
    simpl ticksFrom in H.
  - apply ret_Some_inv in H. destruct H as [<- _]. constructor.
  - invert_bind H. destruct a as [record st']. invert_bind H.
    apply ret_Some_inv in H. destruct H as [<- _].
    apply tick_quarterSource_midPrice in Hread; [|lia|exact Hp].
    destruct Hread as (Hmid & Hp' & ->).
    constructor; [exact Hmid|].
    assert (Hn' : (38 * count <= n - 38)%nat) by lia.
    exact (IH _ _ _ _ _ Hn' Hp' Hread0).
Qed.

Lemma quiet_records_withinCeiling (numRecords : Z) (n : nat) records rest :
  (38 * Z.to_nat numRecords <= n)%nat ->
  generateLOBData numRecords (quarterSource n) = Some (records, rest) ->
  Forall withinCeiling records.
Proof.
  intros Hn H. unfold generateLOBData in H.
  assert (Hp : currentPrice initialState = 150).
  { unfold initialState, basePrice. cbn [currentPrice]. lra. }
  assert (Hmid := ticksFrom_quarterSource_midPrice _ _ _ _ _ _ Hn Hp H).
  eapply Forall_impl; [|exact Hmid].
  intros r Hr. unfold withinCeiling, priceCeiling. simpl in Hr. rewrite Hr. lra.
Qed.

(** C5, amended. For any number of records and any source, every snapshot the
    generator returns whose mid price is at most [priceCeiling] has a mid
    price of at least 1.0, exactly 5 bid and 5 ask levels, level sizes of at
    least 100, bid prices (as stored) that do not increase with the level
    index and ask prices that do not decrease (strictly decreasing and
    strictly increasing when the stored spread is above 0.02), a positive
    spread, and an order imbalance in [-0.8, 0.8]. With a source of values in
    (0,1) that holds 38 values per record, the generator does return, with one
    snapshot per record asked for. *)
Theorem generated_snapshots_invariants (numRecords : Z) (src : source) :
  (forall records rest,
      generateLOBData numRecords src = Some (records, rest) ->
      length records = Z.to_nat numRecords
      /\ Forall (fun r => withinCeiling r -> keptInvariants r) records)
  /\ (Forall (fun u => 0 < u < 1) src ->
      (38 * Z.to_nat numRecords <= length src)%nat ->
      exists records rest, generateLOBData numRecords src = Some (records, rest)).
Proof.
  unfold generateLOBData. split.
  - intros records rest H. split.
    + eapply ticksFrom_length. exact H.
    + apply Forall_impl with (P := keptInvariants); [intros r K _; exact K|].
      eapply ticksFrom_keptInvariants; [|exact H].
      unfold initialState, volatility. cbn [currentVolatility]. lra.
  - intros Hu Hlen.
    assert (Hnz : Forall (fun u => u <> 0) src).
    { eapply Forall_impl; [|exact Hu]. intros u Hu0. simpl in Hu0. lra. }
    destruct (reads_ticksFrom (Z.to_nat numRecords) 0 initialState src Hnz Hlen)
      as [records Hrun].
    now exists records, (skipn (38 * Z.to_nat numRecords) src).
Qed.

Lemma generated_snapshots_invariants_witness :
  exists records rest,
    generateLOBData 1 (quarterSource 38) = Some (records, rest)
    /\ length records = Z.to_nat 1
    /\ Forall withinCeiling records
    /\ Forall keptInvariants records.
Proof.
  assert (Hu : Forall (fun u => 0 < u < 1) (quarterSource 38)).
  { apply Forall_forall. intros x Hx. apply repeat_spec in Hx. lra. }
  assert (Hlen : (38 * Z.to_nat 1 <= length (quarterSource 38))%nat).
  { simpl. lia. }
  destruct (proj2 (generated_snapshots_invariants 1 (quarterSource 38)) Hu Hlen)
    as (records & rest & Hrun).
  exists records, rest. split; [exact Hrun|].
  assert (Hw : Forall withinCeiling records).
  { apply (quiet_records_withinCeiling 1 38 records rest); [simpl; lia | exact Hrun]. }
  destruct (proj1 (generated_snapshots_invariants 1 (quarterSource 38))
              records rest Hrun) as [Hl Hk].
  split; [exact Hl|]. split; [exact Hw|].
  rewrite Forall_forall in Hw, Hk. apply Forall_forall.
  intros r Hr. exact (Hk r Hr (Hw r Hr)).
Defined.

(** ** Comparisons *)

Lemma gt_true (x y : R) : y < x -> gt x y = true.
Proof. intros H. unfold gt. destruct (Rlt_dec y x); [reflexivity | contradiction]. Qed.

Lemma gt_false (x y : R) : x <= y -> gt x y = false.
Proof. intros H. unfold gt. destruct (Rlt_dec y x); [lra | reflexivity]. Qed.

Lemma lt_true (x y : R) : x < y -> lt x y = true.
Proof. intros H. unfold lt. destruct (Rlt_dec x y); [reflexivity | contradiction]. Qed.

Lemma lt_false (x y : R) : y <= x -> lt x y = false.
Proof. intros H. unfold lt. destruct (Rlt_dec x y); [lra | reflexivity]. Qed.

(** ** Direction accuracy *)

Lemma countCorrectDir_filter (actual predicted : list R) (indexes : list nat) :
  forall correctDir,
    countCorrectDir actual predicted indexes correctDir
    = correctDir
      + countWhere (fun i => Bool.eqb (risesAt actual i) (risesAt predicted i))
                   indexes.
Proof.
  unfold countWhere.
  induction indexes as [|i rest IH]; intros correctDir; simpl.
  - lra.
  - rewrite IH. fold (risesAt actual i). fold (risesAt predicted i).
    destruct (Bool.eqb (risesAt actual i) (risesAt predicted i)).
    + cbn [length]. rewrite S_INR. lra.
    + lra.
Qed.

(** C3, amended. For equal-length streams with [n >= 2], the metrics
    calculator returns
    [directionAccuracy = 100 * count / (n - 1)], where [count] is the number
    of indexes [i] in [1, n) at which the two-valued directions agree: the
    actual series goes strictly up at [i] exactly when the predicted one
    does. A zero change and a fall count as the same direction. *)
Theorem directionAccuracy_two_valued (actual predicted : list R) :
  length predicted = length actual ->
  (2 <= length actual)%nat ->
  directionAccuracy (calcMetrics actual predicted)
  = directionAccuracyByRise actual predicted.
Proof.
  intros _ Hn. unfold calcMetrics, directionAccuracyByRise. cbn [directionAccuracy].
  rewrite countCorrectDir_filter.
  assert (1 < INR (length actual)).
  { replace 1 with (INR 1) by reflexivity. apply lt_INR. lia. }
  field. lra.
Qed.

Lemma directionAccuracy_two_valued_witness :
  directionAccuracy (calcMetrics [1; 1] [2; 1])
  = directionAccuracyByRise [1; 1] [2; 1].
Proof.
  apply directionAccuracy_two_valued.
  - reflexivity.
  - simpl. lia.
Defined.

Lemma sign_zero : sign 0 = 0.
Proof. unfold sign. rewrite gt_false, lt_false by lra. reflexivity. Qed.

Lemma sign_neg (x : R) : x < 0 -> sign x = -1.
Proof. intros H. unfold sign. rewrite gt_false, lt_true by lra. reflexivity. Qed.

Lemma sign_pos (x : R) : 0 < x -> sign x = 1.
Proof. intros H. unfold sign. rewrite gt_true by lra. reflexivity. Qed.

(** C3, as the specification states it, fails: a zero change of the actual
    series against a fall of the predicted one is counted as a match by the
    program and as a mismatch by the three-valued sign. *)
Lemma flat_step_matches_a_fall :
  directionAccuracy (calcMetrics [1; 1] [2; 1]) = 100
  /\ directionAccuracyBySign [1; 1] [2; 1] = 0.
Proof.
  split.
  - unfold calcMetrics. cbn [directionAccuracy]. simpl.
    rewrite !gt_false by lra. simpl. lra.
  - unfold directionAccuracyBySign, countWhere. simpl.
    unfold stepAt. simpl.
    replace (1 - 1) with 0 by lra. replace (1 - 2) with (-1) by lra.
    rewrite sign_zero, sign_neg by lra.
    destruct (Req_dec_T 0 (-1)); [lra|]. simpl. lra.
Qed.

(** ** The direction label of a feature vector *)

Lemma Math_round_pos (x : R) : 0 < Math_round x -> 0 < x.
Proof.
  intros H. destruct (Rle_or_lt x 0) as [Hx|Hx]; [|exact Hx].
  apply Math_round_le in Hx. rewrite (Math_round_IZR 0) in Hx. lra.
Qed.

Lemma Math_round_neg (x : R) : Math_round x < 0 -> x < 0.
Proof.
  intros H. destruct (Rle_or_lt 0 x) as [Hx|Hx]; [|exact Hx].
  apply Math_round_le in Hx. rewrite (Math_round_IZR 0) in Hx. lra.
Qed.

Lemma sign_zero_inv (x : R) : sign x = 0 -> x = 0.
Proof.
  unfold sign, gt, lt.
  destruct (Rlt_dec 0 x); [lra|]. destruct (Rlt_dec x 0); lra.
Qed.

Lemma futureDirection_featureAt (data : list LOB.LOBRecord) (i : nat) :
  let f := featureAt data i in
  Feature.futureDirection f = sign (rawFutureReturn data i)
  /\ Feature.futureReturn f
     = Math_round (rawFutureReturn data i * 100000000) / 100000000
  /\ (0 < Feature.futureReturn f -> Feature.futureDirection f = 1)
  /\ (Feature.futureReturn f < 0 -> Feature.futureDirection f = -1)
  /\ (Feature.futureDirection f = 0 -> Feature.futureReturn f = 0).
Proof.
  cbn zeta. unfold featureAt. cbn [Feature.futureDirection Feature.futureReturn].
  fold (sign (rawFutureReturn data i)).
  set (raw := rawFutureReturn data i).
  split; [reflexivity|]. split; [reflexivity|]. repeat split.
  - intros H. apply sign_pos.
    assert (H' : 0 < Math_round (raw * 100000000)) by lra.
    apply Math_round_pos in H'. lra.
  - intros H. apply sign_neg.
    assert (H' : Math_round (raw * 100000000) < 0) by lra.
    apply Math_round_neg in H'. lra.
  - intros H. apply sign_zero_inv in H. rewrite H, Rmult_0_l.
    rewrite (Math_round_IZR 0). lra.
Qed.

(** C4, amended. For every feature vector the extractor produces,
    [futureDirection] is the three-valued sign of the future return before it
    is rounded to 8 decimals for storage. So [futureDirection] is 1 whenever
    the stored [futureReturn] is positive and -1 whenever it is negative, and
    [futureDirection = 0] only when the stored [futureReturn] is 0. (A stored
    [futureReturn] of 0 does not give a direction of 0.) *)
Theorem futureDirection_is_sign_of_unrounded_return
        (data : list LOB.LOBRecord) (f : Feature.FeatureRecord) :
  In f (calculateFeatures data) ->
  exists i,
    (10 <= i < length data)%nat
    /\ f = featureAt data i
    /\ Feature.futureDirection f = sign (rawFutureReturn data i)
    /\ Feature.futureReturn f
       = Math_round (rawFutureReturn data i * 100000000) / 100000000
    /\ (0 < Feature.futureReturn f -> Feature.futureDirection f = 1)
    /\ (Feature.futureReturn f < 0 -> Feature.futureDirection f = -1)
    /\ (Feature.futureDirection f = 0 -> Feature.futureReturn f = 0).
Proof.
  unfold calculateFeatures. intros Hin. apply in_map_iff in Hin.
  destruct Hin as (i & Hf & Hi). apply in_seq in Hi.
  exists i. split; [lia|]. split; [now symmetry|]. subst f.
  exact (futureDirection_featureAt data i).
Qed.

Lemma calculateFeatures_tinyMoveData :
  calculateFeatures tinyMoveData
  = [featureAt tinyMoveData 10; featureAt tinyMoveData 11].
Proof. reflexivity. Qed.

Lemma rawFutureReturn_tinyMoveData :
  rawFutureReturn tinyMoveData 10 = (30000.0001 - 30000) / 30000.
Proof. reflexivity. Qed.

(** C4, as the specification states it, fails: a relative change of a third
    of 1e-8 is stored as a [futureReturn] of 0, and its [futureDirection]
    is 1. *)
Lemma tiny_return_stored_as_zero :
  In (featureAt tinyMoveData 10) (calculateFeatures tinyMoveData)
  /\ Feature.futureReturn (featureAt tinyMoveData 10) = 0
  /\ Feature.futureDirection (featureAt tinyMoveData 10) = 1.
Proof.
  split; [rewrite calculateFeatures_tinyMoveData; now left|].
  destruct (futureDirection_featureAt tinyMoveData 10) as (Hd & Hr & _).
  cbn zeta in Hd, Hr. rewrite Hd, Hr, rawFutureReturn_tinyMoveData.
  split.
  - rewrite (Math_round_eq 0) by lra. lra.
  - apply sign_pos. lra.
Qed.

Lemma futureDirection_is_sign_of_unrounded_return_witness :
  exists i,
    (10 <= i < length tinyMoveData)%nat
    /\ featureAt tinyMoveData 10 = featureAt tinyMoveData i
    /\ Feature.futureDirection (featureAt tinyMoveData 10)
       = sign (rawFutureReturn tinyMoveData i)
    /\ Feature.futureReturn (featureAt tinyMoveData 10)
       = Math_round (rawFutureReturn tinyMoveData i * 100000000) / 100000000
    /\ (0 < Feature.futureReturn (featureAt tinyMoveData 10) ->
        Feature.futureDirection (featureAt tinyMoveData 10) = 1)
    /\ (Feature.futureReturn (featureAt tinyMoveData 10) < 0 ->
        Feature.futureDirection (featureAt tinyMoveData 10) = -1)
    /\ (Feature.futureDirection (featureAt tinyMoveData 10) = 0 ->
        Feature.futureReturn (featureAt tinyMoveData 10) = 0).
Proof.
  apply (futureDirection_is_sign_of_unrounded_return tinyMoveData).
  simpl. left. reflexivity.
Defined.

(** ** The GARCH recursion on zero returns *)

Lemma condVarAfter_0 (condVar : R) : condVarAfter condVar 0 = condVar.
Proof. unfold condVarAfter, omega, beta. simpl pow. lra. Qed.

Lemma condVarAfter_step (condVar : R) (k : nat) :
  condVarAfter (garchUpdate condVar 0) k = condVarAfter condVar (S k).
Proof.
  unfold condVarAfter, garchUpdate, omega, alpha, beta. simpl pow.
  set (b := 0.85 ^ k). lra.
Qed.

Lemma condVarAfter_add (condVar : R) (j k : nat) :
  condVarAfter (condVarAfter condVar j) k = condVarAfter condVar (j + k).
Proof.
  revert condVar. induction j as [|j IH]; intros condVar.
  - now rewrite condVarAfter_0.
  - simpl Nat.add. rewrite <- !condVarAfter_step. apply IH.
Qed.

Lemma garchWarmup_zeros (trainReturns : list R) :
  Forall (fun r => r = 0) trainReturns ->
  forall condVar,
    garchWarmup trainReturns condVar = condVarAfter condVar (length trainReturns).
Proof.
  unfold garchWarmup.
  induction 1 as [|r rest Hr _ IH]; intros condVar; simpl.
  - now rewrite condVarAfter_0.
  - subst r. rewrite IH. apply condVarAfter_step.
Qed.

Lemma garchLoop_zeros features returns indexes :
  (forall i, In i indexes -> nth i returns 0 = 0) ->
  forall condVar,
    map Garch.conditionalVariance (garchLoop features returns indexes condVar)
    = map (condVarAfter condVar) (seq 0 (length indexes))
    /\ map Garch.forecastVolatility (garchLoop features returns indexes condVar)
       = map (fun j => Math_sqrt (condVarAfter condVar j)) (seq 0 (length indexes)).
Proof.
  induction indexes as [|i rest IH]; intros Hz condVar; [split; reflexivity|].
  simpl garchLoop. cbn [length]. simpl seq. cbn [map Garch.conditionalVariance
    Garch.forecastVolatility].
  rewrite (Hz i) by now left.
  destruct (IH (fun k Hk => Hz k (or_intror Hk)) (garchUpdate condVar 0))
    as [Hc Hf].
  rewrite Hc, Hf, <- seq_shift, !map_map, condVarAfter_0.
  split; f_equal; apply map_ext; intros j; now rewrite condVarAfter_step.
Qed.

Lemma Forall_firstn' {A} (P : A -> Prop) (n : nat) :
  forall l, Forall P l -> Forall P (firstn n l).
Proof.
  induction n as [|n IH]; intros l Hl; [constructor|].
  destruct l as [|x l]; [constructor|]. simpl.
  inversion Hl; subst. constructor; [assumption | now apply IH].
Qed.

Lemma Forall_slice {A} (P : A -> Prop) (from to : nat) (l : list A) :
  Forall P l -> Forall P (slice from to l).
Proof.
  intros H. unfold slice. now apply Forall_firstn', Forall_skipn'.
Qed.

Lemma garchResults_zero_returns (features : list Feature.FeatureRecord) :
  features <> [] ->
  Forall (fun r => r = 0) (returnsOf (pricesOf features)) ->
  let r := runTimeSeriesAnalysis features in
  let returns := returnsOf (pricesOf features) in
  let trainSize := trainSizeOf (pricesOf features) in
  let emitted := seq 0 (length returns - trainSize) in
  garchWarmup (slice 0 trainSize returns) initialCondVar
  = condVarAfter initialCondVar trainSize
  /\ map Garch.conditionalVariance (garchResults r)
     = map (fun j => condVarAfter initialCondVar (trainSize + j)) emitted
  /\ map Garch.forecastVolatility (garchResults r)
     = map (fun j => Math_sqrt (condVarAfter initialCondVar (trainSize + j)))
           emitted.
Proof.
  intros Hne Hz r returns trainSize emitted.
  assert (Hlen : length (slice 0 trainSize returns) = trainSize).
  { unfold slice. rewrite Nat.sub_0_r. simpl skipn. apply firstn_length_le.
    subst returns trainSize. rewrite returnsOf_length.
    assert (pricesOf features <> []).
    { unfold pricesOf. destruct features; [congruence | discriminate]. }
    assert (H' := trainSizeOf_lt _ H). lia. }
  assert (Hw : garchWarmup (slice 0 trainSize returns) initialCondVar
               = condVarAfter initialCondVar trainSize).
  { rewrite garchWarmup_zeros by (apply Forall_slice; exact Hz).
    now rewrite Hlen. }
  split; [exact Hw|].
  subst r. unfold runTimeSeriesAnalysis. cbn [garchResults].
  fold returns. fold trainSize. rewrite Hw.
  destruct (garchLoop_zeros features returns
              (seq trainSize (length returns - trainSize))) with
    (condVar := condVarAfter initialCondVar trainSize) as [Hc Hf].
  { intros i _. rewrite Forall_forall in Hz.
    destruct (Nat.lt_ge_cases i (length returns)) as [Hi|Hi].
    - apply Hz. now apply nth_In.
    - now apply nth_overflow. }
  rewrite Hc, Hf, length_seq. fold emitted.
  split; apply map_ext; intros j; now rewrite condVarAfter_add.
Qed.

Lemma flatFeatures_returns_zero :
  Forall (fun r => r = 0) (returnsOf (pricesOf flatFeatures)).
Proof.
  unfold flatFeatures, pricesOf, returnsOf, mapi. simpl.
  repeat constructor; lra.
Qed.

Lemma flatFeatures_trainSize : trainSizeOf (pricesOf flatFeatures) = 8%nat.
Proof. rewrite trainSizeOf_div. reflexivity. Qed.

(** C2, amended. With the conditional variance seeded to 1e-4 and
    [omega = 1e-5], [alpha = 0.1], [beta = 0.85], if every return is 0 then
    after the [k] warm-up updates the conditional variance is
    [omega (1 - beta^k) / (1 - beta) + beta^k * 1e-4]: the seed keeps a share
    [beta^k]. The [j]-th forecast emitted afterwards carries the conditional
    variance after [k + j] updates and its square root as
    [forecastVolatility]. *)
Theorem garch_zero_returns (features : list Feature.FeatureRecord) :
  features <> [] ->
  Forall (fun r => r = 0) (returnsOf (pricesOf features)) ->
  let r := runTimeSeriesAnalysis features in
  let returns := returnsOf (pricesOf features) in
  let k := trainSizeOf (pricesOf features) in
  let emitted := seq 0 (length returns - k) in
  garchWarmup (slice 0 k returns) initialCondVar
  = omega * (1 - beta ^ k) / (1 - beta) + beta ^ k * 0.0001
  /\ map Garch.conditionalVariance (garchResults r)
     = map (fun j => omega * (1 - beta ^ (k + j)) / (1 - beta)
                     + beta ^ (k + j) * 0.0001) emitted
  /\ map Garch.forecastVolatility (garchResults r)
     = map Math_sqrt (map Garch.conditionalVariance (garchResults r)).
Proof.
  intros Hne Hz r returns k emitted.
  destruct (garchResults_zero_returns features Hne Hz) as (Hw & Hc & Hf).
  fold r returns k emitted in Hw, Hc, Hf.
  split; [exact Hw|]. split; [exact Hc|].
  rewrite Hf, Hc, map_map. reflexivity.
Qed.

Lemma garch_zero_returns_witness :
  let r := runTimeSeriesAnalysis flatFeatures in
  let returns := returnsOf (pricesOf flatFeatures) in
  let k := trainSizeOf (pricesOf flatFeatures) in
  let emitted := seq 0 (length returns - k) in
  garchWarmup (slice 0 k returns) initialCondVar
  = omega * (1 - beta ^ k) / (1 - beta) + beta ^ k * 0.0001
  /\ map Garch.conditionalVariance (garchResults r)
     = map (fun j => omega * (1 - beta ^ (k + j)) / (1 - beta)
                     + beta ^ (k + j) * 0.0001) emitted
  /\ map Garch.forecastVolatility (garchResults r)
     = map Math_sqrt (map Garch.conditionalVariance (garchResults r)).
Proof.
  apply garch_zero_returns.
  - discriminate.
  - exact flatFeatures_returns_zero.
Defined.

(** C2, as the specification states it, fails. With eleven features at the
    same mid price every return is 0 and there are 8 warm-up updates; the
    first conditional variance emitted is not [omega (1 - beta^8) / (1 - beta)],
    and the two forecasts emitted are not equal. *)
Lemma garch_forecasts_keep_the_seed :
  Forall (fun r => r = 0) (returnsOf (pricesOf flatFeatures))
  /\ trainSizeOf (pricesOf flatFeatures) = 8%nat
  /\ exists cv0 cv1 f0 f1,
      map Garch.conditionalVariance
          (garchResults (runTimeSeriesAnalysis flatFeatures)) = [cv0; cv1]
      /\ map Garch.forecastVolatility
             (garchResults (runTimeSeriesAnalysis flatFeatures)) = [f0; f1]
      /\ cv0 <> condVarAsSpecified 8
      /\ f0 <> f1.
Proof.
  split; [exact flatFeatures_returns_zero|].
  split; [exact flatFeatures_trainSize|].
  assert (Hne : flatFeatures <> []) by discriminate.
  destruct (garchResults_zero_returns flatFeatures Hne flatFeatures_returns_zero)
    as (_ & Hc & Hf).
  cbn zeta in Hc, Hf. rewrite flatFeatures_trainSize in Hc, Hf.
  rewrite returnsOf_length in Hc, Hf.
  change (length (pricesOf flatFeatures) - 1 - 8)%nat with 2%nat in Hc, Hf.
  cbn [seq map Nat.add] in Hc, Hf.
  exists (condVarAfter initialCondVar 8), (condVarAfter initialCondVar 9),
    (Math_sqrt (condVarAfter initialCondVar 8)),
    (Math_sqrt (condVarAfter initialCondVar 9)).
  split; [exact Hc|]. split; [exact Hf|].
  assert (H8 : condVarAfter initialCondVar 8
               = condVarAsSpecified 8 + 0.85 ^ 8 * 0.0001).
  { unfold condVarAfter, condVarAsSpecified, initialCondVar, beta. reflexivity. }
  assert (H9 : condVarAfter initialCondVar 9
               = 0.00001 + 0.85 * condVarAfter initialCondVar 8).
  { rewrite <- condVarAfter_step. rewrite <- (condVarAfter_step _ 7).
    unfold condVarAfter, garchUpdate, initialCondVar, omega, alpha, beta. lra. }
  assert (B8 : 0.00007 < condVarAfter initialCondVar 8 < 0.00008).
  { rewrite H8. unfold condVarAsSpecified, omega, beta. lra. }
  split.
  - rewrite H8. lra.
  - intros E. unfold Math_sqrt in E. apply sqrt_inj in E; lra.
Qed.

(** ** The walk-forward price predictor *)

Lemma nth_length_pred_last {A} (l : list A) (d : A) :
  nth (length l - 1) l d = last l d.
Proof.
  induction l as [|x l IH]; [reflexivity|].
  destruct l as [|y l]; [reflexivity|].
  replace (length (x :: y :: l) - 1)%nat with (S (length l)) by (simpl; lia).
  replace (length (y :: l) - 1)%nat with (length l) in IH by (simpl; lia).
  change (nth (S (length l)) (x :: y :: l) d) with (nth (length l) (y :: l) d).
  rewrite IH. reflexivity.
Qed.

Lemma firstn_succ_snoc {A} (l : list A) (d : A) :
  forall i, (i < length l)%nat -> firstn i l ++ [nth i l d] = firstn (S i) l.
Proof.
  induction l as [|x l IH]; intros i Hi; simpl in Hi; [lia|].
  destruct i as [|i]; [reflexivity|].
  simpl. f_equal. apply IH. lia.
Qed.

Lemma firstDifferences_cons2 (x y : R) (l : list R) :
  firstDifferences (x :: y :: l) = (y - x) :: firstDifferences (y :: l).
Proof. reflexivity. Qed.

Lemma firstDifferences_length (l : list R) :
  length (firstDifferences l) = (length l - 1)%nat.
Proof.
  induction l as [|x l IH]; [reflexivity|].
  destruct l as [|y l]; [reflexivity|].
  rewrite firstDifferences_cons2. cbn [length] in *. lia.
Qed.

(** The reducer of [avgChange], started inside the array at index [i >= 1]:
    it adds the first differences from there on. *)
Lemma reduce_from_differences (whole : list R) :
  forall arr i s,
    (1 <= i)%nat -> arr = skipn i whole ->
    reduce_from (fun s p j arr => if (j =? 0)%nat then s
                                  else s + (p - nth (j - 1) arr 0))
                whole i arr s
    = s + sumOf (firstDifferences (nth (i - 1) whole 0 :: arr)).
Proof.
  induction arr as [|x rest IH]; intros i s Hi Harr.
  - simpl. unfold sumOf. simpl. lra.
  - simpl reduce_from. destruct (Nat.eqb_spec i 0) as [E|_]; [lia|].
    assert (Hx : nth i whole 0 = x).
    { rewrite <- (Nat.add_0_r i), <- nth_skipn, <- Harr. reflexivity. }
    assert (Hrest : rest = skipn (S i) whole).
    { change (S i) with (1 + i)%nat. rewrite <- skipn_skipn, <- Harr. reflexivity. }
    rewrite (IH (S i) _ ltac:(lia) Hrest).
    replace (S i - 1)%nat with i by lia. rewrite Hx.
    rewrite firstDifferences_cons2. unfold sumOf. simpl fold_right. lra.
Qed.

Lemma reducei_differences (l : list R) :
  reducei (fun s p j arr => if (j =? 0)%nat then s
                            else s + (p - nth (j - 1) arr 0)) 0 l
  = sumOf (firstDifferences l).
Proof.
  unfold reducei. destruct l as [|x rest]; [reflexivity|].
  simpl reduce_from.
  rewrite (reduce_from_differences (x :: rest) rest 1 0 ltac:(lia) eq_refl).
  simpl nth. lra.
Qed.

Lemma slice_last_length {A} (k : nat) (l : list A) :
  (k <= length l)%nat -> length (slice_last k l) = k.
Proof. intros H. unfold slice_last. rewrite length_skipn. lia. Qed.

(** With ten or more elements in [history], the program's prediction is the
    specified one. *)
Lemma predictFrom_asSpecified (history : list R) :
  (10 <= length history)%nat ->
  predictFrom history = predictionAsSpecified history.
Proof.
  intros H. unfold predictFrom, predictionAsSpecified, meanOf.
  rewrite nth_length_pred_last, reducei_differences, firstDifferences_length,
    slice_last_length by exact H.
  simpl INR. lra.
Qed.

Lemma arimaLoop_predicted features prices :
  forall n t,
    (t + n <= length prices)%nat ->
    map Arima.predicted (arimaLoop features prices (seq t n) (firstn t prices))
    = map (fun i => predictFrom (firstn i prices)) (seq t n).
Proof.
  induction n as [|n IH]; intros t Ht; [reflexivity|].
  simpl seq. simpl arimaLoop. cbn [map Arima.predicted].
  rewrite (firstn_succ_snoc prices 0 t) by lia.
  rewrite IH by lia. reflexivity.
Qed.

Lemma arimaLoop_error features prices indexes :
  forall history,
    Forall (fun pt => Arima.error pt = Arima.actual pt - Arima.predicted pt)
           (arimaLoop features prices indexes history).
Proof.
  induction indexes as [|i rest IH]; intros history; simpl; constructor.
  - reflexivity.
  - apply IH.
Qed.

Lemma arimaResults_walk_forward (features : list Feature.FeatureRecord) :
  let prices := pricesOf features in
  let trainSize := trainSizeOf prices in
  let testIndexes := seq trainSize (length prices - trainSize) in
  let r := runTimeSeriesAnalysis features in
  (10 <= trainSize)%nat ->
  map Arima.predicted (arimaResults r)
  = map (fun i => predictionAsSpecified (firstn i prices)) testIndexes
  /\ map Arima.actual (arimaResults r) = map (fun i => nth i prices 0) testIndexes
  /\ Forall (fun pt => Arima.error pt = Arima.actual pt - Arima.predicted pt)
            (arimaResults r).
Proof.
  intros prices trainSize testIndexes r Ht.
  subst r. unfold runTimeSeriesAnalysis. cbn [arimaResults].
  fold prices. fold trainSize. fold testIndexes.
  assert (Hle := trainSizeOf_le prices). fold trainSize in Hle.
  split; [|split].
  - unfold slice. rewrite Nat.sub_0_r. simpl skipn.
    subst testIndexes. rewrite arimaLoop_predicted by lia.
    apply map_ext_in. intros i Hi. apply in_seq in Hi.
    apply predictFrom_asSpecified. rewrite length_firstn. lia.
  - apply arimaLoop_actual.
  - apply arimaLoop_error.
Qed.

Lemma nth_map_seq {A} (f : nat -> A) (t n k : nat) (d : A) :
  (k < n)%nat -> nth k (map f (seq t n)) d = f (t + k)%nat.
Proof.
  intros Hk.
  rewrite (nth_indep _ d (f 0%nat)) by (rewrite length_map, length_seq; exact Hk).
  rewrite map_nth, seq_nth by exact Hk. reflexivity.
Qed.

(** C8. When the training region holds at least 10 mid prices, the price
    predictor handles the test indexes in order; at test index [i] its
    history is the mid prices at the indexes below [i] (the actual values, not
    the predicted ones), and it emits
    [predicted = lastPrice + 0.7 * avgChange], with [lastPrice] the last
    element of the history and [avgChange] the mean of the 9 first
    differences of its last 10 elements, [actual] the mid price at [i], and
    [error = actual - predicted]. So the prediction at [i] is the same for
    two feature sequences of one length that agree on the mid prices below
    [i]. *)
Theorem price_predictor_walk_forward (features : list Feature.FeatureRecord) :
  let prices := pricesOf features in
  let trainSize := trainSizeOf prices in
  let testIndexes := seq trainSize (length prices - trainSize) in
  let r := runTimeSeriesAnalysis features in
  (10 <= trainSize)%nat ->
  map Arima.predicted (arimaResults r)
  = map (fun i => predictionAsSpecified (firstn i prices)) testIndexes
  /\ map Arima.actual (arimaResults r) = map (fun i => nth i prices 0) testIndexes
  /\ Forall (fun pt => Arima.error pt = Arima.actual pt - Arima.predicted pt)
            (arimaResults r)
  /\ forall (features' : list Feature.FeatureRecord) (i : nat),
      length features' = length features ->
      (trainSize <= i < length prices)%nat ->
      firstn i (pricesOf features') = firstn i prices ->
      nth (i - trainSize)
          (map Arima.predicted (arimaResults (runTimeSeriesAnalysis features'))) 0
      = nth (i - trainSize) (map Arima.predicted (arimaResults r)) 0.
Proof.
  intros prices trainSize testIndexes r Ht.
  destruct (arimaResults_walk_forward features Ht) as (Hp & Ha & He).
  fold prices trainSize testIndexes r in Hp, Ha, He.
  split; [exact Hp|]. split; [exact Ha|]. split; [exact He|].
  intros features' i Hlen Hi Hsame.
  assert (Hlen' : length (pricesOf features') = length prices).
  { subst prices. unfold pricesOf. now rewrite !length_map. }
  assert (Ht' : trainSizeOf (pricesOf features') = trainSize).
  { subst trainSize. now rewrite !trainSizeOf_div, Hlen'. }
  assert (Ht10 : (10 <= trainSizeOf (pricesOf features'))%nat) by lia.
  destruct (arimaResults_walk_forward features' Ht10) as (Hp' & _).
  cbn zeta in Hp'. rewrite Hp', Hp, Ht', Hlen'. subst testIndexes.
  rewrite !nth_map_seq by lia.
  replace (trainSize + (i - trainSize))%nat with i by lia.
  now rewrite Hsame.
Qed.

Lemma risingFeatures_trainSize : trainSizeOf (pricesOf risingFeatures) = 10%nat.
Proof. rewrite trainSizeOf_div. reflexivity. Qed.

Lemma price_predictor_walk_forward_witness :
  map Arima.actual (arimaResults (runTimeSeriesAnalysis risingFeatures))
  = map (fun i => nth i (pricesOf risingFeatures) 0)
        (seq (trainSizeOf (pricesOf risingFeatures))
             (length (pricesOf risingFeatures)
              - trainSizeOf (pricesOf risingFeatures))).
Proof.
  assert (Ht : (10 <= trainSizeOf (pricesOf risingFeatures))%nat).
  { rewrite risingFeatures_trainSize. lia. }
  exact (proj1 (proj2 (price_predictor_walk_forward risingFeatures Ht))).
Defined.


(** * Further properties *)

(** ** The random source: what a draw returns *)

Lemma drawNonZero_inv (src : source) :
  forall u rest,
    drawNonZero src = Some (u, rest) ->
    u <> 0
    /\ exists zeros, src = zeros ++ u :: rest /\ Forall (fun z => z = 0) zeros.
Proof.
  induction src as [|x src IH]; intros u rest H; simpl in H; [discriminate|].
  destruct (Req_dec_T x 0) as [Hx|Hx].
  - destruct (IH _ _ H) as (Hu & zeros & -> & Hz).
    split; [exact Hu|]. exists (x :: zeros). split; [reflexivity|].
    constructor; assumption.
  - inversion H; subst. split; [exact Hx|]. exists []. split; [reflexivity|constructor].
Qed.

Lemma drawNonZero_zero (s : source) : drawNonZero (0 :: s) = drawNonZero s.
Proof.
  simpl. destruct (Req_dec_T 0 0) as [_|H]; [reflexivity|]. now contradiction H.
Qed.

Lemma drawNonZero_None (src : source) :
  drawNonZero src = None <-> Forall (fun z => z = 0) src.
Proof.
  induction src as [|x src IH]; simpl.
  - split; [constructor | reflexivity].
  - destruct (Req_dec_T x 0) as [Hx|Hx].
    + rewrite IH. split; intros H; [constructor; assumption | now inversion H].
    + split; [discriminate|]. intros H. inversion H; contradiction.
Qed.

(** X1. [gaussianRandom] never takes the logarithm of 0 and never uses a 0
    as its angle: it discards the zeros the source returns before [u] and
    before [v], uses the first non-zero value for each, and leaves the rest of
    the source untouched. *)
Theorem gaussianRandom_skips_zeros (src rest : source) (z : R) :
  gaussianRandom src = Some (z, rest) ->
  exists zerosU u zerosV v,
    src = zerosU ++ u :: zerosV ++ v :: rest
    /\ Forall (fun x => x = 0) zerosU /\ Forall (fun x => x = 0) zerosV
    /\ u <> 0 /\ v <> 0
    /\ z = Math_sqrt (-2.0 * Math_log u) * Math_cos (2.0 * Math_PI * v).
Proof.
  intros H. unfold gaussianRandom in H.
  do 2 invert_bind H. apply ret_Some_inv in H. destruct H as [<- <-].
  apply drawNonZero_inv in Hread. destruct Hread as (Hu & zu & -> & Hzu).
  apply drawNonZero_inv in Hread0. destruct Hread0 as (Hv & zv & -> & Hzv).
  exists zu, a, zv, a0. repeat split; assumption.
Qed.

Lemma gaussianRandom_skips_zeros_witness :
  exists zerosU u zerosV v,
    [0; 1/4; 0; 0; 1/4; 1/2] = zerosU ++ u :: zerosV ++ v :: [1/2]
    /\ Forall (fun x => x = 0) zerosU /\ Forall (fun x => x = 0) zerosV
    /\ u <> 0 /\ v <> 0
    /\ 0 = Math_sqrt (-2.0 * Math_log u) * Math_cos (2.0 * Math_PI * v).
Proof.
  apply (gaussianRandom_skips_zeros [0; 1/4; 0; 0; 1/4; 1/2] [1/2] 0).
  assert (Hq : 1 / 4 <> 0) by lra.
  assert (Hu : drawNonZero [0; 1/4; 0; 0; 1/4; 1/2]
               = Some (1/4, [0; 0; 1/4; 1/2])).
  { rewrite drawNonZero_zero. apply drawNonZero_cons, Hq. }
  assert (Hv : drawNonZero [0; 0; 1/4; 1/2] = Some (1/4, [1/2])).
  { rewrite !drawNonZero_zero. apply drawNonZero_cons, Hq. }
  unfold gaussianRandom.
  rewrite (bind_Some _ _ _ _ _ Hu), (bind_Some _ _ _ _ _ Hv).
  unfold ret, Math_cos, Math_PI.
  replace (2.0 * PI * (1 / 4)) with (PI / 2) by lra.
  rewrite cos_PI2, Rmult_0_r. reflexivity.
Defined.

(** ** Values drawn from a source within bounds *)

Section DrawnValues.
Variable P : R -> Prop.

Lemma Math_random_Forall (src rest : source) (u : R) :
  Forall P src -> Math_random src = Some (u, rest) -> P u /\ Forall P rest.
Proof.
  intros HP H. destruct src as [|x src]; simpl in H; [discriminate|].
  inversion H; subst. now inversion HP.
Qed.

Lemma drawNonZero_Forall (src : source) :
  forall rest u,
    Forall P src -> drawNonZero src = Some (u, rest) -> P u /\ Forall P rest.
Proof.
  induction src as [|x src IH]; intros rest u HP H; simpl in H; [discriminate|].
  inversion HP; subst.
  destruct (Req_dec_T x 0).
  - now apply IH.
  - inversion H; subst. now split.
Qed.

Lemma gaussianRandom_Forall (src rest : source) (z : R) :
  Forall P src -> gaussianRandom src = Some (z, rest) -> Forall P rest.
Proof.
  intros HP H. unfold gaussianRandom in H. do 2 invert_bind H.
  apply ret_Some_inv in H. destruct H as [_ <-].
  apply (drawNonZero_Forall _ _ _ HP) in Hread. destruct Hread as [_ HP'].
  apply (drawNonZero_Forall _ _ _ HP') in Hread0. now destruct Hread0.
Qed.
End DrawnValues.

(** ** Integers produced by [Math.floor] and [Math.round] *)

Lemma Math_floor_unit_scaled (n : Z) (u : R) :
  (0 < n)%Z -> unitInterval u ->
  integerBetween 1 n (Math_floor (u * IZR n) + 1).
Proof.
  intros Hn [H0 H1]. unfold Math_floor.
  exists (Zfloor (u * IZR n) + 1)%Z. split; [now rewrite plus_IZR|].
  assert (Hpos : 0 < IZR n) by now apply IZR_lt.
  assert (B := Zfloor_bound (u * IZR n)).
  assert (L : (0 <= Zfloor (u * IZR n))%Z).
  { apply Zfloor_lub. simpl. nra. }
  assert (U : (Zfloor (u * IZR n) < n)%Z).
  { apply lt_IZR. nra. }
  lia.
Qed.

Lemma Math_max_integerFrom (lo : Z) (x : R) :
  integerFrom lo (Math_max (IZR lo) (Math_round x)).
Proof.
  unfold Math_max, Math_round, Math_floor.
  exists (Z.max lo (Zfloor (x + / 2))). split; [|lia].
  unfold Rmax. destruct (Rle_dec (IZR lo) (IZR (Zfloor (x + / 2)))) as [H|H].
  - apply le_IZR in H. f_equal. lia.
  - f_equal. assert (~ (lo <= Zfloor (x + / 2))%Z).
    { intros C. apply H. now apply IZR_le. }
    lia.
Qed.

(** ** The levels of a snapshot *)

Lemma generateLevels_wellFormed levels p s imb :
  forall src bids asks rest,
    Forall unitInterval src ->
    generateLevels levels p s imb src = Some ((bids, asks), rest) ->
    Forall wellFormedLevel bids /\ Forall wellFormedLevel asks
    /\ Forall unitInterval rest.
Proof.
  induction levels as [|level levels IH]; intros src bids asks rest HU H;
    simpl generateLevels in H.
  - apply ret_Some_inv in H. destruct H as [H <-]. inversion H; subst.
    repeat split; try constructor. exact HU.
  - do 5 invert_bind H. destruct a3 as [bids' asks'].
    apply ret_Some_inv in H. destruct H as [H <-]. inversion H; subst.
    apply (gaussianRandom_Forall _ _ _ _ HU) in Hread.
    apply (Math_random_Forall _ _ _ _ Hread) in Hread0. destruct Hread0 as [Hu0 HU0].
    apply (gaussianRandom_Forall _ _ _ _ HU0) in Hread1.
    apply (Math_random_Forall _ _ _ _ Hread1) in Hread2. destruct Hread2 as [Hu2 HU2].
    destruct (IH _ _ _ _ HU2 Hread3) as (Hb & Ha & Hr).
    repeat split; try assumption; constructor; try assumption; split; simpl.
    + apply (Math_max_integerFrom 100).
    + apply (Math_floor_unit_scaled 10); [lia | assumption].
    + apply (Math_max_integerFrom 100).
    + apply (Math_floor_unit_scaled 10); [lia | assumption].
Qed.

(** ** Every field of the snapshot of a tick *)

Ltac invert_bind_as H a s Ha :=
  apply bind_Some_inv in H; destruct H as (a & s & Ha & H).

Lemma tick_inv_fields i st src record st' rest :
  tick i st src = Some ((record, st'), rest) ->
  exists shock zPrice zImbalance uSide uSize src1 src2 src3 src4 src5,
    gaussianRandom src = Some (shock, src1)
    /\ gaussianRandom src1 = Some (zPrice, src2)
    /\ gaussianRandom src2 = Some (zImbalance, src3)
    /\ let vol' := nextVolatility (currentVolatility st) shock in
       let price' := nextPrice (currentPrice st) vol' zPrice in
       let imbalance := imbalanceOf i zImbalance in
       let side := if gt uSide (0.5 - imbalance * 0.2) then buy else sell in
       generateLevels (seq 0 5) price' (spreadOf vol') imbalance src3
       = Some ((LOB.bidLevels record, LOB.askLevels record), src4)
       /\ Math_random src4 = Some (uSide, src5)
       /\ Math_random src5 = Some (uSize, rest)
       /\ st' = {| currentPrice := price'; currentVolatility := vol' |}
       /\ LOB.timestamp record = (Z.of_nat i * 500)%Z
       /\ LOB.spread record = Math_round (spreadOf vol' * 10000) / 10000
       /\ LOB.volatility record = Math_round (vol' * 1000000) / 1000000
       /\ LOB.totalBidVolume record
          = reduce (fun sum l => sum + size l) 0 (LOB.bidLevels record)
       /\ LOB.totalAskVolume record
          = reduce (fun sum l => sum + size l) 0 (LOB.askLevels record)
       /\ LOB.lastTrade record
          = {| tradePrice := match side with
                             | buy => bestPrice (LOB.askLevels record)
                             | sell => bestPrice (LOB.bidLevels record)
                             end;
               tradeSize := (Math_floor (uSize * 100) + 1) * 100;
               tradeSide := side |}.
Proof.
  intros H. unfold tick in H.
  invert_bind_as H shock s1 H1. invert_bind_as H zPrice s2 H2.
  invert_bind_as H zImb s3 H3. invert_bind_as H levels s4 H4.
  destruct levels as [bids asks].
  invert_bind_as H uSide s5 H5. invert_bind_as H uSize s6 H6.
  apply ret_Some_inv in H. destruct H as [H <-]. inversion H; subst; clear H.
  exists shock, zPrice, zImb, uSide, uSize, s1, s2, s3, s4, s5.
  cbn [LOB.bidLevels LOB.askLevels LOB.timestamp LOB.spread LOB.volatility
       LOB.totalBidVolume LOB.totalAskVolume LOB.lastTrade].
  repeat split; assumption.
Qed.

(** A property every tick establishes, from an invariant of the state and of
    the source every tick keeps, holds of all the snapshots of the loop. *)
Lemma ticksFrom_Forall (Inv : SimState -> source -> Prop)
      (P : LOB.LOBRecord -> Prop) :
  (forall i st src record st' rest,
      Inv st src -> tick i st src = Some ((record, st'), rest) ->
      P record /\ Inv st' rest) ->
  forall count i st src records rest,
    Inv st src -> ticksFrom count i st src = Some (records, rest) ->
    Forall P records.
Proof.
  intros Hstep. induction count as [|count IH];
    intros i st src records rest HI H; simpl ticksFrom in H.
  - apply ret_Some_inv in H. destruct H as [<- _]. constructor.
  - invert_bind H. destruct a as [record st']. invert_bind H.
    apply ret_Some_inv in H. destruct H as [<- _].
    destruct (Hstep _ _ _ _ _ _ HI Hread) as [HP HI'].
    constructor; [exact HP|]. eapply IH; eassumption.
Qed.

(** The snapshot at position [k] is the one of tick [i + k]. *)
Lemma ticksFrom_timestamps count :
  forall i st src records rest,
    ticksFrom count i st src = Some (records, rest) ->
    map LOB.timestamp records
    = map (fun k => (Z.of_nat k * 500)%Z) (seq i count).
Proof.
  induction count as [|count IH]; intros i st src records rest H;
    simpl ticksFrom in H.
  - apply ret_Some_inv in H. destruct H as [<- _]. reflexivity.
  - invert_bind H. destruct a as [record st']. invert_bind H.
    apply ret_Some_inv in H. destruct H as [<- _].
    apply tick_inv_fields in Hread.
    destruct Hread as (? & ? & ? & ? & ? & ? & ? & ? & ? & ? & _ & _ & _ & _ & _
                       & _ & _ & Ht & _).
    simpl. rewrite Ht. f_equal. eapply IH. exact Hread0.
Qed.

(** ** Sums of sizes *)

Lemma reduce_sum {A} (f : A -> R) (l : list A) :
  forall init, reduce (fun s x => s + f x) init l = init + sumOf (map f l).
Proof.
  unfold reduce, sumOf.
  induction l as [|x l IH]; intros init; simpl; [lra|]. rewrite IH. lra.
Qed.

Lemma sumOfSizes_lower (levels : list OrderLevel) :
  Forall (fun l => 100 <= size l) levels ->
  100 * INR (length levels) <= sumOfSizes levels.
Proof.
  unfold sumOfSizes, sumOf.
  induction 1 as [|l levels Hl _ IH].
  - simpl. lra.
  - cbn [length map fold_right]. rewrite S_INR. lra.
Qed.

Lemma tick_totalsAreSums i st src record st' rest :
  tick i st src = Some ((record, st'), rest) -> totalsAreSums record.
Proof.
  intros H. apply tick_inv_fields in H.
  destruct H as (? & ? & ? & ? & ? & ? & ? & ? & ? & ? & _ & _ & _ & Hlev & _ & _
                 & _ & _ & _ & _ & Hb & Ha & _).
  apply generateLevels_inv in Hlev. destruct Hlev as (Pb & Pa & Sb & Sa).
  assert (Lb : length (LOB.bidLevels record) = 5%nat).
  { rewrite <- (length_map price), Pb, length_map. reflexivity. }
  assert (La : length (LOB.askLevels record) = 5%nat).
  { rewrite <- (length_map price), Pa, length_map. reflexivity. }
  apply sumOfSizes_lower in Sb. apply sumOfSizes_lower in Sa.
  rewrite Lb in Sb. rewrite La in Sa. simpl INR in Sa, Sb.
  unfold totalsAreSums. rewrite Hb, Ha, !reduce_sum. fold (sumOfSizes (LOB.bidLevels record)).
  fold (sumOfSizes (LOB.askLevels record)).
  repeat split; lra.
Qed.

(** X2. In every generated snapshot [totalBidVolume] and [totalAskVolume]
    are the sums of the sizes of the five bid and of the five ask levels, and
    each is at least 500. *)
Theorem generated_totals_are_sums numRecords src records rest :
  generateLOBData numRecords src = Some (records, rest) ->
  Forall totalsAreSums records.
Proof.
  unfold generateLOBData.
  apply (ticksFrom_Forall (fun _ _ => True) totalsAreSums); [|exact I].
  intros i st s record st' r _ H. split; [|exact I].
  eapply tick_totalsAreSums. exact H.
Qed.

(** ** A run to apply the properties to *)

Lemma Forall_unit_quarterSource (n : nat) : Forall unitInterval (quarterSource n).
Proof.
  apply Forall_forall. intros x Hx. apply repeat_spec in Hx.
  unfold unitInterval. lra.
Qed.

Lemma two_quiet_records :
  exists records, generateLOBData 2 (quarterSource 76) = Some (records, []).
Proof.
  destruct (reads_ticksFrom 2 0 initialState (quarterSource 76)
              (Forall_nonzero_quarterSource 76)) as [records Hrun].
  { unfold quarterSource. rewrite repeat_length. lia. }
  assert (E : skipn (38 * 2) (quarterSource 76) = []).
  { unfold quarterSource. rewrite skipn_repeat'. reflexivity. }
  rewrite E in Hrun. exists records. exact Hrun.
Qed.

Lemma generated_totals_are_sums_witness :
  exists records,
    generateLOBData 2 (quarterSource 76) = Some (records, [])
    /\ Forall totalsAreSums records.
Proof.
  destruct two_quiet_records as [records Hrun].
  exists records. split; [exact Hrun|].
  exact (generated_totals_are_sums 2 (quarterSource 76) records [] Hrun).
Defined.

(** ** Time stamps *)

(** X3. The snapshot at position [k] of the generated sequence carries the
    time [500 k] milliseconds after the start time: time stamps start at the
    start time and advance by half a second per snapshot. *)
Theorem generated_timestamps numRecords src records rest :
  generateLOBData numRecords src = Some (records, rest) ->
  map LOB.timestamp records
  = map (fun k => (Z.of_nat k * 500)%Z) (seq 0 (Z.to_nat numRecords)).
Proof.
  unfold generateLOBData. apply ticksFrom_timestamps.
Qed.

Lemma generated_timestamps_witness :
  exists records,
    generateLOBData 2 (quarterSource 76) = Some (records, [])
    /\ map LOB.timestamp records = [0%Z; 500%Z].
Proof.
  destruct two_quiet_records as [records Hrun].
  exists records. split; [exact Hrun|].
  exact (generated_timestamps 2 (quarterSource 76) records [] Hrun).
Defined.

(** ** The book is not crossed *)

Lemma In_level_price (f : nat -> R) (levels : list OrderLevel) (n : nat)
      (l : OrderLevel) :
  map price levels = map f (seq 0 n) -> In l levels ->
  exists j, (j < n)%nat /\ price l = f j.
Proof.
  intros Hmap Hin. apply (in_map price) in Hin. rewrite Hmap in Hin.
  apply in_map_iff in Hin. destruct Hin as (j & Hj & Hseq).
  apply in_seq in Hseq. exists j. split; [lia | now symmetry].
Qed.

Lemma best_bid_below_best_ask (p spread : R) :
  0.01 <= spread -> bidPriceOf p spread 0 + 0.01 <= askPriceOf p spread 0.
Proof.
  intros Hs. unfold bidPriceOf, askPriceOf, levelOffsetOf. simpl INR.
  assert (Math_round ((p - (spread / 2 + 0 * spread * 0.5)) * 100) + 1
          <= Math_round ((p + (spread / 2 + 0 * spread * 0.5)) * 100)).
  { apply Math_round_gap. lra. }
  lra.
Qed.

Lemma bidPriceOf_le_best p spread j :
  0 <= spread -> bidPriceOf p spread j <= bidPriceOf p spread 0.
Proof.
  intros Hs. destruct j as [|j]; [lra|]. apply bidPriceOf_le; [exact Hs | lia].
Qed.

Lemma askPriceOf_ge_best p spread j :
  0 <= spread -> askPriceOf p spread 0 <= askPriceOf p spread j.
Proof.
  intros Hs. destruct j as [|j]; [lra|]. apply askPriceOf_le; [exact Hs | lia].
Qed.

Lemma tick_notCrossed i st src record st' rest :
  0 <= currentVolatility st ->
  tick i st src = Some ((record, st'), rest) ->
  notCrossed record /\ 0 <= currentVolatility st'.
Proof.
  intros Hv H. apply tick_inv in H.
  destruct H as (shock & zPrice & zImb & src1 & src2 & src3 & src4
                 & _ & _ & _ & Hlev & Hst & _).
  set (vol' := nextVolatility (currentVolatility st) shock) in *.
  set (price' := nextPrice (currentPrice st) vol' zPrice) in *.
  assert (Hvol' : 0 <= vol') by (apply nextVolatility_nonneg; exact Hv).
  assert (Hs : 0.01 <= spreadOf vol') by (apply spreadOf_lower; exact Hvol').
  split; [|subst st'; exact Hvol'].
  apply generateLevels_inv in Hlev. destruct Hlev as (Hb & Ha & _).
  intros b a Hinb Hina.
  destruct (In_level_price _ _ _ _ Hb Hinb) as (j & _ & ->).
  destruct (In_level_price _ _ _ _ Ha Hina) as (k & _ & ->).
  assert (B := bidPriceOf_le_best price' (spreadOf vol') j ltac:(lra)).
  assert (A := askPriceOf_ge_best price' (spreadOf vol') k ltac:(lra)).
  assert (G := best_bid_below_best_ask price' (spreadOf vol') Hs).
  split; [lra | intros _; lra].
Qed.

Lemma Forall_within {A} (P Q : A -> Prop) (l : list A) :
  Forall P l -> Forall (fun x => P x -> Q x) l -> Forall Q l.
Proof.
  rewrite !Forall_forall. intros HP HQ x Hx. exact (HQ x Hx (HP x Hx)).
Qed.

Lemma Forall_always {A} (P Q : A -> Prop) (l : list A) :
  Forall Q l -> Forall (fun x => P x -> Q x) l.
Proof.
  apply Forall_impl. intros x HQ _. exact HQ.
Qed.

(** X4. In every generated snapshot whose mid price is at most
    [priceCeiling] the book is not crossed: no bid level price (as stored,
    rounded to cents) is above an ask level price, and when the stored spread
    is above one cent every bid price is strictly below every ask price. *)
Theorem generated_book_not_crossed numRecords src records rest :
  generateLOBData numRecords src = Some (records, rest) ->
  Forall (fun r => withinCeiling r -> notCrossed r) records.
Proof.
  unfold generateLOBData. intros H. apply Forall_always. revert H.
  apply (ticksFrom_Forall (fun st _ => 0 <= currentVolatility st) notCrossed).
  - intros i st s record st' r Hv H. eapply tick_notCrossed; eassumption.
  - unfold initialState, volatility. cbn [currentVolatility]. lra.
Qed.

Lemma generated_book_not_crossed_witness :
  exists records,
    generateLOBData 2 (quarterSource 76) = Some (records, [])
    /\ Forall withinCeiling records
    /\ Forall notCrossed records.
Proof.
  destruct two_quiet_records as [records Hrun].
  exists records. split; [exact Hrun|].
  assert (Hw : Forall withinCeiling records).
  { apply (quiet_records_withinCeiling 2 76 records []); [simpl; lia | exact Hrun]. }
  split; [exact Hw|].
  exact (Forall_within _ _ _ Hw
           (generated_book_not_crossed 2 (quarterSource 76) records [] Hrun)).
Defined.

(** ** Spread and volatility *)

Lemma tick_spreadTracksVolatility i st src record st' rest :
  0 <= currentVolatility st ->
  tick i st src = Some ((record, st'), rest) ->
  spreadTracksVolatility record /\ 0 <= currentVolatility st'.
Proof.
  intros Hv H. apply tick_inv in H.
  destruct H as (shock & zPrice & zImb & src1 & src2 & src3 & src4
                 & _ & _ & _ & _ & Hst & _ & Hspread & _ & Hvol).
  set (vol' := nextVolatility (currentVolatility st) shock) in *.
  assert (Hvol' : 0 <= vol') by (apply nextVolatility_nonneg; exact Hv).
  assert (Hs : 0.01 <= spreadOf vol') by (apply spreadOf_lower; exact Hvol').
  split; [|subst st'; exact Hvol'].
  assert (E : spreadOf vol' = 0.01 + 100 * vol').
  { unfold spreadOf, spreadBase, volatility. lra. }
  assert (B1 := Math_round_bound (spreadOf vol' * 10000)).
  assert (B2 := Math_round_bound (vol' * 1000000)).
  assert (L1 : Math_round (IZR 100) <= Math_round (spreadOf vol' * 10000))
    by (apply Math_round_le; lra).
  assert (L2 : Math_round (IZR 0) <= Math_round (vol' * 1000000))
    by (apply Math_round_le; lra).
  rewrite Math_round_IZR in L1, L2.
  unfold spreadTracksVolatility. rewrite Hspread, Hvol.
  repeat split; try lra.
  apply Rabs_le. lra.
Qed.



(** ** Levels and last trade, for a source within [[0, 1)] *)

Lemma tick_levels_and_trade i st src record st' rest :
  Forall unitInterval src ->
  tick i st src = Some ((record, st'), rest) ->
  (Forall wellFormedLevel (LOB.bidLevels record)
   /\ Forall wellFormedLevel (LOB.askLevels record)
   /\ wellFormedTrade record)
  /\ Forall unitInterval rest.
Proof.
  intros HU H. apply tick_inv_fields in H.
  destruct H as (shock & zPrice & zImb & uSide & uSize & s1 & s2 & s3 & s4 & s5
                 & H1 & H2 & H3 & Hlev & H5 & H6 & _ & _ & _ & _ & _ & _ & Htrade).
  apply (gaussianRandom_Forall _ _ _ _ HU) in H1.
  apply (gaussianRandom_Forall _ _ _ _ H1) in H2.
  apply (gaussianRandom_Forall _ _ _ _ H2) in H3.
  destruct (generateLevels_wellFormed _ _ _ _ _ _ _ _ H3 Hlev) as (Wb & Wa & HU4).
  apply (Math_random_Forall _ _ _ _ HU4) in H5. destruct H5 as [_ HU5].
  apply (Math_random_Forall _ _ _ _ HU5) in H6. destruct H6 as [Hsize HU6].
  split; [|exact HU6]. split; [exact Wb|]. split; [exact Wa|].
  unfold wellFormedTrade. rewrite Htrade. cbn [tradePrice tradeSize tradeSide].
  split; [reflexivity|].
  destruct (Math_floor_unit_scaled 100 uSize ltac:(lia) Hsize) as (k & Hk & Hrange).
  exists k. split; [|exact Hrange]. rewrite Hk, mult_IZR. lra.
Qed.

(** X6. When the values of the random source lie in [[0, 1)], every level of
    every generated snapshot has an integer size of at least 100 and an
    integer number of orders from 1 to 10, and the last trade is priced at the
    best ask for a buy and at the best bid for a sell, with a size that is a
    multiple of 100 from 100 to 10000. *)
Theorem generated_levels_and_trades numRecords src records rest :
  Forall unitInterval src ->
  generateLOBData numRecords src = Some (records, rest) ->
  Forall (fun r => Forall wellFormedLevel (LOB.bidLevels r)
                   /\ Forall wellFormedLevel (LOB.askLevels r)
                   /\ wellFormedTrade r) records.
Proof.
  unfold generateLOBData. intros HU.
  apply (ticksFrom_Forall (fun _ s => Forall unitInterval s)); [|exact HU].
  intros i st s record st' r Hs H. eapply tick_levels_and_trade; eassumption.
Qed.

Lemma generated_levels_and_trades_witness :
  exists records,
    generateLOBData 2 (quarterSource 76) = Some (records, [])
    /\ Forall (fun r => Forall wellFormedLevel (LOB.bidLevels r)
                        /\ Forall wellFormedLevel (LOB.askLevels r)
                        /\ wellFormedTrade r) records.
Proof.
  destruct two_quiet_records as [records Hrun].
  exists records. split; [exact Hrun|].
  exact (generated_levels_and_trades 2 (quarterSource 76) records []
           (Forall_unit_quarterSource 76) Hrun).
Defined.

(** ** Feature vectors and the snapshots they describe *)

Lemma calculateFeatures_nth (data : list LOB.LOBRecord) (k : nat) :
  (k + 10 < length data)%nat ->
  nth k (calculateFeatures data) noFeature = featureAt data (10 + k).
Proof.
  intros Hk. unfold calculateFeatures. apply nth_map_seq. lia.
Qed.

Lemma calculateFeatures_In (data : list LOB.LOBRecord) (f : Feature.FeatureRecord) :
  In f (calculateFeatures data) ->
  exists i, (10 <= i < length data)%nat /\ f = featureAt data i
            /\ In (nth i data noRecord) data.
Proof.
  unfold calculateFeatures. intros Hin. apply in_map_iff in Hin.
  destruct Hin as (i & Hf & Hi). apply in_seq in Hi.
  exists i. split; [lia|]. split; [now symmetry|]. apply nth_In. lia.
Qed.

(** X7. The feature vector at position [k] describes the snapshot at position
    [k + 10]: its time stamp, mid price, spread, order-flow imbalance, total
    bid and ask volumes and volatility are those of that snapshot, unchanged. *)
Theorem feature_describes_snapshot (data : list LOB.LOBRecord) (k : nat) :
  (k + 10 < length data)%nat ->
  let f := nth k (calculateFeatures data) noFeature in
  let r := nth (k + 10) data noRecord in
  Feature.timestamp f = LOB.timestamp r
  /\ Feature.midPrice f = LOB.midPrice r
  /\ Feature.spread f = LOB.spread r
  /\ Feature.orderFlowImbalance f = LOB.orderImbalance r
  /\ Feature.totalBidVolume f = LOB.totalBidVolume r
  /\ Feature.totalAskVolume f = LOB.totalAskVolume r
  /\ Feature.volatility f = LOB.volatility r.
Proof.
  intros Hk f r. subst f r. rewrite calculateFeatures_nth by exact Hk.
  rewrite (Nat.add_comm k 10). repeat split; reflexivity.
Qed.

Lemma feature_describes_snapshot_witness :
  Feature.midPrice (nth 1 (calculateFeatures tinyMoveData) noFeature)
  = LOB.midPrice (nth 11 tinyMoveData noRecord).
Proof.
  assert (H : (1 + 10 < length tinyMoveData)%nat) by (simpl; lia).
  exact (proj1 (proj2 (feature_describes_snapshot tinyMoveData 1 H))).
Defined.

(** ** Depth imbalance *)

Lemma Math_round_scaled_range (lo hi : Z) (scale : Z) (x : R) :
  (0 < scale)%Z -> IZR lo <= x <= IZR hi ->
  IZR lo <= Math_round (x * IZR scale) / IZR scale <= IZR hi.
Proof.
  intros Hs [Hlo Hhi]. assert (Hpos : 0 < IZR scale) by now apply IZR_lt.
  assert (L : Math_round (IZR (lo * scale)) <= Math_round (x * IZR scale)).
  { apply Math_round_le. rewrite mult_IZR. nra. }
  assert (U : Math_round (x * IZR scale) <= Math_round (IZR (hi * scale))).
  { apply Math_round_le. rewrite mult_IZR. nra. }
  rewrite Math_round_IZR, mult_IZR in L, U.
  split.
  - apply (Rmult_le_reg_r (IZR scale)); [exact Hpos|]. field_simplify; lra.
  - apply (Rmult_le_reg_r (IZR scale)); [exact Hpos|]. field_simplify; lra.
Qed.

Lemma depthImbalance_featureAt (data : list LOB.LOBRecord) (i : nat) :
  let r := nth i data noRecord in
  let f := featureAt data i in
  0 <= LOB.totalBidVolume r -> 0 <= LOB.totalAskVolume r ->
  -1 <= Feature.depthImbalance f <= 1
  /\ (LOB.totalBidVolume r + LOB.totalAskVolume r = 0 ->
      Feature.depthImbalance f = 0).
Proof.
  intros r f Hb Ha. subst f. unfold featureAt. cbn [Feature.depthImbalance].
  fold r. set (b := LOB.totalBidVolume r) in *. set (a := LOB.totalAskVolume r) in *.
  unfold gt. destruct (Rlt_dec 0 (b + a)) as [Hpos|Hnot].
  - split; [|lra].
    assert (Hd : -1 <= (b - a) / (b + a) <= 1).
    { split.
      - apply (Rmult_le_reg_r (b + a)); [exact Hpos|]. field_simplify; lra.
      - apply (Rmult_le_reg_r (b + a)); [exact Hpos|]. field_simplify; lra. }
    apply (Math_round_scaled_range (-1) 1 10000); [lia | exact Hd].
  - rewrite Rmult_0_l, (Math_round_IZR 0). split; lra.
Qed.

(** X8. When the total bid and ask volumes of the snapshots are not negative,
    the [depthImbalance] of every feature vector lies in [[-1, 1]], and it is 0
    when both volumes are 0 (the division is guarded). *)
Theorem depthImbalance_bounds (data : list LOB.LOBRecord) :
  Forall nonNegativeTotals data ->
  Forall (fun f => -1 <= Feature.depthImbalance f <= 1
                   /\ (Feature.totalBidVolume f + Feature.totalAskVolume f = 0 ->
                       Feature.depthImbalance f = 0))
         (calculateFeatures data).
Proof.
  intros Hdata. apply Forall_forall. intros f Hf.
  apply calculateFeatures_In in Hf. destruct Hf as (i & _ & -> & Hin).
  rewrite Forall_forall in Hdata. destruct (Hdata _ Hin) as [Hb Ha].
  exact (depthImbalance_featureAt data i Hb Ha).
Qed.

Lemma depthImbalance_bounds_witness :
  Forall (fun f => -1 <= Feature.depthImbalance f <= 1
                   /\ (Feature.totalBidVolume f + Feature.totalAskVolume f = 0 ->
                       Feature.depthImbalance f = 0))
         (calculateFeatures tinyMoveData).
Proof.
  apply depthImbalance_bounds.
  unfold tinyMoveData. apply Forall_app. split.
  - apply Forall_forall. intros r Hr. apply repeat_spec in Hr. subst r.
    unfold nonNegativeTotals. simpl. lra.
  - repeat constructor; simpl; lra.
Defined.

(** ** The variance of the lookback window *)

Lemma sumOf_nonneg (l : list R) : Forall (fun x => 0 <= x) l -> 0 <= sumOf l.
Proof.
  unfold sumOf. induction 1 as [|x l Hx _ IH]; simpl; lra.
Qed.








(** ** The label of the last feature vector *)

Lemma rawFutureReturn_last (data : list LOB.LOBRecord) :
  rawFutureReturn data (length data - 1) = 0.
Proof.
  unfold rawFutureReturn. rewrite Nat.ltb_irrefl. reflexivity.
Qed.

(** X10. The last feature vector describes the last snapshot, which has no
    successor: its [futureReturn] is 0 and its [futureDirection] is 0. *)
Theorem last_feature_has_no_label (data : list LOB.LOBRecord) :
  (10 < length data)%nat ->
  let f := last (calculateFeatures data) noFeature in
  f = featureAt data (length data - 1)
  /\ Feature.futureReturn f = 0
  /\ Feature.futureDirection f = 0.
Proof.
  intros Hlen f.
  assert (Hf : f = featureAt data (length data - 1)).
  { subst f. rewrite <- nth_length_pred_last.
    assert (Hl : length (calculateFeatures data) = (length data - 10)%nat).
    { unfold calculateFeatures. now rewrite length_map, length_seq. }
    rewrite Hl, calculateFeatures_nth by lia. f_equal. lia. }
  split; [exact Hf|]. rewrite Hf.
  destruct (futureDirection_featureAt data (length data - 1)) as (Hd & Hr & _).
  cbn zeta in Hd, Hr. rewrite Hd, Hr, rawFutureReturn_last.
  split.
  - rewrite Rmult_0_l, (Math_round_IZR 0). lra.
  - apply sign_zero.
Qed.

Lemma last_feature_has_no_label_witness :
  Feature.futureReturn (last (calculateFeatures tinyMoveData) noFeature) = 0
  /\ Feature.futureDirection (last (calculateFeatures tinyMoveData) noFeature) = 0.
Proof.
  assert (H : (10 < length tinyMoveData)%nat) by (simpl; lia).
  exact (proj2 (last_feature_has_no_label tinyMoveData H)).
Defined.

(** ** The error statistics of [calcMetrics] *)

Lemma reduce_from_sum {A} (g : A -> nat -> R) (whole : list A) :
  forall arr i s,
    reduce_from (fun s a i _ => s + g a i) whole i arr s
    = s + sumOf (mapi_from g i arr).
Proof.
  unfold sumOf. induction arr as [|x arr IH]; intros i s; simpl; [lra|].
  rewrite IH. lra.
Qed.

Lemma reducei_sum {A} (g : A -> nat -> R) (l : list A) :
  reducei (fun s a i _ => s + g a i) 0 l = sumOf (mapi g l).
Proof. unfold reducei, mapi. rewrite reduce_from_sum. lra. Qed.

Lemma mapi_from_map {A B C} (e : A -> nat -> B) (h : B -> C) (l : list A) :
  forall i, mapi_from (fun a i => h (e a i)) i l = map h (mapi_from e i l).
Proof.
  induction l as [|x l IH]; intros i; simpl; [reflexivity|]. now rewrite IH.
Qed.

Lemma mse_as_sum (actual predicted : list R) :
  mse (calcMetrics actual predicted)
  = sumOf (map (fun e => e ^ 2) (errorsOf actual predicted))
    / INR (length actual).
Proof.
  unfold calcMetrics, errorsOf. cbn [mse].
  rewrite (reducei_sum (fun a i => (a - nth i predicted 0) ^ 2)).
  unfold mapi. now rewrite (mapi_from_map (fun a i => a - nth i predicted 0)
                              (fun e => e ^ 2)).
Qed.

Lemma mae_as_sum (actual predicted : list R) :
  mae (calcMetrics actual predicted)
  = sumOf (map Rabs (errorsOf actual predicted)) / INR (length actual).
Proof.
  unfold calcMetrics, errorsOf, Math_abs. cbn [mae].
  rewrite (reducei_sum (fun a i => Rabs (a - nth i predicted 0))).
  unfold mapi. now rewrite (mapi_from_map (fun a i => a - nth i predicted 0) Rabs).
Qed.

Lemma errorsOf_length (actual predicted : list R) :
  length (errorsOf actual predicted) = length actual.
Proof. unfold errorsOf, mapi. apply mapi_from_length. Qed.

Lemma sum_abs_nonneg (l : list R) : 0 <= sumOf (map Rabs l).
Proof.
  apply sumOf_nonneg, Forall_forall. intros x Hx.
  apply in_map_iff in Hx. destruct Hx as (e & <- & _). apply Rabs_pos.
Qed.

(** X11. For non-empty streams of equal length, the metrics calculator
    returns a mean squared error, a mean absolute error and a root mean
    squared error that are not negative; the root mean squared error is
    [Math.sqrt] of the mean squared error. *)
Theorem calcMetrics_error_statistics (actual predicted : list R) :
  length predicted = length actual ->
  actual <> [] ->
  let m := calcMetrics actual predicted in
  0 <= mse m /\ 0 <= mae m /\ 0 <= rmse m
  /\ rmse m = Math_sqrt (mse m).
Proof.
  intros _ Hne m.
  assert (Hn : 0 < INR (length actual)).
  { apply lt_0_INR. destruct actual; [congruence | simpl; lia]. }
  assert (Hmse : mse m = sumOf (map (fun e => e ^ 2) (errorsOf actual predicted))
                         / INR (length actual)) by apply mse_as_sum.
  assert (Hmae : mae m = sumOf (map Rabs (errorsOf actual predicted))
                         / INR (length actual)) by apply mae_as_sum.
  assert (Hrmse : rmse m = Math_sqrt (mse m)) by reflexivity.
  assert (Q : 0 <= sumOf (map (fun e => e ^ 2) (errorsOf actual predicted))).
  { apply sumOf_nonneg, Forall_forall. intros x Hx.
    apply in_map_iff in Hx. destruct Hx as (e & <- & _). apply pow2_ge_0. }
  assert (S := sum_abs_nonneg (errorsOf actual predicted)).
  split.
  { rewrite Hmse. apply Rmult_le_pos; [exact Q|].
    apply Rlt_le, Rinv_0_lt_compat, Hn. }
  split.
  { rewrite Hmae. apply Rmult_le_pos; [exact S|].
    apply Rlt_le, Rinv_0_lt_compat, Hn. }
  split; [rewrite Hrmse; apply sqrt_pos | exact Hrmse].
Qed.

Lemma calcMetrics_error_statistics_witness :
  let m := calcMetrics [1; 1] [2; 1] in
  0 <= mse m /\ 0 <= mae m /\ 0 <= rmse m
  /\ rmse m = Math_sqrt (mse m).
Proof.
  assert (Hlen : length [2; 1] = length [1; 1]) by reflexivity.
  assert (Hne : [1; 1] <> []) by discriminate.
  exact (calcMetrics_error_statistics [1; 1] [2; 1] Hlen Hne).
Defined.

(** ** The range of the direction accuracy *)

Lemma countWhere_range (p : nat -> bool) (indexes : list nat) :
  0 <= countWhere p indexes <= INR (length indexes).
Proof.
  unfold countWhere. split; [apply pos_INR|].
  apply le_INR, filter_length_le.
Qed.

Lemma INR_pred (n : nat) : (1 <= n)%nat -> INR (n - 1) = INR n - 1.
Proof. intros H. rewrite minus_INR by exact H. reflexivity. Qed.

(** X12. For streams of equal length [n >= 2] the direction accuracy is a
    percentage: it lies between 0 and 100. *)
Theorem directionAccuracy_range (actual predicted : list R) :
  length predicted = length actual ->
  (2 <= length actual)%nat ->
  0 <= directionAccuracy (calcMetrics actual predicted) <= 100.
Proof.
  intros _ Hn. unfold calcMetrics. cbn [directionAccuracy].
  rewrite countCorrectDir_filter, Rplus_0_l.
  set (p := fun i => Bool.eqb (risesAt actual i) (risesAt predicted i)).
  assert (R := countWhere_range p (seq 1 (length actual - 1))).
  rewrite length_seq, INR_pred in R by lia.
  assert (H1 : 1 < INR (length actual)).
  { replace 1 with (INR 1) by reflexivity. apply lt_INR. lia. }
  set (c := countWhere p (seq 1 (length actual - 1))) in *.
  set (d := INR (length actual) - 1) in *.
  assert (Hd : 0 < d) by (subst d; lra).
  split.
  - apply Rmult_le_pos; [|lra]. apply Rmult_le_pos; [lra|].
    apply Rlt_le, Rinv_0_lt_compat, Hd.
  - apply (Rmult_le_reg_r d); [exact Hd|].
    replace (c / d * 100 * d) with (c * 100) by (field; lra). nra.
Qed.

Lemma directionAccuracy_range_witness :
  0 <= directionAccuracy (calcMetrics [1; 1] [2; 1]) <= 100.
Proof.
  apply directionAccuracy_range; [reflexivity | simpl; lia].
Defined.

(** ** A perfect prediction *)

Lemma self_errors_zero (whole : list R) :
  forall arr i,
    arr = skipn i whole ->
    mapi_from (fun a j => a - nth j whole 0) i arr = map (fun _ => 0) arr.
Proof.
  induction arr as [|x arr IH]; intros i Harr; [reflexivity|].
  simpl. f_equal.
  - assert (Hx : nth i whole 0 = x).
    { rewrite <- (Nat.add_0_r i), <- nth_skipn, <- Harr. reflexivity. }
    rewrite Hx. lra.
  - apply IH. change (S i) with (1 + i)%nat.
    rewrite <- skipn_skipn, <- Harr. reflexivity.
Qed.

Lemma sumOf_zeros {A} (h : R -> R) (l : list A) :
  h 0 = 0 -> sumOf (map h (map (fun _ => 0) l)) = 0.
Proof.
  intros Hh. unfold sumOf. induction l as [|x l IH]; simpl; [reflexivity|].
  rewrite IH, Hh. lra.
Qed.

Lemma filter_all_true {A} (p : A -> bool) (l : list A) :
  (forall x, p x = true) -> filter p l = l.
Proof.
  intros Hp. induction l as [|x l IH]; simpl; [reflexivity|].
  now rewrite Hp, IH.
Qed.

(** X13. A prediction equal to the actual stream (of length at least 2) has
    mean squared error, root mean squared error and mean absolute error 0 and
    direction accuracy 100. *)
Theorem calcMetrics_perfect_prediction (actual : list R) :
  (2 <= length actual)%nat ->
  calcMetrics actual actual
  = {| mse := 0; rmse := 0; mae := 0; directionAccuracy := 100 |}.
Proof.
  intros Hn.
  assert (H1 : 1 < INR (length actual)).
  { replace 1 with (INR 1) by reflexivity. apply lt_INR. lia. }
  assert (He : errorsOf actual actual = map (fun _ => 0) actual).
  { unfold errorsOf, mapi. now apply self_errors_zero. }
  assert (Hmse : mse (calcMetrics actual actual) = 0).
  { rewrite mse_as_sum, He, sumOf_zeros by (simpl; lra). unfold Rdiv. lra. }
  assert (Hmae : mae (calcMetrics actual actual) = 0).
  { rewrite mae_as_sum, He, sumOf_zeros by apply Rabs_R0. unfold Rdiv. lra. }
  assert (Hrmse : rmse (calcMetrics actual actual) = 0).
  { change (rmse (calcMetrics actual actual))
      with (sqrt (mse (calcMetrics actual actual))).
    rewrite Hmse. apply sqrt_0. }
  assert (Hdir : directionAccuracy (calcMetrics actual actual) = 100).
  { unfold calcMetrics. cbn [directionAccuracy].
    rewrite countCorrectDir_filter, Rplus_0_l. unfold countWhere.
    rewrite filter_all_true by (intros i; apply eqb_reflx).
    rewrite length_seq, INR_pred by lia. field. lra. }
  destruct (calcMetrics actual actual) as [m r a d]. cbn in *. now subst.
Qed.

Lemma calcMetrics_perfect_prediction_witness :
  calcMetrics [150; 151; 149] [150; 151; 149]
  = {| mse := 0; rmse := 0; mae := 0; directionAccuracy := 100 |}.
Proof.
  apply calcMetrics_perfect_prediction. simpl. lia.
Defined.

(** ** The price prediction in closed form *)

(** The first differences of a list add up to its last element minus its
    first. *)
Lemma firstDifferences_telescope (l : list R) :
  sumOf (firstDifferences l) = nth (length l - 1) l 0 - nth 0 l 0.
Proof.
  induction l as [|x l IH]; [unfold sumOf; simpl; lra|].
  destruct l as [|y l]; [unfold sumOf; simpl; lra|].
  rewrite firstDifferences_cons2.
  replace (length (x :: y :: l) - 1)%nat with (S (length l)) by (simpl; lia).
  replace (length (y :: l) - 1)%nat with (length l) in IH by (simpl; lia).
  change (nth (S (length l)) (x :: y :: l) 0) with (nth (length l) (y :: l) 0).
  unfold sumOf in *. cbn [fold_right]. rewrite IH. simpl nth. lra.
Qed.

Lemma predictFrom_closed_form (prices : list R) (i : nat) :
  (10 <= i <= length prices)%nat ->
  predictFrom (firstn i prices)
  = nth (i - 1) prices 0
    + 0.7 * ((nth (i - 1) prices 0 - nth (i - 10) prices 0) / 9).
Proof.
  intros Hi.
  assert (Hlen : length (firstn i prices) = i) by (apply firstn_length_le; lia).
  unfold predictFrom. rewrite reducei_differences, firstDifferences_telescope.
  rewrite slice_last_length by lia. unfold slice_last.
  rewrite !nth_skipn, !Hlen, !nth_firstn.
  replace (i - 10 + (10 - 1))%nat with (i - 1)%nat by lia.
  rewrite Nat.add_0_r.
  destruct (Nat.ltb_spec (i - 1) i) as [_|C]; [|lia].
  destruct (Nat.ltb_spec (i - 10) i) as [_|C]; [|lia].
  lra.
Qed.

(** X14. When the training region holds at least 10 mid prices, the
    prediction at test index [i] is
    [p(i-1) + 0.7 * (p(i-1) - p(i-10)) / 9]: the nine first differences
    telescope, so the prediction depends on the mid prices one and ten steps
    back only. *)
Theorem price_prediction_closed_form (features : list Feature.FeatureRecord) :
  let prices := pricesOf features in
  let trainSize := trainSizeOf prices in
  let testIndexes := seq trainSize (length prices - trainSize) in
  (10 <= trainSize)%nat ->
  map Arima.predicted (arimaResults (runTimeSeriesAnalysis features))
  = map (fun i => nth (i - 1) prices 0
                  + 0.7 * ((nth (i - 1) prices 0 - nth (i - 10) prices 0) / 9))
        testIndexes.
Proof.
  intros prices trainSize testIndexes Ht.
  unfold runTimeSeriesAnalysis. cbn [arimaResults].
  fold prices. fold trainSize. fold testIndexes.
  assert (Hle := trainSizeOf_le prices). fold trainSize in Hle.
  unfold slice. rewrite Nat.sub_0_r. simpl skipn.
  subst testIndexes. rewrite arimaLoop_predicted by lia.
  apply map_ext_in. intros i Hi. apply in_seq in Hi.
  apply predictFrom_closed_form. lia.
Qed.

Lemma price_prediction_closed_form_witness :
  map Arima.predicted (arimaResults (runTimeSeriesAnalysis risingFeatures))
  = map (fun i => nth (i - 1) (pricesOf risingFeatures) 0
                  + 0.7 * ((nth (i - 1) (pricesOf risingFeatures) 0
                            - nth (i - 10) (pricesOf risingFeatures) 0) / 9))
        (seq (trainSizeOf (pricesOf risingFeatures))
             (length (pricesOf risingFeatures)
              - trainSizeOf (pricesOf risingFeatures))).
Proof.
  apply price_prediction_closed_form.
  rewrite risingFeatures_trainSize. lia.
Defined.

(** ** The conditional variance stays above [omega] *)

Lemma garchUpdate_lower (condVar r : R) :
  omega <= condVar -> omega <= garchUpdate condVar r.
Proof.
  unfold garchUpdate, omega, alpha, beta. intros H.
  assert (0 <= r * r) by nra. nra.
Qed.

Lemma garchWarmup_lower (trainReturns : list R) :
  forall condVar, omega <= condVar -> omega <= garchWarmup trainReturns condVar.
Proof.
  unfold garchWarmup.
  induction trainReturns as [|r rest IH]; intros condVar H; simpl; [exact H|].
  apply IH, garchUpdate_lower, H.
Qed.

Lemma garchLoop_wellFormed features returns indexes :
  forall condVar,
    omega <= condVar ->
    Forall wellFormedVolForecast (garchLoop features returns indexes condVar).
Proof.
  induction indexes as [|i rest IH]; intros condVar H; simpl; constructor.
  - unfold wellFormedVolForecast, Math_sqrt, Math_abs. simpl.
    assert (0 < condVar) by (unfold omega in H; lra).
    repeat split.
    + exact H.
    + apply sqrt_lt_R0. assumption.
    + apply Rabs_pos.
  - apply IH, garchUpdate_lower, H.
Qed.

(** X15. For features with positive mid prices, every volatility forecast
    point has a conditional variance of at least [omega = 1e-5], a
    [forecastVolatility] that is [Math.sqrt] of that conditional variance and
    is positive, and an [actualVolatility] that is not negative. *)
Theorem garch_forecasts_wellFormed (features : list Feature.FeatureRecord) :
  Forall (fun f => 0 < Feature.midPrice f) features ->
  Forall wellFormedVolForecast (garchResults (runTimeSeriesAnalysis features)).
Proof.
  intros _. unfold runTimeSeriesAnalysis. cbn [garchResults].
  apply garchLoop_wellFormed, garchWarmup_lower.
  unfold omega, initialCondVar. lra.
Qed.

Lemma garch_forecasts_wellFormed_witness :
  Forall wellFormedVolForecast (garchResults (runTimeSeriesAnalysis flatFeatures)).
Proof.
  apply garch_forecasts_wellFormed.
  unfold flatFeatures. apply Forall_forall. intros f Hf.
  apply in_map_iff in Hf. destruct Hf as (i & <- & _). simpl. lra.
Defined.

(** ** Time stamps of the forecast streams *)

Lemma arimaLoop_timestamps features prices indexes :
  forall history,
    map Arima.timestamp (arimaLoop features prices indexes history)
    = map (fun i => Feature.timestamp (nth i features noFeature)) indexes.
Proof.
  induction indexes as [|i rest IH]; intros history; simpl; [reflexivity|].
  now rewrite IH.
Qed.

Lemma garchLoop_timestamps features returns indexes :
  (forall i, In i indexes -> (i + 1 < length features)%nat) ->
  forall condVar,
    map Garch.timestamp (garchLoop features returns indexes condVar)
    = map (fun i => Feature.timestamp (nth (i + 1) features noFeature)) indexes.
Proof.
  induction indexes as [|i rest IH]; intros Hin condVar; simpl; [reflexivity|].
  rewrite IH by (intros k Hk; apply Hin; now right).
  f_equal.
  assert (Hi : (i + 1 < length features)%nat) by (apply Hin; now left).
  destruct (nth_error features (i + 1)) as [f|] eqn:E.
  - apply (nth_error_nth _ _ noFeature) in E. now rewrite E.
  - apply nth_error_None in E. lia.
Qed.

Lemma map_nth_map_seq_skipn {A B} (g : A -> B) (l : list A) (d : A) (t : nat) :
  map (fun i => g (nth i l d)) (seq t (length l - t)) = skipn t (map g l).
Proof.
  rewrite <- (map_map (fun i => nth i l d) g), map_nth_seq_skipn.
  symmetry. apply skipn_map.
Qed.

(** X16. The price forecast points carry the time stamps of the features of
    the test region, in order, and the volatility forecast points those of the
    features one position further: the point made for return [i] carries the
    time stamp of feature [i + 1], which always exists, so the fallback to
    feature [i] is never taken. *)
Theorem forecast_timestamps (features : list Feature.FeatureRecord) :
  let r := runTimeSeriesAnalysis features in
  let trainSize := trainSizeOf (pricesOf features) in
  let times := map Feature.timestamp features in
  map Arima.timestamp (arimaResults r) = skipn trainSize times
  /\ map Garch.timestamp (garchResults r) = skipn (trainSize + 1) times.
Proof.
  intros r trainSize times. subst r. unfold runTimeSeriesAnalysis.
  cbn [arimaResults garchResults]. fold trainSize.
  assert (Hm : length (pricesOf features) = length features) by apply length_map.
  split.
  - rewrite arimaLoop_timestamps, Hm. apply map_nth_map_seq_skipn.
  - rewrite garchLoop_timestamps.
    + rewrite returnsOf_length, Hm.
      subst times. rewrite <- (map_nth_map_seq_skipn _ _ noFeature).
      replace (length features - (trainSize + 1))%nat
        with (length features - 1 - trainSize)%nat by lia.
      rewrite (Nat.add_comm trainSize 1). simpl Nat.add.
      rewrite <- seq_shift, map_map.
      apply map_ext. intros i. now rewrite Nat.add_1_r.
    + intros i Hi. apply in_seq in Hi. rewrite returnsOf_length, Hm in Hi. lia.
Qed.

(** ** Volatility regimes *)

Lemma slice_last_map {A B} (g : A -> B) (k : nat) (l : list A) :
  map g (slice_last k l) = slice_last k (map g l).
Proof. unfold slice_last. now rewrite length_map, skipn_map. Qed.

(** X17. The regime classifier labels the last 500 features, or all of them
    when there are fewer: it returns [min(500, m)] points, which carry the
    time stamps and the volatilities of those features, in order. *)
Theorem regimes_cover_recent_features (features : list Feature.FeatureRecord) :
  let r := runTimeSeriesAnalysis features in
  length (volatilityRegimes r) = Nat.min 500 (length features)
  /\ map Regime.timestamp (volatilityRegimes r)
     = slice_last 500 (map Feature.timestamp features)
  /\ map Regime.volatility (volatilityRegimes r)
     = slice_last 500 (map Feature.volatility features).
Proof.
  intros r. subst r. unfold runTimeSeriesAnalysis. cbn [volatilityRegimes].
  repeat split.
  - rewrite length_map. unfold slice_last. rewrite length_skipn. lia.
  - rewrite map_map. cbn [Regime.timestamp]. apply slice_last_map.
  - rewrite map_map. cbn [Regime.volatility]. apply slice_last_map.
Qed.

Lemma sumOf_above (c : R) (l : list R) :
  l <> [] -> Forall (fun x => c < x) l -> INR (length l) * c < sumOf l.
Proof.
  unfold sumOf. intros Hne H. induction H as [|x l Hx Hl IH]; [congruence|].
  cbn [fold_right length]. rewrite S_INR.
  destruct l as [|y l].
  - simpl. lra.
  - assert (IH' := IH ltac:(discriminate)). lra.
Qed.

Lemma sumOf_below (c : R) (l : list R) :
  l <> [] -> Forall (fun x => x < c) l -> sumOf l < INR (length l) * c.
Proof.
  unfold sumOf. intros Hne H. induction H as [|x l Hx Hl IH]; [congruence|].
  cbn [fold_right length]. rewrite S_INR.
  destruct l as [|y l].
  - simpl. lra.
  - assert (IH' := IH ltac:(discriminate)). lra.
Qed.

Lemma regime_eq_dec (a b : RegimeLabel) : {a = b} + {a <> b}.
Proof. decide equality. Qed.

(** X18. The thresholds are relative to the mean volatility of the whole
    sequence: for a non-empty sequence of at most 500 features with
    volatilities that are not negative, the regimes are never all [high] and
    never all [low]. *)
Theorem regimes_not_all_extreme (features : list Feature.FeatureRecord) :
  features <> [] ->
  (length features <= 500)%nat ->
  Forall (fun f => 0 <= Feature.volatility f) features ->
  let r := runTimeSeriesAnalysis features in
  Exists (fun pt => Regime.regime pt <> high) (volatilityRegimes r)
  /\ Exists (fun pt => Regime.regime pt <> low) (volatilityRegimes r).
Proof.
  intros Hne Hlen Hpos r. subst r. unfold runTimeSeriesAnalysis.
  cbn [volatilityRegimes].
  unfold slice_last. replace (length features - 500)%nat with 0%nat by lia.
  simpl skipn. rewrite (reduce_sum Feature.volatility), Rplus_0_l.
  set (vols := map Feature.volatility features).
  set (n := INR (length features)).
  assert (Hn : 0 < n).
  { subst n. apply lt_0_INR. destruct features; [congruence | simpl; lia]. }
  assert (Hvne : vols <> []).
  { subst vols. destruct features; [congruence | discriminate]. }
  assert (Hvlen : INR (length vols) = n) by (subst vols n; now rewrite length_map).
  assert (Hsum : 0 <= sumOf vols).
  { apply sumOf_nonneg. subst vols. rewrite Forall_forall in *.
    intros x Hx. apply in_map_iff in Hx. destruct Hx as (f & <- & Hf). now apply Hpos. }
  set (avg := sumOf vols / n).
  assert (Havg : avg * n = sumOf vols) by (subst avg; field; lra).
  split.
  - apply neg_Forall_Exists_neg; [intros pt; apply regime_eq_dec|].
    intros Hall.
    assert (Habove : Forall (fun x => avg * 1.5 < x) vols).
    { subst vols. rewrite Forall_forall in *. intros x Hx.
      apply in_map_iff in Hx. destruct Hx as (f & <- & Hf).
      specialize (Hall _ (in_map _ _ _ Hf)). cbn [Regime.regime] in Hall.
      unfold gt in Hall. destruct (Rlt_dec (avg * 1.5) (Feature.volatility f));
        [assumption|].
      destruct (lt _ _); discriminate. }
    apply (sumOf_above _ _ Hvne) in Habove. rewrite Hvlen in Habove. nra.
  - apply neg_Forall_Exists_neg; [intros pt; apply regime_eq_dec|].
    intros Hall.
    assert (Hbelow : Forall (fun x => x < avg * 0.5) vols).
    { subst vols. rewrite Forall_forall in *. intros x Hx.
      apply in_map_iff in Hx. destruct Hx as (f & <- & Hf).
      specialize (Hall _ (in_map _ _ _ Hf)). cbn [Regime.regime] in Hall.
      destruct (gt _ _); [discriminate|].
      unfold lt in Hall. destruct (Rlt_dec (Feature.volatility f) (avg * 0.5));
        [assumption | discriminate]. }
    apply (sumOf_below _ _ Hvne) in Hbelow. rewrite Hvlen in Hbelow. nra.
Qed.

Lemma regimes_not_all_extreme_witness :
  Exists (fun pt => Regime.regime pt <> high)
         (volatilityRegimes (runTimeSeriesAnalysis shortFeatures))
  /\ Exists (fun pt => Regime.regime pt <> low)
            (volatilityRegimes (runTimeSeriesAnalysis shortFeatures)).
Proof.
  apply regimes_not_all_extreme.
  - discriminate.
  - simpl. lia.
  - repeat constructor; simpl; lra.
Defined.

(** ** Loading the data of the dashboard *)

Lemma loadData_inv numRecords src state rest :
  loadData numRecords src = Some (state, rest) ->
  exists data,
    generateLOBData numRecords src = Some (data, rest)
    /\ Dashboard.lobData state = data
    /\ Dashboard.features state = calculateFeatures data
    /\ Dashboard.analysisResults state
       = runTimeSeriesAnalysis (calculateFeatures data)
    /\ Dashboard.totalRecords (Dashboard.dataStats state) = length data
    /\ Dashboard.avgSpread (Dashboard.dataStats state)
       = sumOf (map LOB.spread data) / INR (length data)
    /\ Dashboard.avgVolatility (Dashboard.dataStats state)
       = sumOf (map LOB.volatility data) / INR (length data)
    /\ Dashboard.priceRange (Dashboard.dataStats state)
       = {| Dashboard.min := Math_min_of (map LOB.midPrice data);
            Dashboard.max := Math_max_of (map LOB.midPrice data) |}.
Proof.
  intros H. unfold loadData in H.
  invert_bind_as H data s Hgen. apply ret_Some_inv in H. destruct H as [<- <-].
  exists data. cbn. rewrite !(reduce_sum (fun x => x)), !map_id, !length_map, !Rplus_0_l.
  repeat split; try reflexivity. exact Hgen.
Qed.

Lemma loadData_sizes (numRecords : Z) (src : source) :
  (11 <= numRecords)%Z ->
  Forall (fun u => u <> 0) src ->
  (38 * Z.to_nat numRecords <= length src)%nat ->
  exists state,
    loadData numRecords src = Some (state, skipn (38 * Z.to_nat numRecords) src)
    /\ let n := Z.to_nat numRecords in
       let m := (n - 10)%nat in
       let r := Dashboard.analysisResults state in
       length (Dashboard.lobData state) = n
       /\ Dashboard.totalRecords (Dashboard.dataStats state) = n
       /\ length (Dashboard.features state) = m
       /\ length (arimaResults r) = (m - 4 * m / 5)%nat
       /\ length (garchResults r) = (m - 4 * m / 5 - 1)%nat
       /\ length (volatilityRegimes r) = Nat.min 500 m.
Proof.
  intros Hn Hnz Hlen.
  destruct (reads_ticksFrom (Z.to_nat numRecords) 0 initialState src Hnz Hlen)
    as [data Hrun].
  assert (Hgen : generateLOBData numRecords src
                 = Some (data, skipn (38 * Z.to_nat numRecords) src)) by exact Hrun.
  assert (Hdata : length data = Z.to_nat numRecords).
  { eapply ticksFrom_length. exact Hrun. }
  eexists. split.
  - unfold loadData. rewrite (bind_Some _ _ _ _ _ Hgen). reflexivity.
  - cbn [Dashboard.lobData Dashboard.dataStats Dashboard.totalRecords
         Dashboard.features Dashboard.analysisResults].
    set (n := Z.to_nat numRecords) in *. cbn zeta.
    assert (Hf : length (calculateFeatures data) = (n - 10)%nat).
    { unfold calculateFeatures. rewrite length_map, length_seq, Hdata. reflexivity. }
    assert (Hp : length (pricesOf (calculateFeatures data)) = (n - 10)%nat).
    { unfold pricesOf. now rewrite length_map. }
    unfold runTimeSeriesAnalysis.
    cbn [arimaResults garchResults volatilityRegimes].
    rewrite arimaLoop_length, garchLoop_length, !length_seq, returnsOf_length,
      trainSizeOf_div, Hp, length_map.
    unfold slice_last. rewrite length_skipn, Hf.
    repeat split; try assumption; lia.
Qed.

Lemma initializeData_runs (src : source) :
  Forall (fun u => u <> 0) src ->
  (190000 <= Z.of_nat (length src))%Z ->
  exists state, initializeData src = Some (state, skipn (Z.to_nat 190000) src).
Proof.
  intros Hnz Hlen. unfold initializeData.
  assert (E : (38 * Z.to_nat 5000 = Z.to_nat 190000)%nat) by lia.
  destruct (loadData_sizes 5000 src) as (state & Hload & _); [lia | exact Hnz | lia |].
  exists state. rewrite <- E. exact Hload.
Qed.

(** X19. Whatever the random source returns, as long as it never returns 0
    and holds the 190000 values needed, the dashboard loads 5000 snapshots,
    4990 feature vectors, 998 price forecast points, 997 volatility forecast
    points and 500 regime points, and reports 5000 as the number of records. *)
Theorem initializeData_sizes (src : source) :
  Forall (fun u => u <> 0) src ->
  (190000 <= Z.of_nat (length src))%Z ->
  exists state,
    initializeData src = Some (state, skipn (Z.to_nat 190000) src)
    /\ Z.of_nat (length (Dashboard.lobData state)) = 5000%Z
    /\ Z.of_nat (Dashboard.totalRecords (Dashboard.dataStats state)) = 5000%Z
    /\ Z.of_nat (length (Dashboard.features state)) = 4990%Z
    /\ Z.of_nat (length (arimaResults (Dashboard.analysisResults state))) = 998%Z
    /\ Z.of_nat (length (garchResults (Dashboard.analysisResults state))) = 997%Z
    /\ Z.of_nat (length (volatilityRegimes (Dashboard.analysisResults state)))
       = 500%Z.
Proof.
  intros Hnz Hlen. unfold initializeData.
  assert (E : (38 * Z.to_nat 5000 = Z.to_nat 190000)%nat) by lia.
  destruct (loadData_sizes 5000 src) as (state & Hload & H1 & H2 & H3 & H4 & H5 & H6).
  - lia.
  - exact Hnz.
  - lia.
  - exists state. rewrite <- E. split; [exact Hload|].
    cbn zeta in H1, H2, H3, H4, H5, H6.
    assert (Hm : (Z.to_nat 5000 - 10 = 4990)%nat) by lia.
    rewrite Hm in H3, H4, H5, H6.
    assert (Ht : (4990 - 4 * 4990 / 5 = 998)%nat) by (vm_compute; reflexivity).
    assert (Hr : Nat.min 500 4990 = 500%nat) by (vm_compute; reflexivity).
    rewrite Ht in H4, H5. rewrite Hr in H6.
    rewrite H1, H2, H3, H4, H5, H6.
    repeat split; lia.
Qed.

Lemma initializeData_sizes_witness :
  exists state,
    initializeData (quarterSource (Z.to_nat 190000))
    = Some (state, skipn (Z.to_nat 190000) (quarterSource (Z.to_nat 190000)))
    /\ Z.of_nat (length (Dashboard.lobData state)) = 5000%Z
    /\ Z.of_nat (Dashboard.totalRecords (Dashboard.dataStats state)) = 5000%Z
    /\ Z.of_nat (length (Dashboard.features state)) = 4990%Z
    /\ Z.of_nat (length (arimaResults (Dashboard.analysisResults state))) = 998%Z
    /\ Z.of_nat (length (garchResults (Dashboard.analysisResults state))) = 997%Z
    /\ Z.of_nat (length (volatilityRegimes (Dashboard.analysisResults state)))
       = 500%Z.
Proof.
  apply initializeData_sizes.
  - apply Forall_nonzero_quarterSource.
  - unfold quarterSource. rewrite repeat_length. lia.
Defined.

(** ** What the dashboard can rely on *)

Lemma Math_min_of_spec (l : list R) :
  l <> [] ->
  In (Math_min_of l) l /\ Forall (fun x => Math_min_of l <= x) l.
Proof.
  destruct l as [|x rest]; [congruence|]. intros _. unfold Math_min_of.
  revert x. induction rest as [|y rest IH]; intros x.
  - simpl. split; [now left | repeat constructor; lra].
  - cbn [fold_left]. destruct (IH (Rmin x y)) as [Hin Hall].
    inversion Hall as [|? ? Hhd Htl]; subst.
    split.
    + destruct Hin as [Hin|Hin].
      * rewrite <- Hin. unfold Rmin. destruct (Rle_dec x y); [now left | right; now left].
      * right; now right.
    + assert (Hx := Rmin_l x y). assert (Hy := Rmin_r x y).
      constructor; [lra|]. constructor; [lra | exact Htl].
Qed.

Lemma Math_max_of_spec (l : list R) :
  l <> [] ->
  In (Math_max_of l) l /\ Forall (fun x => x <= Math_max_of l) l.
Proof.
  destruct l as [|x rest]; [congruence|]. intros _. unfold Math_max_of.
  revert x. induction rest as [|y rest IH]; intros x.
  - simpl. split; [now left | repeat constructor; lra].
  - cbn [fold_left]. destruct (IH (Rmax x y)) as [Hin Hall].
    inversion Hall as [|? ? Hhd Htl]; subst.
    split.
    + destruct Hin as [Hin|Hin].
      * rewrite <- Hin. unfold Rmax. destruct (Rle_dec x y); [right; now left | now left].
      * right; now right.
    + assert (Hx := Rmax_l x y). assert (Hy := Rmax_r x y).
      constructor; [lra|]. constructor; [lra | exact Htl].
Qed.

Lemma sumOf_lower (c : R) (l : list R) :
  Forall (fun x => c <= x) l -> INR (length l) * c <= sumOf l.
Proof.
  unfold sumOf. induction 1 as [|x l Hx _ IH].
  - simpl. lra.
  - cbn [fold_right length]. rewrite S_INR. lra.
Qed.

Lemma mean_lower (c : R) (l : list R) :
  l <> [] -> Forall (fun x => c <= x) l -> c <= sumOf l / INR (length l).
Proof.
  intros Hne H. apply sumOf_lower in H.
  assert (Hn : 0 < INR (length l)).
  { apply lt_0_INR. destruct l; [congruence | simpl; lia]. }
  apply (Rmult_le_reg_r (INR (length l))); [exact Hn|].
  replace (sumOf l / INR (length l) * INR (length l)) with (sumOf l) by (field; lra).
  lra.
Qed.

(** What every generated snapshot offers to the later stages. *)
Lemma generated_snapshots_sound numRecords src data rest :
  generateLOBData numRecords src = Some (data, rest) ->
  Forall (fun r => keptInvariants r /\ totalsAreSums r /\ spreadTracksVolatility r)
         data.
Proof.
  unfold generateLOBData.
  apply (ticksFrom_Forall (fun st _ => 0 <= currentVolatility st)).
  - intros i st s record st' r Hv H.
    destruct (tick_keptInvariants _ _ _ _ _ _ Hv H) as [K Hv'].
    destruct (tick_spreadTracksVolatility _ _ _ _ _ _ Hv H) as [S _].
    split; [|exact Hv']. split; [exact K|]. split; [|exact S].
    eapply tick_totalsAreSums. exact H.
  - unfold initialState, volatility. cbn [currentVolatility]. lra.
Qed.

Lemma featureAt_sound (data : list LOB.LOBRecord) (i : nat) :
  let r := nth i data noRecord in
  keptInvariants r -> totalsAreSums r -> spreadTracksVolatility r ->
  soundFeature (featureAt data i).
Proof.
  intros r K T S.
  destruct K as (Kmid & _ & _ & _ & _ & _ & _ & _ & _ & Kimb).
  destruct T as (_ & _ & Tb & Ta). destruct S as (Ss & Sv & _).
  destruct (depthImbalance_featureAt data i) as [Hd _]; fold r; try lra.
  unfold soundFeature, featureAt in *.
  cbn [Feature.midPrice Feature.spread Feature.orderFlowImbalance
       Feature.totalBidVolume Feature.totalAskVolume Feature.depthImbalance
       Feature.volatility] in *.
  fold r in Hd |- *. repeat split; try lra; apply Hd.
Qed.

(** X20. In the data the dashboard loads, every feature vector has a mid
    price of at least 1 (so no return or momentum divides by zero), a spread
    of at least 0.01, an order-flow imbalance in [[-0.8, 0.8]], total volumes
    of at least 500, a depth imbalance in [[-1, 1]] and a volatility that is
    not negative; every volatility forecast point is well formed; the average
    spread is at least 0.01, the average volatility is not negative, and the
    price range [[min, max]] starts at 1 or above and contains every mid
    price. *)
Theorem initializeData_sound (src : source) (state : Dashboard.DashboardState)
        (rest : source) :
  initializeData src = Some (state, rest) ->
  let stats := Dashboard.dataStats state in
  let lowest := Dashboard.min (Dashboard.priceRange stats) in
  let highest := Dashboard.max (Dashboard.priceRange stats) in
  Forall soundFeature (Dashboard.features state)
  /\ Forall wellFormedVolForecast (garchResults (Dashboard.analysisResults state))
  /\ 0.01 <= Dashboard.avgSpread stats
  /\ 0 <= Dashboard.avgVolatility stats
  /\ 1 <= lowest <= highest
  /\ Forall (fun r => lowest <= LOB.midPrice r <= highest) (Dashboard.lobData state).
Proof.
  intros H. unfold initializeData in H. apply loadData_inv in H.
  destruct H as (data & Hgen & Hdata & Hfeat & Hres & _ & Hspread & Hvol & Hrange).
  cbn zeta. rewrite Hfeat, Hres, Hspread, Hvol, Hrange, Hdata.
  cbn [Dashboard.min Dashboard.max].
  assert (Hsound := generated_snapshots_sound _ _ _ _ Hgen).
  assert (Hlen : length data = Z.to_nat 5000).
  { eapply ticksFrom_length. exact Hgen. }
  assert (Hne : data <> []).
  { intros ->. simpl in Hlen. lia. }
  rewrite Forall_forall in Hsound.
  assert (Hprices : map LOB.midPrice data <> []).
  { destruct data; [congruence | discriminate]. }
  destruct (Math_min_of_spec _ Hprices) as [MinIn MinAll].
  destruct (Math_max_of_spec _ Hprices) as [MaxIn MaxAll].
  rewrite Forall_forall in MinAll, MaxAll.
  repeat match goal with |- _ /\ _ => split end.
  - apply Forall_forall. intros f Hf. apply calculateFeatures_In in Hf.
    destruct Hf as (i & _ & -> & Hin). destruct (Hsound _ Hin) as (K & T & S).
    now apply featureAt_sound.
  - unfold runTimeSeriesAnalysis. cbn [garchResults].
    apply garchLoop_wellFormed, garchWarmup_lower.
    unfold omega, initialCondVar. lra.
  - rewrite <- (length_map LOB.spread).
    apply mean_lower; [destruct data; [congruence | discriminate]|].
    apply Forall_forall. intros x Hx. apply in_map_iff in Hx.
    destruct Hx as (r & <- & Hr). now destruct (Hsound _ Hr) as (_ & _ & S & _).
  - rewrite <- (length_map LOB.volatility).
    apply mean_lower; [destruct data; [congruence | discriminate]|].
    apply Forall_forall. intros x Hx. apply in_map_iff in Hx.
    destruct Hx as (r & <- & Hr). now destruct (Hsound _ Hr) as (_ & _ & _ & S & _).
  - apply in_map_iff in MinIn. destruct MinIn as (r & <- & Hr).
    destruct (Hsound _ Hr) as (K & _). destruct K as (Kmid & _). lra.
  - apply MinAll. exact MaxIn.
  - apply Forall_forall. intros r Hr.
    split; [apply MinAll | apply MaxAll]; now apply in_map.
Qed.

Lemma initializeData_sound_witness :
  exists state rest,
    initializeData (quarterSource (Z.to_nat 190000)) = Some (state, rest)
    /\ Forall soundFeature (Dashboard.features state)
    /\ 0.01 <= Dashboard.avgSpread (Dashboard.dataStats state).
Proof.
  assert (Hlen : (190000 <= Z.of_nat (length (quarterSource (Z.to_nat 190000))))%Z).
  { unfold quarterSource. rewrite repeat_length. lia. }
  destruct (initializeData_runs (quarterSource (Z.to_nat 190000))
              (Forall_nonzero_quarterSource _) Hlen) as (state & Hrun).
  exists state, (skipn (Z.to_nat 190000) (quarterSource (Z.to_nat 190000))).
  split; [exact Hrun|].
  destruct (initializeData_sound _ _ _ Hrun) as (Hf & _ & Hs & _).
  split; [exact Hf | exact Hs].
Defined.

(** ** The direction analysis of the prediction chart *)

Lemma mapi_from_project {A B C} (f : A -> nat -> B) (g : B -> C) (h : A -> C)
      (l : list A) :
  (forall a i, g (f a i) = h a) ->
  forall i, map g (mapi_from f i l) = map h l.
Proof.
  intros Hgf. induction l as [|x l IH]; intros i; simpl; [reflexivity|].
  now rewrite Hgf, IH.
Qed.

Lemma arimaData_actual (results : AnalysisResults) :
  map ArimaDatum.actual (arimaData (Some results))
  = map Arima.actual (arimaResults results).
Proof. unfold arimaData, mapi. now apply mapi_from_project. Qed.

Lemma arimaData_predicted (results : AnalysisResults) :
  map ArimaDatum.predicted (arimaData (Some results))
  = map Arima.predicted (arimaResults results).
Proof. unfold arimaData, mapi. now apply mapi_from_project. Qed.

Lemma arimaData_length (results : AnalysisResults) :
  length (arimaData (Some results)) = length (arimaResults results).
Proof. unfold arimaData, mapi. apply mapi_from_length. Qed.

Lemma directionLoop_spec (arimaData : list ArimaDatum.t) (indexes : list nat) :
  forall acc,
    let res := directionLoop arimaData indexes acc in
    DirectionAnalysis.correct res
    = (DirectionAnalysis.correct acc
       + length (filter (chartAgrees arimaData) indexes))%nat
    /\ (DirectionAnalysis.correct res + DirectionAnalysis.incorrect res
        = DirectionAnalysis.correct acc + DirectionAnalysis.incorrect acc
          + length indexes)%nat
    /\ length (filter DirectionPoint.correct (DirectionAnalysis.data res))
       = (length (filter DirectionPoint.correct (DirectionAnalysis.data acc))
          + length (filter (chartAgrees arimaData) indexes))%nat
    /\ length (DirectionAnalysis.data res)
       = (length (DirectionAnalysis.data acc) + length indexes)%nat.
Proof.
  induction indexes as [|i rest IH]; intros acc.
  - cbn. repeat split; lia.
  - cbn zeta. cbn [directionLoop].
    assert (Hagree : Bool.eqb
              (gt (ArimaDatum.actual (nth i arimaData noDatum))
                  (ArimaDatum.actual (nth (i - 1) arimaData noDatum)))
              (gt (ArimaDatum.predicted (nth i arimaData noDatum))
                  (ArimaDatum.predicted (nth (i - 1) arimaData noDatum)))
            = chartAgrees arimaData i).
    { unfold chartAgrees, risesAt.
      change 0 with (ArimaDatum.actual noDatum) at 1 2.
      change 0 with (ArimaDatum.predicted noDatum).
      now rewrite !map_nth. }
    rewrite Hagree.
    match goal with |- context [directionLoop arimaData rest ?a] =>
      destruct (IH a) as (H1 & H2 & H3 & H4) end.
    cbn zeta in H1, H2, H3, H4. rewrite H2, H3, H4, H1.
    cbn [DirectionAnalysis.correct DirectionAnalysis.incorrect
         DirectionAnalysis.data filter length].
    rewrite filter_app, !length_app. cbn [filter DirectionPoint.correct length].
    destruct (chartAgrees arimaData i); cbn [length]; repeat split; lia.
Qed.

(** X21. The direction analysis of the prediction chart agrees with the
    metrics: over [n >= 2] price forecast points it classifies [n - 1] steps,
    [correct + incorrect = n - 1], the points it flags as correct are
    [correct] in number, and the direction accuracy reported in the metrics is
    [correct / (n - 1) * 100]. *)
Theorem chart_direction_agrees_with_metrics (features : list Feature.FeatureRecord) :
  let r := runTimeSeriesAnalysis features in
  let d := directionAnalysis (arimaData (Some r)) in
  let n := length (arimaResults r) in
  (2 <= n)%nat ->
  (DirectionAnalysis.correct d + DirectionAnalysis.incorrect d = n - 1)%nat
  /\ length (DirectionAnalysis.data d) = (n - 1)%nat
  /\ length (filter DirectionPoint.correct (DirectionAnalysis.data d))
     = DirectionAnalysis.correct d
  /\ directionAccuracy (metrics_arima r)
     = INR (DirectionAnalysis.correct d) / INR (n - 1) * 100.
Proof.
  intros r d n Hn.
  set (chart := arimaData (Some r)) in *.
  assert (Hlen : length chart = n) by apply arimaData_length.
  assert (Hd : d = directionLoop chart (seq 1 (length chart - 1))
                     {| DirectionAnalysis.correct := 0%nat;
                        DirectionAnalysis.incorrect := 0%nat;
                        DirectionAnalysis.data := [] |}).
  { subst d. unfold directionAnalysis. destruct chart; [simpl in Hlen; lia|].
    reflexivity. }
  match type of Hd with _ = directionLoop _ _ ?a =>
    destruct (directionLoop_spec chart (seq 1 (length chart - 1)) a)
      as (H1 & H2 & H3 & H4) end.
  cbn zeta in H1, H2, H3, H4. rewrite <- Hd in H1, H2, H3, H4.
  cbn [DirectionAnalysis.correct DirectionAnalysis.incorrect
       DirectionAnalysis.data filter length] in H1, H2, H3, H4.
  rewrite length_seq, Hlen in H2, H4.
  split; [lia|]. split; [lia|]. split; [lia|].
  assert (Hm : metrics_arima r
               = calcMetrics (map Arima.actual (arimaResults r))
                             (map Arima.predicted (arimaResults r)))
    by reflexivity.
  rewrite Hm. unfold calcMetrics. cbn [directionAccuracy].
  rewrite countCorrectDir_filter, Rplus_0_l, length_map. fold n.
  unfold countWhere. rewrite H1, Nat.add_0_l, Hlen.
  unfold chartAgrees. subst chart. rewrite arimaData_actual, arimaData_predicted.
  rewrite INR_pred by lia. reflexivity.
Qed.

Lemma risingFeatures_arima_length :
  length (arimaResults (runTimeSeriesAnalysis risingFeatures)) = 3%nat.
Proof.
  unfold runTimeSeriesAnalysis. cbn [arimaResults].
  rewrite arimaLoop_length, length_seq, risingFeatures_trainSize. reflexivity.
Qed.

Lemma chart_direction_agrees_with_metrics_witness :
  directionAccuracy (metrics_arima (runTimeSeriesAnalysis risingFeatures))
  = INR (DirectionAnalysis.correct
           (directionAnalysis
              (arimaData (Some (runTimeSeriesAnalysis risingFeatures)))))
    / INR (length (arimaResults (runTimeSeriesAnalysis risingFeatures)) - 1)
    * 100.
Proof.
  assert (H : (2 <= length (arimaResults (runTimeSeriesAnalysis risingFeatures)))%nat).
  { rewrite risingFeatures_arima_length. lia. }
  exact (proj2 (proj2 (proj2
           (chart_direction_agrees_with_metrics risingFeatures H)))).
Defined.

(** ** Histograms *)

Lemma incrementAt_length (bins : list nat) :
  forall i, length (incrementAt i bins) = length bins.
Proof.
  induction bins as [|c bins IH]; intros i; [now destruct i|].
  destruct i; simpl; [reflexivity | now rewrite IH].
Qed.

Lemma incrementAt_sum (bins : list nat) :
  forall i, (i < length bins)%nat ->
    list_sum (incrementAt i bins) = S (list_sum bins).
Proof.
  induction bins as [|c bins IH]; intros i Hi; simpl in Hi; [lia|].
  destruct i; simpl; [reflexivity|]. rewrite IH by lia. lia.
Qed.

Lemma incrementAt_nth (bins : list nat) :
  forall i k, (i < length bins)%nat ->
    nth k (incrementAt i bins) 0%nat
    = if (k =? i)%nat then S (nth k bins 0%nat) else nth k bins 0%nat.
Proof.
  induction bins as [|c bins IH]; intros i k Hi; simpl in Hi; [lia|].
  destruct i, k; simpl; try reflexivity. apply IH. lia.
Qed.

Lemma binIndexOf_range (lowest binSize : R) (binCount : nat) (v : R) :
  (1 <= binCount)%nat -> 0 < binSize -> lowest <= v ->
  (0 <= binIndexOf lowest binSize binCount v <= Z.of_nat binCount - 1)%Z.
Proof.
  intros Hc Hs Hv. unfold binIndexOf.
  assert (0 <= (v - lowest) / binSize).
  { apply Rmult_le_pos; [lra|]. apply Rlt_le, Rinv_0_lt_compat, Hs. }
  assert (0 <= Zfloor ((v - lowest) / binSize))%Z by (apply Zfloor_lub; simpl; lra).
  lia.
Qed.

(** One step of [fillBins]. *)
Lemma fillBins_fold (lowest binSize : R) (binCount : nat) :
  (1 <= binCount)%nat -> 0 < binSize ->
  forall values bins0,
    Forall (fun v => lowest <= v) values ->
    length bins0 = binCount ->
    let bins :=
      fold_left (fun bins v =>
                   let binIndex := binIndexOf lowest binSize binCount v in
                   if (0 <=? binIndex)%Z then incrementAt (Z.to_nat binIndex) bins
                   else bins)
                values bins0 in
    length bins = binCount
    /\ list_sum bins = (list_sum bins0 + length values)%nat
    /\ forall k, (k < binCount)%nat ->
         nth k bins 0%nat
         = (nth k bins0 0
            + length (filter (fun v => (binIndexOf lowest binSize binCount v
                                        =? Z.of_nat k)%Z) values))%nat.
Proof.
  intros Hc Hs. induction values as [|v values IH]; intros bins0 Hvals Hlen.
  - cbn [fold_left filter length]. cbn zeta.
    split; [exact Hlen|]. split; [lia|]. intros k _. lia.
  - apply Forall_cons_iff in Hvals. destruct Hvals as [Hv Hrest]. cbn [fold_left].
    assert (R := binIndexOf_range lowest binSize binCount v Hc Hs Hv).
    cbn zeta.
    destruct (Z.leb_spec 0 (binIndexOf lowest binSize binCount v)) as [_|C]; [|lia].
    set (i := Z.to_nat (binIndexOf lowest binSize binCount v)) in *.
    assert (Hi : (i < length bins0)%nat) by (subst i; lia).
    destruct (IH (incrementAt i bins0) Hrest) as (L & S' & N).
    { now rewrite incrementAt_length. }
    cbn zeta in L, S', N. split; [exact L|]. split.
    + rewrite S', incrementAt_sum by exact Hi. cbn [length]. lia.
    + intros k Hk. rewrite N by exact Hk. rewrite incrementAt_nth by exact Hi.
      cbn [filter].
      destruct (Z.eqb_spec (binIndexOf lowest binSize binCount v) (Z.of_nat k)) as [E|E];
        destruct (Nat.eqb_spec k i) as [E'|E']; cbn [length]; lia.
Qed.

Lemma list_sum_zeros (n : nat) : list_sum (repeat 0%nat n) = 0%nat.
Proof. induction n; simpl; [reflexivity | assumption]. Qed.

(** The bins of a histogram: there are [binCount] of them, every value at or
    above [lowest] is counted once, and bin [k] counts the values whose index
    is [k]. *)
Lemma fillBins_spec (lowest binSize : R) (binCount : nat) (values : list R) :
  (1 <= binCount)%nat -> 0 < binSize ->
  Forall (fun v => lowest <= v) values ->
  let bins := fillBins lowest binSize binCount values in
  length bins = binCount
  /\ list_sum bins = length values
  /\ forall k, (k < binCount)%nat ->
       nth k bins 0%nat
       = length (filter (fun v => (binIndexOf lowest binSize binCount v
                                   =? Z.of_nat k)%Z) values).
Proof.
  intros Hc Hs Hvals. unfold fillBins.
  destruct (fillBins_fold lowest binSize binCount Hc Hs values
              (repeat 0%nat binCount) Hvals (repeat_length _ _)) as (L & S' & N).
  cbn zeta in *. split; [exact L|]. split.
  - rewrite S', list_sum_zeros. lia.
  - intros k Hk. rewrite N by exact Hk. rewrite nth_repeat_lt by exact Hk. lia.
Qed.


Lemma min_lt_max_nonempty (l : list R) : Math_min_of l < Math_max_of l -> l <> [].
Proof. intros H ->. simpl in H. lra. Qed.


Lemma In_le_list_sum (c : nat) (l : list nat) :
  In c l -> (c <= list_sum l)%nat.
Proof.
  induction l as [|x l IH]; intros H; [contradiction|].
  cbn [list_sum fold_right]. change (fold_right Nat.add 0%nat l) with (list_sum l).
  destruct H as [->|H]; [lia|]. apply IH in H. lia.
Qed.

Lemma mapi_from_In {A B} (f : A -> nat -> B) (l : list A) (b : B) :
  forall i, In b (mapi_from f i l) -> exists a j, In a l /\ b = f a j.
Proof.
  induction l as [|x l IH]; intros i H; simpl in H; [contradiction|].
  destruct H as [<-|H].
  - exists x, i. split; [now left | reflexivity].
  - destruct (IH _ H) as (a & j & Ha & ->). exists a, j. split; [now right | reflexivity].
Qed.

(** X23. When the volatilities of the snapshots are not all equal, the
    volatility histogram has 20 bins, its counts add up to the number of
    snapshots, and the percentage of every bin is its share
    [count / n * 100] of the snapshots, between 0 and 100. *)
Theorem volDistribution_percentages (data : list LOB.LOBRecord) :
  let vols := map (fun d => LOB.volatility d * 10000) data in
  Math_min_of vols < Math_max_of vols ->
  let dist := volDistribution data in
  length dist = 20%nat
  /\ list_sum (map VolBin.count dist) = length data
  /\ Forall (fun b => VolBin.percentage b
                      = INR (VolBin.count b) / INR (length data) * 100
                      /\ 0 <= VolBin.percentage b <= 100) dist.
Proof.
  intros vols Hlt dist.
  assert (Hne : vols <> []) by now apply min_lt_max_nonempty.
  destruct (Math_min_of_spec vols Hne) as [_ MinAll].
  set (lowest := Math_min_of vols) in *. set (highest := Math_max_of vols) in *.
  set (binSize := (highest - lowest) / INR 20).
  assert (Hs : 0 < binSize) by (subst binSize; simpl INR; lra).
  destruct (fillBins_spec lowest binSize 20 vols ltac:(lia) Hs MinAll)
    as (L & S' & _).
  cbn zeta in L, S'.
  assert (Hlen : length vols = length data) by (subst vols; apply length_map).
  assert (Hn : 0 < INR (length data)).
  { rewrite <- Hlen. apply lt_0_INR. destruct vols; [congruence | simpl; lia]. }
  subst dist. unfold volDistribution. fold vols. fold lowest. fold highest.
  fold binSize. cbn zeta. unfold mapi.
  split; [now rewrite mapi_from_length|]. split.
  - rewrite (mapi_from_project _ _ (fun c => c)) by reflexivity.
    rewrite map_id, S'. exact Hlen.
  - apply Forall_forall. intros b Hb.
    apply mapi_from_In in Hb. destruct Hb as (count & j & Hc & ->).
    cbn [VolBin.percentage VolBin.count]. rewrite Hlen.
    split; [reflexivity|].
    apply In_le_list_sum in Hc. rewrite S', Hlen in Hc.
    apply le_INR in Hc. assert (H0 := pos_INR count).
    set (c := INR count) in *. set (n := INR (length data)) in *.
    assert (Hq : 0 <= c / n <= 1).
    { split.
      - apply Rmult_le_pos; [exact H0|]. apply Rlt_le, Rinv_0_lt_compat, Hn.
      - apply (Rmult_le_reg_r n); [exact Hn|].
        replace (c / n * n) with c by (field; lra). lra. }
    lra.
Qed.


Lemma volDistribution_percentages_witness :
  let dist := volDistribution twoVolatilities in
  length dist = 20%nat
  /\ list_sum (map VolBin.count dist) = length twoVolatilities
  /\ Forall (fun b => VolBin.percentage b
                      = INR (VolBin.count b) / INR (length twoVolatilities) * 100
                      /\ 0 <= VolBin.percentage b <= 100) dist.
Proof.
  assert (H : Math_min_of (map (fun d => LOB.volatility d * 10000) twoVolatilities)
              < Math_max_of (map (fun d => LOB.volatility d * 10000)
                                 twoVolatilities)).
  { simpl. unfold Rmin, Rmax.
    destruct (Rle_dec (0 * 10000) (0.0002 * 10000)); lra. }
  exact (volDistribution_percentages twoVolatilities H).
Defined.

(** ** The correlation behind the feature importance *)

Lemma correlateLoop_spec (x y : list R) (meanX meanY : R) (indexes : list nat) :
  forall num denX denY,
    correlateLoop x y meanX meanY indexes (num, denX, denY)
    = (num + sumOf (map (fun i => (nth i x 0 - meanX) * (nth i y 0 - meanY)) indexes),
       denX + sumOf (map (fun i => (nth i x 0 - meanX) * (nth i x 0 - meanX)) indexes),
       denY + sumOf (map (fun i => (nth i y 0 - meanY) * (nth i y 0 - meanY)) indexes)).
Proof.
  unfold sumOf. induction indexes as [|i rest IH]; intros num denX denY.
  - simpl. f_equal; [f_equal|]; lra.
  - cbn [correlateLoop map fold_right]. rewrite IH. f_equal; [f_equal|]; lra.
Qed.

(** X24. The correlation the feature importance is computed from is
    symmetric in its two series. *)
Theorem correlate_symmetric (x y : list R) :
  correlate x y = correlate y x.
Proof.
  unfold correlate. rewrite (Nat.min_comm (length y) (length x)).
  set (n := Nat.min (length x) (length y)).
  set (meanX := reduce (fun a b => a + b) 0 (slice 0 n x) / INR n).
  set (meanY := reduce (fun a b => a + b) 0 (slice 0 n y) / INR n).
  rewrite !correlateLoop_spec, !Rplus_0_l.
  set (fx := fun i => nth i x 0 - meanX). set (fy := fun i => nth i y 0 - meanY).
  change (sumOf (map (fun i => (nth i x 0 - meanX) * (nth i y 0 - meanY)) (seq 0 n)))
    with (sumOf (map (fun i => fx i * fy i) (seq 0 n))).
  change (sumOf (map (fun i => (nth i y 0 - meanY) * (nth i x 0 - meanX)) (seq 0 n)))
    with (sumOf (map (fun i => fy i * fx i) (seq 0 n))).
  change (sumOf (map (fun i => (nth i x 0 - meanX) * (nth i x 0 - meanX)) (seq 0 n)))
    with (sumOf (map (fun i => fx i * fx i) (seq 0 n))).
  change (sumOf (map (fun i => (nth i y 0 - meanY) * (nth i y 0 - meanY)) (seq 0 n)))
    with (sumOf (map (fun i => fy i * fy i) (seq 0 n))).
  assert (Hsym : sumOf (map (fun i => fy i * fx i) (seq 0 n))
                 = sumOf (map (fun i => fx i * fy i) (seq 0 n))).
  { f_equal. apply map_ext. intros i. lra. }
  rewrite Hsym.
  set (num := sumOf (map (fun i => fx i * fy i) (seq 0 n))) in *.
  set (denX := sumOf (map (fun i => fx i * fx i) (seq 0 n))) in *.
  set (denY := sumOf (map (fun i => fy i * fy i) (seq 0 n))) in *.
  destruct (Req_dec_T denX 0) as [EX|NX]; destruct (Req_dec_T denY 0) as [EY|NY];
    try reflexivity.
  unfold Math_sqrt. now rewrite (Rmult_comm denY denX).
Qed.

Lemma sumOf_all_zero {A} (f : A -> R) (l : list A) :
  (forall a, In a l -> f a = 0) -> sumOf (map f l) = 0.
Proof.
  unfold sumOf. induction l as [|a l IH]; intros H; simpl; [reflexivity|].
  rewrite IH by (intros b Hb; apply H; now right).
  rewrite (H a) by now left. lra.
Qed.

(** X25. When every value of the first series, over the common length of
    the two series, equals the mean the function computes for that series,
    the correlation is 0: the guard on the sums of squares replaces a
    division by zero. *)
Theorem correlate_zero_deviation (x y : list R) :
  let n := Nat.min (length x) (length y) in
  let meanX := reduce (fun a b => a + b) 0 (slice 0 n x) / INR n in
  (forall i, (i < n)%nat -> nth i x 0 = meanX) ->
  correlate x y = 0.
Proof.
  intros n meanX Hc. unfold correlate. fold n. fold meanX.
  set (meanY := reduce (fun a b => a + b) 0 (slice 0 n y) / INR n).
  rewrite correlateLoop_spec, !Rplus_0_l.
  assert (HdenX : sumOf (map (fun i => (nth i x 0 - meanX) * (nth i x 0 - meanX))
                             (seq 0 n)) = 0).
  { apply sumOf_all_zero. intros i Hi. apply in_seq in Hi.
    rewrite Hc by lia. lra. }
  rewrite HdenX. destruct (Req_dec_T 0 0) as [_|C]; [reflexivity | now contradiction C].
Qed.

Lemma correlate_zero_deviation_witness : correlate [2; 2; 2] [1; 5; 3] = 0.
Proof.
  apply correlate_zero_deviation.
  intros i Hi. simpl in Hi. unfold reduce, slice. simpl.
  destruct i as [|[|[|i]]]; simpl; try lra. lia.
Defined.

(** ** The depth chart *)

Lemma nonDecreasing_adjacent (l : list R) :
  (forall i, (i + 1 < length l)%nat -> nth i l 0 <= nth (i + 1) l 0) ->
  nonDecreasing l.
Proof.
  intros Hadj j k [Hjk Hk].
  induction k as [|k IH]; [lia|].
  destruct (Nat.eq_dec j k) as [->|Hne].
  - rewrite <- Nat.add_1_r. apply Hadj. lia.
  - apply Rle_trans with (nth k l 0); [apply IH; lia|].
    rewrite <- (Nat.add_1_r k). apply Hadj. lia.
Qed.

Lemma five_levels (levels : list OrderLevel) (f : nat -> R) :
  map price levels = map f (seq 0 5) ->
  exists l0 l1 l2 l3 l4,
    levels = [l0; l1; l2; l3; l4]
    /\ price l0 = f 0%nat /\ price l1 = f 1%nat /\ price l2 = f 2%nat
    /\ price l3 = f 3%nat /\ price l4 = f 4%nat.
Proof.
  intros H.
  destruct levels as [|l0 [|l1 [|l2 [|l3 [|l4 [|l5 rest]]]]]]; try discriminate.
  simpl in H. inversion H. exists l0, l1, l2, l3, l4. repeat split; assumption.
Qed.

Lemma tick_depthChartSound i st src record st' rest :
  0 <= currentVolatility st ->
  tick i st src = Some ((record, st'), rest) ->
  depthChartSound record /\ 0 <= currentVolatility st'.
Proof.
  intros Hv H.
  assert (Hfields := tick_inv_fields _ _ _ _ _ _ H).
  destruct Hfields as (shock & zPrice & zImb & uSide & uSize & s1 & s2 & s3 & s4
                       & s5 & _ & _ & _ & Hlev & _ & _ & Hst & _ & _ & _ & Hb & Ha & _).
  set (vol' := nextVolatility (currentVolatility st) shock) in *.
  set (p := nextPrice (currentPrice st) vol' zPrice) in *.
  assert (Hvol' : 0 <= vol') by (apply nextVolatility_nonneg; exact Hv).
  assert (Hs : 0.01 <= spreadOf vol') by (apply spreadOf_lower; exact Hvol').
  set (s := spreadOf vol') in *.
  split; [|subst st'; exact Hvol'].
  apply generateLevels_inv in Hlev. destruct Hlev as (Pb & Pa & _ & _).
  destruct (five_levels _ _ Pb) as (b0 & b1 & b2 & b3 & b4 & Eb & B0 & B1 & B2 & B3 & B4).
  destruct (five_levels _ _ Pa) as (a0 & a1 & a2 & a3 & a4 & Ea & A0 & A1 & A2 & A3 & A4).
  unfold depthChartSound, depthChartData. rewrite Hb, Ha, Eb, Ea.
  unfold mapi, slice. cbn.
  split; [reflexivity|]. split; [|split; reflexivity].
  rewrite B0, B1, B2, B3, B4, A0, A1, A2, A3, A4.
  assert (S0 : 0 <= s) by lra.
  assert (L43 := bidPriceOf_le p s 3 4 S0 ltac:(lia)).
  assert (L32 := bidPriceOf_le p s 2 3 S0 ltac:(lia)).
  assert (L21 := bidPriceOf_le p s 1 2 S0 ltac:(lia)).
  assert (L10 := bidPriceOf_le p s 0 1 S0 ltac:(lia)).
  assert (G := best_bid_below_best_ask p s Hs).
  assert (U01 := askPriceOf_le p s 0 1 S0 ltac:(lia)).
  assert (U12 := askPriceOf_le p s 1 2 S0 ltac:(lia)).
  assert (U23 := askPriceOf_le p s 2 3 S0 ltac:(lia)).
  assert (U34 := askPriceOf_le p s 3 4 S0 ltac:(lia)).
  apply nonDecreasing_adjacent. intros k Hk. cbn [length] in Hk.
  do 9 (destruct k as [|k]; [cbn [nth Nat.add]; lra|]). lia.
Qed.

(** X26. For every generated snapshot whose mid price is at most
    [priceCeiling] the depth chart has ten points whose prices do not
    decrease from the furthest bid through the best bid and the best ask to
    the furthest ask; the cumulative bid volume at the furthest bid is the
    snapshot's total bid volume, and the cumulative ask volume at the furthest
    ask its total ask volume. *)
Theorem generated_depth_chart numRecords src records rest :
  generateLOBData numRecords src = Some (records, rest) ->
  Forall (fun r => withinCeiling r -> depthChartSound r) records.
Proof.
  unfold generateLOBData. intros H. apply Forall_always. revert H.
  apply (ticksFrom_Forall (fun st _ => 0 <= currentVolatility st) depthChartSound).
  - intros i st s record st' r Hv H. eapply tick_depthChartSound; eassumption.
  - unfold initialState, volatility. cbn [currentVolatility]. lra.
Qed.

Lemma generated_depth_chart_witness :
  exists records,
    generateLOBData 2 (quarterSource 76) = Some (records, [])
    /\ Forall withinCeiling records
    /\ Forall depthChartSound records.
Proof.
  destruct two_quiet_records as [records Hrun].
  exists records. split; [exact Hrun|].
  assert (Hw : Forall withinCeiling records).
  { apply (quiet_records_withinCeiling 2 76 records []); [simpl; lia | exact Hrun]. }
  split; [exact Hw|].
  exact (Forall_within _ _ _ Hw
           (generated_depth_chart 2 (quarterSource 76) records [] Hrun)).
Defined.

(** ** The liquidity heat map *)








(** ** Labels and returns *)





(** ** The statistics of a feature *)

(** X29. For a non-empty array, the minimum and the maximum of the
    statistics of a feature are values of the array, every value of the array
    lies between them, and the standard deviation is not negative. *)
Theorem calc_statistics (arr : list R) :
  arr <> [] ->
  let s := calc arr in
  In (FeatureStat.min s) arr
  /\ In (FeatureStat.max s) arr
  /\ Forall (fun v => FeatureStat.min s <= v <= FeatureStat.max s) arr
  /\ 0 <= FeatureStat.std s.
Proof.
  intros Hne s. subst s. unfold calc.
  cbn [FeatureStat.min FeatureStat.max FeatureStat.std].
  destruct (Math_min_of_spec arr Hne) as [MinIn MinAll].
  destruct (Math_max_of_spec arr Hne) as [MaxIn MaxAll].
  split; [exact MinIn|]. split; [exact MaxIn|]. split.
  - rewrite Forall_forall in MinAll, MaxAll. apply Forall_forall.
    intros v Hv. split; [now apply MinAll | now apply MaxAll].
  - unfold Math_sqrt. apply sqrt_pos.
Qed.

Lemma calc_statistics_witness :
  let s := calc [1; 5; 3] in
  In (FeatureStat.min s) [1; 5; 3]
  /\ In (FeatureStat.max s) [1; 5; 3]
  /\ Forall (fun v => FeatureStat.min s <= v <= FeatureStat.max s) [1; 5; 3]
  /\ 0 <= FeatureStat.std s.
Proof.
  assert (H : [1; 5; 3] <> []) by discriminate.
  exact (calc_statistics [1; 5; 3] H).
Defined.
